(** * govanity: a shallow embedding of [main.go]

    The program discovers Go packages whose import comment starts with a
    vanity prefix and writes one redirect page per package.  This file
    embeds the functions of [main.go] and the parts of the Go standard
    library they call ([strings], [net/url], [path/filepath]), and proves
    the properties of the specification about them.

    Conventions of the embedding:
    - a Go [string] is a [string] of bytes ([ascii] is one byte);
    - a Go [int] is a [Z] in the 64-bit signed range, arithmetic on it is
      wrapped by [wrap64];
    - a Go function returning [(T, error)] returns [result T];
    - a Go function that may panic at run time returns [outcome T];
    - operations on the outside world (GitHub, git, go list, the file
      system) are fields of a record that is passed in;
    - [path/filepath] is the one of a Unix target ([Separator] is a slash). *)

From Stdlib Require Import ZArith Ascii Lia.
From stdpp Require Import base option list gmap strings.

Local Open Scope Z_scope.

(** ** Results, errors and panics *)

Definition error := string.

Inductive result (A : Type) : Type :=
| Ok (a : A)
| Err (e : error).
Arguments Ok {A} a.
Arguments Err {A} e.

Inductive outcome (A : Type) : Type :=
| Returns (a : A)
| Panics (msg : string).
Arguments Returns {A} a.
Arguments Panics {A} msg.

Definition is_ok {A} (r : result A) : bool :=
  match r with Ok _ => true | Err _ => false end.

Definition returns {A} (o : outcome A) : bool :=
  match o with Returns _ => true | Panics _ => false end.

(** ** Machine integers *)

Definition wrap64 (z : Z) : Z := (z + 2 ^ 63) mod 2 ^ 64 - 2 ^ 63.

Definition int_sub (a b : Z) : Z := wrap64 (a - b).

(** The values of an [int]. *)
Definition fits_int (z : Z) : Prop := - 2 ^ 63 <= z < 2 ^ 63.

Definition len {A} (l : list A) : Z := Z.of_nat (length l).

(** [s[:hi]] on a slice whose capacity equals its length, as the slices
    returned by [strings.Split] are. *)
Definition slice_to {A} (s : list A) (hi : Z) : outcome (list A) :=
  if (0 <=? hi) && (hi <=? len s)
  then Returns (take (Z.to_nat hi) s)
  else Panics "runtime error: slice bounds out of range".

(** [s[i]] on a slice. *)
Definition index_at {A} (s : list A) (i : nat) : outcome A :=
  match s !! i with
  | Some x => Returns x
  | None => Panics "runtime error: index out of range"
  end.

(** ** Bytes *)

Definition byte_in (lo hi c : ascii) : bool :=
  (N_of_ascii lo <=? N_of_ascii c)%N && (N_of_ascii c <=? N_of_ascii hi)%N.

Definition is_lower (c : ascii) : bool := byte_in "a" "z" c.
Definition is_upper (c : ascii) : bool := byte_in "A" "Z" c.
Definition is_digit (c : ascii) : bool := byte_in "0" "9" c.
Definition is_alnum (c : ascii) : bool := is_lower c || is_upper c || is_digit c.

Definition one_of (set : string) (c : ascii) : bool :=
  existsb (Ascii.eqb c) (String.list_ascii_of_string set).

(** ** Package [strings] *)

Module strings.

Fixpoint HasPrefix (s prefix : string) {struct prefix} : bool :=
  match prefix, s with
  | EmptyString, _ => true
  | String _ _, EmptyString => false
  | String p prefix', String c s' =>
      if Ascii.eqb c p then HasPrefix s' prefix' else false
  end.

Definition HasSuffix (s suffix : string) : bool :=
  HasPrefix (String.rev s) (String.rev suffix).

(** [s[n:]] and [s[:n]] for [n] within the string. *)
Fixpoint from (n : nat) (s : string) : string :=
  match n, s with
  | O, _ => s
  | S _, EmptyString => EmptyString
  | S n', String _ s' => from n' s'
  end.

Fixpoint upto (n : nat) (s : string) : string :=
  match n, s with
  | O, _ => EmptyString
  | S _, EmptyString => EmptyString
  | S n', String c s' => String c (upto n' s')
  end.

Definition TrimPrefix (s prefix : string) : string :=
  if HasPrefix s prefix then from (String.length prefix) s else s.

Fixpoint ContainsByte (s : string) (c : ascii) : bool :=
  match s with
  | EmptyString => false
  | String x s' => Ascii.eqb x c || ContainsByte s' c
  end.

(** [ContainsRune] for a rune below 0x80, which is one byte. *)
Definition ContainsRune (s : string) (r : ascii) : bool := ContainsByte s r.

Fixpoint CountByte (s : string) (c : ascii) : nat :=
  match s with
  | EmptyString => O
  | String x s' => (if Ascii.eqb x c then 1 else 0) + CountByte s' c
  end%nat.

(** [Index], with [None] for the -1 of Go. *)
Fixpoint Index (s sep : string) : option nat :=
  if HasPrefix s sep then Some O
  else match s with
       | EmptyString => None
       | String _ s' => S <$> Index s' sep
       end.

Fixpoint LastIndexByte (s : string) (c : ascii) : option nat :=
  match s with
  | EmptyString => None
  | String x s' =>
      match LastIndexByte s' c with
      | Some i => Some (S i)
      | None => if Ascii.eqb x c then Some O else None
      end
  end.

(** [Cut] at a one-byte separator: before, after, found. *)
Fixpoint Cut (s : string) (sep : ascii) : string * string * bool :=
  match s with
  | EmptyString => (EmptyString, EmptyString, false)
  | String c s' =>
      if Ascii.eqb c sep then (EmptyString, s', true)
      else let '(before, after, found) := Cut s' sep in
           (String c before, after, found)
  end.

(** [Split] at a one-byte separator; every call of the program passes
    one.  The result has one more element than there are separators. *)
Fixpoint Split (s : string) (sep : ascii) : list string :=
  match s with
  | EmptyString => [EmptyString]
  | String c s' =>
      if Ascii.eqb c sep then EmptyString :: Split s' sep
      else match Split s' sep with
           | hd :: tl => String c hd :: tl
           | [] => [String c EmptyString]
           end
  end.

Fixpoint Join (elems : list string) (sep : string) : string :=
  match elems with
  | [] => EmptyString
  | [e] => e
  | e :: rest => e +:+ sep +:+ Join rest sep
  end.

Fixpoint TrimLeft (s cutset : string) : string :=
  match s with
  | EmptyString => EmptyString
  | String c s' => if one_of cutset c then TrimLeft s' cutset else s
  end.

(** Whether every byte of [s] is in the class [P]. *)
Fixpoint all_bytes (P : ascii -> bool) (s : string) : bool :=
  match s with
  | EmptyString => true
  | String c s' => P c && all_bytes P s'
  end.

Definition lower_byte (c : ascii) : ascii :=
  if is_upper c then ascii_of_N (N_of_ascii c + 32) else c.

(** [ToLower] on the ASCII letters; the program lowers URL schemes only,
    which are ASCII. *)
Fixpoint ToLower (s : string) : string :=
  match s with
  | EmptyString => EmptyString
  | String c s' => String (lower_byte c) (ToLower s')
  end.

Definition of_codes (codes : list N) : string :=
  String.string_of_list_ascii (map ascii_of_N codes).

(** The encodings of the code points with the White_Space property, which
    [TrimSpace] removes from both ends. *)
Definition spaces : list string :=
  map of_codes
    [ [9]; [10]; [11]; [12]; [13]; [32]; [194; 133]; [194; 160];
      [225; 154; 128];
      [226; 128; 128]; [226; 128; 129]; [226; 128; 130]; [226; 128; 131];
      [226; 128; 132]; [226; 128; 133]; [226; 128; 134]; [226; 128; 135];
      [226; 128; 136]; [226; 128; 137]; [226; 128; 138];
      [226; 128; 168]; [226; 128; 169]; [226; 128; 175];
      [226; 129; 159]; [227; 128; 128] ]%N.

Definition leading_space (s : string) : option string :=
  find (HasPrefix s) spaces.

Fixpoint trim_left_space (fuel : nat) (s : string) : string :=
  match fuel with
  | O => s
  | S fuel' =>
      match leading_space s with
      | Some sp => trim_left_space fuel' (from (String.length sp) s)
      | None => s
      end
  end.

Definition trailing_space (s : string) : option string :=
  find (HasSuffix s) spaces.

Fixpoint trim_right_space (fuel : nat) (s : string) : string :=
  match fuel with
  | O => s
  | S fuel' =>
      match trailing_space s with
      | Some sp =>
          trim_right_space fuel' (upto (String.length s - String.length sp) s)
      | None => s
      end
  end.

Definition TrimSpace (s : string) : string :=
  trim_right_space (String.length s)
    (trim_left_space (String.length s) s).

End strings.

(** ** Package [net/url]

    [Parse] and [URL.String] as of Go 1.21, with every helper they reach.
    An error value is its message; the quoted operands that Go adds to
    some messages are left out. *)

Module url.
Import strings.

Inductive encoding : Set :=
| encodePath | encodePathSegment | encodeHost | encodeZone
| encodeUserPassword | encodeQueryComponent | encodeFragment.

Definition is_host_mode (mode : encoding) : bool :=
  match mode with encodeHost | encodeZone => true | _ => false end.

Definition is_fragment_mode (mode : encoding) : bool :=
  match mode with encodeFragment => true | _ => false end.

Definition is_query_mode (mode : encoding) : bool :=
  match mode with encodeQueryComponent => true | _ => false end.

Definition double_quote : ascii := ascii_of_N 34.

(** [shouldEscape]: whether byte [c] must be written as a %XX escape in
    the part of a URL that [mode] names. *)
Definition shouldEscape (c : ascii) (mode : encoding) : bool :=
  if is_alnum c then false
  else if is_host_mode mode
          && (one_of "!$&'()*+,;=:[]<>" c || Ascii.eqb c double_quote)
  then false
  else if one_of "-_.~" c then false
  else if one_of "$&+,/:;=?@" c
          && match mode with
             | encodePath | encodePathSegment | encodeUserPassword
             | encodeQueryComponent | encodeFragment => true
             | _ => false
             end
  then match mode with
       | encodePath => Ascii.eqb c "?"
       | encodePathSegment => one_of "/;,?" c
       | encodeUserPassword => one_of "@/?:" c
       | encodeQueryComponent => true
       | _ => false
       end
  else if is_fragment_mode mode && one_of "!()*" c then false
  else true.

Definition ishex (c : ascii) : bool :=
  is_digit c || byte_in "a" "f" c || byte_in "A" "F" c.

Definition unhex (c : ascii) : N :=
  if is_digit c then N_of_ascii c - 48
  else if byte_in "a" "f" c then N_of_ascii c - 97 + 10
  else if byte_in "A" "F" c then N_of_ascii c - 65 + 10
  else 0.

Definition upperhex (n : N) : ascii :=
  if (n <? 10)%N then ascii_of_N (48 + n) else ascii_of_N (65 + (n - 10)).

Definition below_0x80 (c : ascii) : bool := (N_of_ascii c <? 128)%N.

Definition is_pct25 (a b : ascii) : bool := Ascii.eqb a "2" && Ascii.eqb b "5".

(** [unescape]: the validity scan and the decoding of Go's two loops in
    one pass over the string; the first offending place is reported. *)
Fixpoint unescape (s : string) (mode : encoding) : result string :=
  match s with
  | EmptyString => Ok EmptyString
  | String c s1 =>
      if Ascii.eqb c "%" then
        match s1 with
        | String a (String b rest) =>
            if ishex a && ishex b then
              let v := ascii_of_N (unhex a * 16 + unhex b) in
              if match mode with encodeHost => true | _ => false end
                 && (unhex a <? 8)%N && negb (is_pct25 a b)
              then Err "invalid URL escape"
              else if match mode with encodeZone => true | _ => false end
                      && negb (is_pct25 a b) && negb (Ascii.eqb v " ")
                      && shouldEscape v encodeHost
              then Err "invalid URL escape"
              else match unescape rest mode with
                   | Ok t => Ok (String v t)
                   | Err e => Err e
                   end
            else Err "invalid URL escape"
        | _ => Err "invalid URL escape"
        end
      else if negb (Ascii.eqb c "+") && is_host_mode mode
              && below_0x80 c && shouldEscape c encodeHost
      then Err "invalid character in host name"
      else match unescape s1 mode with
           | Ok t =>
               Ok (String (if Ascii.eqb c "+" && is_query_mode mode
                           then " "%char else c) t)
           | Err e => Err e
           end
  end.

Fixpoint escape (s : string) (mode : encoding) : string :=
  match s with
  | EmptyString => EmptyString
  | String c s' =>
      if shouldEscape c mode then
        if Ascii.eqb c " " && is_query_mode mode
        then String "+" (escape s' mode)
        else String "%" (String (upperhex (N_of_ascii c / 16))
               (String (upperhex (N_of_ascii c mod 16)) (escape s' mode)))
      else String c (escape s' mode)
  end.

Fixpoint validEncoded (s : string) (mode : encoding) : bool :=
  match s with
  | EmptyString => true
  | String c s' =>
      (if one_of "!$&'()*+,;=:@[]%" c then true
       else negb (shouldEscape c mode))
      && validEncoded s' mode
  end.

Record Userinfo : Set := mkUserinfo {
  username : string;
  password : string;
  passwordSet : bool
}.

Record URL : Set := mkURL {
  Scheme : string;
  Opaque : string;
  User : option Userinfo;
  Host : string;
  Path : string;
  RawPath : string;
  OmitHost : bool;
  ForceQuery : bool;
  RawQuery : string;
  Fragment : string;
  RawFragment : string
}.

(** [new(URL)]: every field at its zero value. *)
Definition zero : URL :=
  mkURL EmptyString EmptyString None EmptyString EmptyString EmptyString
        false false EmptyString EmptyString EmptyString.

Definition with_Path (u : URL) (p : string) : URL :=
  mkURL (Scheme u) (Opaque u) (User u) (Host u) p (RawPath u)
        (OmitHost u) (ForceQuery u) (RawQuery u) (Fragment u) (RawFragment u).

Definition is_ctl (c : ascii) : bool :=
  (N_of_ascii c <? 32)%N || (N_of_ascii c =? 127)%N.

Fixpoint stringContainsCTLByte (s : string) : bool :=
  match s with
  | EmptyString => false
  | String c s' => is_ctl c || stringContainsCTLByte s'
  end.

(** The loop of [getScheme]; [i] is the index of the head of [rest] in
    [rawURL]. *)
Fixpoint getScheme_at (i : nat) (rawURL rest : string)
  : result (string * string) :=
  match rest with
  | EmptyString => Ok (EmptyString, rawURL)
  | String c rest' =>
      if is_lower c || is_upper c then getScheme_at (S i) rawURL rest'
      else if is_digit c || one_of "+-." c then
        match i with
        | O => Ok (EmptyString, rawURL)
        | S _ => getScheme_at (S i) rawURL rest'
        end
      else if Ascii.eqb c ":" then
        match i with
        | O => Err "missing protocol scheme"
        | S _ => Ok (upto i rawURL, rest')
        end
      else Ok (EmptyString, rawURL)
  end.

Definition getScheme (rawURL : string) : result (string * string) :=
  getScheme_at O rawURL rawURL.

Fixpoint all_digits (s : string) : bool :=
  match s with
  | EmptyString => true
  | String c s' => is_digit c && all_digits s'
  end.

Definition validOptionalPort (port : string) : bool :=
  match port with
  | EmptyString => true
  | String c digits => Ascii.eqb c ":" && all_digits digits
  end.

Fixpoint validUserinfo (s : string) : bool :=
  match s with
  | EmptyString => true
  | String c s' =>
      (is_alnum c || one_of "-._:~!$&'()*+,;=%@" c) && validUserinfo s'
  end.

Definition bind {A B} (r : result A) (k : A -> result B) : result B :=
  match r with
  | Ok a => k a
  | Err e => Err e
  end.

Definition parseHost (host : string) : result string :=
  if HasPrefix host "[" then
    match LastIndexByte host "]" with
    | None => Err "missing ']' in host"
    | Some i =>
        if negb (validOptionalPort (from (S i) host))
        then Err "invalid port after host"
        else
          match Index (upto i host) "%25" with
          | Some zone =>
              bind (unescape (upto zone host) encodeHost) (fun host1 =>
              bind (unescape (from zone (upto i host)) encodeZone) (fun host2 =>
              bind (unescape (from i host) encodeHost) (fun host3 =>
              Ok (host1 +:+ host2 +:+ host3))))
          | None => unescape host encodeHost
          end
    end
  else
    match LastIndexByte host ":" with
    | Some i =>
        if negb (validOptionalPort (from i host))
        then Err "invalid port after host"
        else unescape host encodeHost
    | None => unescape host encodeHost
    end.

Definition parseAuthority (authority : string)
  : result (option Userinfo * string) :=
  match LastIndexByte authority "@" with
  | None => bind (parseHost authority) (fun host => Ok (None, host))
  | Some i =>
      bind (parseHost (from (S i) authority)) (fun host =>
      let userinfo := upto i authority in
      if negb (validUserinfo userinfo) then Err "net/url: invalid userinfo"
      else if negb (ContainsByte userinfo ":") then
        bind (unescape userinfo encodeUserPassword) (fun name =>
        Ok (Some (mkUserinfo name EmptyString false), host))
      else
        let '(name, pass, _) := Cut userinfo ":" in
        bind (unescape name encodeUserPassword) (fun name' =>
        bind (unescape pass encodeUserPassword) (fun pass' =>
        Ok (Some (mkUserinfo name' pass' true), host))))
  end.

(** [setPath]: the decoded path, and the raw path kept only when it is
    not the default encoding of the decoded one. *)
Definition setPath (p : string) : result (string * string) :=
  bind (unescape p encodePath) (fun path =>
  if String.eqb p (escape path encodePath)
  then Ok (path, EmptyString)
  else Ok (path, p)).

Definition setFragment (f : string) : result (string * string) :=
  bind (unescape f encodeFragment) (fun frag =>
  if String.eqb f (escape frag encodeFragment)
  then Ok (frag, EmptyString)
  else Ok (frag, f)).

Definition nonempty (s : string) : bool :=
  match s with EmptyString => false | String _ _ => true end.

Definition parse (rawURL : string) (viaRequest : bool) : result URL :=
  if stringContainsCTLByte rawURL
  then Err "net/url: invalid control character in URL"
  else if negb (nonempty rawURL) && viaRequest then Err "empty url"
  else if String.eqb rawURL "*"
  then Ok (with_Path zero "*")
  else
    bind (getScheme rawURL) (fun '(scheme0, rest0) =>
    let scheme := ToLower scheme0 in
    let '(rest, rawQuery, forceQuery) :=
      if HasSuffix rest0 "?" && Nat.eqb (CountByte rest0 "?") 1
      then (upto (String.length rest0 - 1) rest0, EmptyString, true)
      else let '(before, after, _) := Cut rest0 "?" in (before, after, false) in
    if negb (HasPrefix rest "/") && nonempty scheme then
      Ok (mkURL scheme rest None EmptyString EmptyString EmptyString
                false forceQuery rawQuery EmptyString EmptyString)
    else if negb (HasPrefix rest "/") && viaRequest then
      Err "invalid URI for request"
    else if negb (HasPrefix rest "/")
            && ContainsByte (Cut rest "/").1.1 ":" then
      Err "first path segment in URL cannot contain colon"
    else
      bind
        (if (nonempty scheme || negb viaRequest && negb (HasPrefix rest "///"))
            && HasPrefix rest "//"
         then
           let authority0 := from 2 rest in
           let '(authority, rest') :=
             match Index authority0 "/" with
             | Some i => (upto i authority0, from i authority0)
             | None => (authority0, EmptyString)
             end in
           bind (parseAuthority authority) (fun '(user, host) =>
           Ok (user, host, rest', false))
         else if nonempty scheme && HasPrefix rest "/"
         then Ok (None, EmptyString, rest, true)
         else Ok (None, EmptyString, rest, false))
        (fun '(user, host, rest', omitHost) =>
         bind (setPath rest') (fun '(path, rawPath) =>
         Ok (mkURL scheme EmptyString user host path rawPath
                   omitHost forceQuery rawQuery EmptyString EmptyString)))).

Definition Parse (rawURL : string) : result URL :=
  let '(u, frag, _) := Cut rawURL "#" in
  match parse u false with
  | Err e => Err ("parse: " +:+ e)
  | Ok url =>
      if negb (nonempty frag) then Ok url
      else
        match setFragment frag with
        | Err e => Err ("parse: " +:+ e)
        | Ok (fragment, rawFragment) =>
            Ok (mkURL (Scheme url) (Opaque url) (User url) (Host url)
                      (Path url) (RawPath url) (OmitHost url)
                      (ForceQuery url) (RawQuery url) fragment rawFragment)
        end
  end.

Definition EscapedPath (u : URL) : string :=
  if nonempty (RawPath u) && validEncoded (RawPath u) encodePath
     && match unescape (RawPath u) encodePath with
        | Ok p => String.eqb p (Path u)
        | Err _ => false
        end
  then RawPath u
  else if String.eqb (Path u) "*" then "*"
  else escape (Path u) encodePath.

Definition EscapedFragment (u : URL) : string :=
  if nonempty (RawFragment u) && validEncoded (RawFragment u) encodeFragment
     && match unescape (RawFragment u) encodeFragment with
        | Ok f => String.eqb f (Fragment u)
        | Err _ => false
        end
  then RawFragment u
  else escape (Fragment u) encodeFragment.

Definition Userinfo_String (ui : Userinfo) : string :=
  escape (username ui) encodeUserPassword
  +:+ (if passwordSet ui
       then ":" +:+ escape (password ui) encodeUserPassword
       else EmptyString).

(** [URL.String]; [buf] is the text written so far. *)
Definition URL_String (u : URL) : string :=
  let buf0 := if nonempty (Scheme u) then Scheme u +:+ ":" else EmptyString in
  let buf1 :=
    if nonempty (Opaque u) then buf0 +:+ Opaque u
    else
      let buf_auth :=
        if nonempty (Scheme u) || nonempty (Host u) || bool_decide (User u <> None)
        then
          if OmitHost u && negb (nonempty (Host u)) && bool_decide (User u = None)
          then buf0
          else
            buf0
            +:+ (if nonempty (Host u) || nonempty (Path u)
                    || bool_decide (User u <> None)
                 then "//" else EmptyString)
            +:+ (match User u with
                 | Some ui => Userinfo_String ui +:+ "@"
                 | None => EmptyString
                 end)
            +:+ (if nonempty (Host u) then escape (Host u) encodeHost
                 else EmptyString)
        else buf0 in
      let path := EscapedPath u in
      let buf_slash :=
        if nonempty path && negb (HasPrefix path "/") && nonempty (Host u)
        then buf_auth +:+ "/" else buf_auth in
      let buf_dot :=
        if negb (nonempty buf_slash) && ContainsByte (Cut path "/").1.1 ":"
        then buf_slash +:+ "./" else buf_slash in
      buf_dot +:+ path in
  let buf2 :=
    if ForceQuery u || nonempty (RawQuery u)
    then buf1 +:+ "?" +:+ RawQuery u else buf1 in
  if nonempty (Fragment u) then buf2 +:+ "#" +:+ EscapedFragment u else buf2.

(** A byte that a path holds unescaped and that is no colon: a letter, a
    digit or one of [-_.~$&+,/;=@]. *)
Definition plain_byte (c : ascii) : bool :=
  negb (shouldEscape c encodePath) && negb (Ascii.eqb c ":").

Definition plain (s : string) : bool := all_bytes plain_byte s.

End url.


(** ** Package [path/filepath] (Unix) *)

Module filepath.
Import strings.

Definition Separator : ascii := "/".

(** [ToSlash] returns its argument when [Separator] is the slash. *)
Definition ToSlash (path : string) : string := path.

(** One step of the loop of [Clean], one path element at a time.  [out]
    holds the elements written so far, the last one first; [dotdot]
    counts the elements at the bottom of [out] that a [..] must not
    remove (a leading run of [..] elements). *)
Definition clean_step (rooted : bool) (st : list string * nat) (elem : string)
  : list string * nat :=
  let '(out, dotdot) := st in
  if String.eqb elem EmptyString || String.eqb elem "." then st
  else if String.eqb elem ".." then
    if (dotdot <? length out)%nat then (tail out, dotdot)
    else if rooted then st
    else (elem :: out, S (length out))
  else (elem :: out, dotdot).

Definition Clean (path : string) : string :=
  match path with
  | EmptyString => "."
  | String c _ =>
      let rooted := Ascii.eqb c Separator in
      let '(out, _) :=
        fold_left (clean_step rooted) (Split path Separator) ([], O) in
      match rooted, out with
      | false, [] => "."
      | _, _ =>
          (if rooted then "/" else EmptyString) +:+ Join (rev out) "/"
      end
  end.

(** [Join]: the elements from the first non-empty one on, joined by the
    separator and cleaned. *)
Fixpoint Join (elem : list string) : string :=
  match elem with
  | [] => EmptyString
  | e :: rest =>
      match e with
      | EmptyString => Join rest
      | String _ _ => Clean (strings.Join elem "/")
      end
  end.

(** A path element that [Clean] keeps as it is: not empty, not [.] or
    [..], and without a separator. *)
Definition normal_elem (e : string) : bool :=
  match e with EmptyString => false | String _ _ => true end
  && negb (String.eqb e ".") && negb (String.eqb e "..")
  && negb (ContainsByte e Separator).

(** [Dir]: the path up to and including its last separator, cleaned. *)
Definition Dir (path : string) : string :=
  match LastIndexByte path Separator with
  | Some i => Clean (upto (S i) path)
  | None => Clean EmptyString
  end.

End filepath.

(** ** [main.go] *)

Record vanityImport : Set := mkVanityImport {
  Import : string;
  RepoURL : string;
  pathLen : Z
}.

Definition ImportPrefix (i : vanityImport) : outcome string :=
  match url.Parse (Import i) with
  | Err _ => Returns EmptyString
  | Ok importURL =>
      let importPathSegments := strings.Split (url.Path importURL) "/" in
      match slice_to importPathSegments
              (int_sub (len importPathSegments) (pathLen i)) with
      | Panics msg => Panics msg
      | Returns kept =>
          Returns (url.URL_String
                     (url.with_Path importURL (strings.Join kept "/")))
      end
  end.

(** The words of the specification for the result of [ImportPrefix]: the
    path [P] without its last [d] segments, the rest joined by slashes. *)
Definition drop_last_segments (P : string) (d : Z) : string :=
  let segments := strings.Split P "/" in
  strings.Join (take (Z.to_nat (len segments - d)) segments) "/".

Definition htmlPath (i : vanityImport) (base dir : string) : string :=
  filepath.Join [dir; strings.TrimPrefix (Import i) base] +:+ ".html".


(** *** The outside world *)

(** A repository as the GitHub API reports it; the getters of the client
    give the zero value for an absent field. *)
Record Repository : Set := mkRepository {
  Name : string;
  Fork : bool;
  Language : string;
  SVNURL : string
}.

Record GitHub := mkGitHub {
  Repositories_List : string -> result (list Repository);
  Repositories_ListLanguages : string -> string -> result (gmap string Z)
}.

(** What the system answers while one repository is extracted. *)
Record RepoEnv := mkRepoEnv {
  TempDir : result string;
  EvalSymlinks : string -> result string;
  git_clone : option error;
  StdoutPipe : option error;
  Start : option error;
  scanned : list string;
  scanner_Err : option error;
  Wait : option error
}.

Record FileSystem := mkFileSystem {
  os_Create : string -> option error;
  file_Write : string -> option error;
  WriteFile : string -> string -> option error
}.

(** What a run prints and does to the file system, in order. *)
Inductive event : Type :=
| PrintConfig (prefix : string) (searchList : list string) (out : string)
              (token cname : bool)
| PrintListError (username : string) (e : error)
| PrintExplicit (username repoName : string)
| PrintFork (username repoName : string)
| PrintNotGo (username repoName : string)
| PrintPulling (repo : string)
| PrintError (e : error)
| PrintFound (import repoURL : string)
| PrintCount (n : Z)
| MkdirAll (path : string)
| Created (path : string)
| PrintCreateError (path : string) (e : error)
| Rendered (path importPrefix repoURL : string)
| PrintWriteError (path : string) (e : error)
| Wrote (path content : string).

(** *** [config] *)

Record config := mkConfig {
  prefix : string;
  prefixURL : option url.URL;
  search : string;
  searchList : list string;
  out : string;
  githubToken : string;
  writeCNAME : bool
}.

Definition set_prefixURL (cfg : config) (u : url.URL) : config :=
  mkConfig (prefix cfg) (Some u) (search cfg) (searchList cfg) (out cfg)
           (githubToken cfg) (writeCNAME cfg).

Definition append_searchList (cfg : config) (entry : string) : config :=
  mkConfig (prefix cfg) (prefixURL cfg) (search cfg) (searchList cfg ++ [entry])
           (out cfg) (githubToken cfg) (writeCNAME cfg).

(** [(cfg *config) Parse]: the configuration as the call leaves it, and the
    error returned. *)
Definition config_Parse (cfg : config) : config * option error :=
  if negb (url.nonempty (prefix cfg))
  then (cfg, Some "must provide vanity URL prefix")
  else
    match url.Parse ("//" +:+ prefix cfg) with
    | Err e => (cfg, Some ("invalid URL (" +:+ e +:+ ")"))
    | Ok u =>
        let cfg := set_prefixURL cfg u in
        if negb (url.nonempty (search cfg))
        then (cfg, Some "search list must contain at least one entry")
        else
          (fold_left
             (fun cfg search =>
                let search := strings.TrimSpace search in
                if url.nonempty search then append_searchList cfg search
                else cfg)
             (strings.Split (search cfg) ",") cfg,
           None)
    end.

(** *** [getPotentialRepos] *)

(** The first loop: explicit repositories go to [repoURLs] and to the map
    [searchRepos], the other entries to [usernames]. *)
Definition sort_entry (st : list string * gset string * list string) (v : string)
  : list string * gset string * list string :=
  let '(repoURLs, searchRepos, usernames) := st in
  if negb (strings.ContainsRune v "/")
  then (repoURLs, searchRepos, usernames ++ [v])
  else (repoURLs ++ ["https://github.com/" +:+ v], {[ v ]} ∪ searchRepos, usernames).

(** The body of the inner loop of the second one. *)
Definition consider_repo (gh : GitHub) (searchRepos : gset string)
    (username : string) (st : list string * list event) (repo : Repository)
  : list string * list event :=
  let '(repoURLs, log) := st in
  let repoName := Name repo in
  if bool_decide (username +:+ "/" +:+ repoName ∈ searchRepos)
  then (repoURLs, log ++ [PrintExplicit username repoName])
  else if Fork repo
  then (repoURLs, log ++ [PrintFork username repoName])
  else if String.eqb (Language repo) "Go"
  then (repoURLs ++ [SVNURL repo], log)
  else
    match Repositories_ListLanguages gh username repoName with
    | Err e => (repoURLs, log ++ [PrintListError username e])
    | Ok languages =>
        match languages !! "Go" with
        | None => (repoURLs, log ++ [PrintNotGo username repoName])
        | Some _ => (repoURLs ++ [SVNURL repo], log)
        end
    end.

Definition scan_user (gh : GitHub) (searchRepos : gset string)
    (st : list string * list event) (username : string)
  : list string * list event :=
  match Repositories_List gh username with
  | Err e => (st.1, st.2 ++ [PrintListError username e])
  | Ok repos => fold_left (consider_repo gh searchRepos username) repos st
  end.

(** The returned error is always [nil]; the result is the list of URLs and
    what was printed. *)
Definition getPotentialRepos (gh : GitHub) (search : list string)
  : list string * list event :=
  let '(repoURLs, searchRepos, usernames) :=
    fold_left sort_entry search ([], ∅, []) in
  fold_left (scan_user gh searchRepos) usernames (repoURLs, []).

(** The enumeration in closed form: which search entries name a
    repository, and which repositories the scan of an owner includes. *)
Definition is_explicit (v : string) : bool := strings.ContainsRune v "/".

Definition is_owner (v : string) : bool := negb (is_explicit v).

Definition explicit_url (v : string) : string := "https://github.com/" +:+ v.

Definition has_go (gh : GitHub) (username : string) (repo : Repository) : bool :=
  String.eqb (Language repo) "Go"
  || match Repositories_ListLanguages gh username (Name repo) with
     | Ok languages => bool_decide (is_Some (languages !! "Go"))
     | Err _ => false
     end.

Definition scan_includes (gh : GitHub) (searchRepos : gset string)
    (username : string) (repo : Repository) : bool :=
  negb (bool_decide (username +:+ "/" +:+ Name repo ∈ searchRepos))
  && negb (Fork repo)
  && has_go gh username repo.

Definition scanned_urls (gh : GitHub) (searchRepos : gset string)
    (username : string) : list string :=
  match Repositories_List gh username with
  | Err _ => []
  | Ok repos => map SVNURL (List.filter (scan_includes gh searchRepos username) repos)
  end.

(** *** [getVanityPackages] *)

Inductive line_result : Set :=
| Skipped
| Matched (v : vanityImport)
| Failed (e : error)
| Crashed (msg : string).

(** The cutset of the [TrimLeft] call: the slash and the backslash. *)
Definition separators : string := "/\".

(** The body of the scanner loop for one line of [go list]. *)
Definition scan_line (env : RepoEnv) (tmpDir url base line : string)
  : line_result :=
  if negb (strings.HasPrefix line base) then Skipped
  else
    let s := strings.Split line ":" in
    match index_at s 0, index_at s 1 with
    | Returns importPath, Returns s1 =>
        match EvalSymlinks env s1 with
        | Err e => Failed e
        | Ok dir =>
            let pathLen :=
              if negb (String.eqb dir tmpDir)
              then
                let dir := filepath.ToSlash
                             (strings.TrimLeft (strings.TrimPrefix dir tmpDir) separators) in
                len (strings.Split dir "/")
              else 0 in
            Matched (mkVanityImport importPath url pathLen)
        end
    | Panics msg, _ | _, Panics msg => Crashed msg
    end.

Fixpoint scan_lines (env : RepoEnv) (tmpDir url base : string)
    (lines : list string) (imports : list vanityImport)
  : outcome (result (list vanityImport)) :=
  match lines with
  | [] => Returns (Ok imports)
  | line :: rest =>
      match scan_line env tmpDir url base line with
      | Skipped => scan_lines env tmpDir url base rest imports
      | Matched v => scan_lines env tmpDir url base rest (imports ++ [v])
      | Failed e => Returns (Err e)
      | Crashed msg => Panics msg
      end
  end.

(** The packages that the lines of a listing match, in order. *)
Definition matched_of (env : RepoEnv) (tmpDir url base : string)
    (lines : list string) : list vanityImport :=
  omap (fun line =>
          match scan_line env tmpDir url base line with
          | Matched v => Some v
          | _ => None
          end) lines.

(** A path that does not start with a separator. *)
Definition is_relative (rel : string) : bool :=
  match rel with
  | EmptyString => true
  | String c _ => negb (one_of separators c)
  end.

(** The search list of the specification's example: [alice] owns a Go
    repository, a fork and a repository that is also listed by name. *)
Definition example_github : GitHub :=
  mkGitHub
    (fun username =>
       if String.eqb username "alice"
       then Ok [ mkRepository "tool" false "Go" "https://github.com/alice/tool";
                 mkRepository "forkrepo" true "Go" "https://github.com/alice/forkrepo";
                 mkRepository "listed" false "Go" "https://github.com/alice/listed" ]
       else Err "404 Not Found")
    (fun _ _ => Ok ∅).

Definition example_search : list string :=
  [ "alice"; "alice/listed"; "bob/explicit-repo" ].

(** Example worlds: a repository with a package at its root, one in a
    sub-directory and one without an import comment. *)
Definition example_env : RepoEnv :=
  mkRepoEnv (Ok "/tmp/govanity1") (fun path => Ok path) None None None
    [ "pack.ag/tftp:/tmp/govanity1";
      "pack.ag/tftp/netascii:/tmp/govanity1/netascii";
      ":/tmp/govanity1/internal/test" ]
    None None.

(** A repository whose root package has the import comment [pack.ag]. *)
Definition root_env : RepoEnv :=
  mkRepoEnv (Ok "/tmp/govanity2") (fun path => Ok path) None None None
    [ "pack.ag:/tmp/govanity2" ] None None.

(** A repository whose only package has the import comment [pack.ag] and
    lies two directories below the root. *)
Definition nested_env : RepoEnv :=
  mkRepoEnv (Ok "/tmp/govanity4") (fun path => Ok path) None None None
    [ "pack.ag:/tmp/govanity4/cmd/tool" ] None None.

Definition check (e : option error) {A} (k : outcome (result A))
  : outcome (result A) :=
  match e with
  | Some err => Returns (Err err)
  | None => k
  end.

Definition getVanityPackages (env : RepoEnv) (url base : string)
  : outcome (result (list vanityImport)) :=
  match TempDir env with
  | Err e => Returns (Err e)
  | Ok tmpDir0 =>
      match EvalSymlinks env tmpDir0 with
      | Err e => Returns (Err e)
      | Ok tmpDir =>
          check (git_clone env) (
          check (StdoutPipe env) (
          check (Start env) (
          match scan_lines env tmpDir url base (scanned env) [] with
          | Returns (Ok imports) =>
              check (scanner_Err env) (
              check (Wait env) (
              Returns (Ok imports)))
          | other => other
          end)))
      end
  end.

(** *** [run] and [main] *)

(** What [flag.Parse] does with the command line, as of Go 1.21.  The
    flag set of the program is the default one, whose error handling is
    [ExitOnError]: every flag is parsed; or [-h] or [-help], which the
    program does not define, is met (usage text, exit code 0); or a flag
    is undefined or its value malformed (message, usage text, exit code
    2). *)
Inductive command_line : Set :=
| FlagsParsed
| FlagsHelp
| FlagsRejected.

Record World := mkWorld {
  os_Args : nat;
  flag_Parse : command_line;
  flags : config;
  github : GitHub;
  repo_env : string -> RepoEnv;
  fs : FileSystem
}.

Inductive status : Type :=
| Returned (err : option error)
| Exited (code : Z)
| Panicked (msg : string).

(** [configuration]: [os_Args] is [len(os.Args)], [flag_Parse] what
    [flag.Parse] makes of the command line, and [flags] the settings once
    the environment and the flags are read.  The left results are the
    exits of the process inside the function: code 2 after the usage text
    when there is no argument, code 0 when [flag.Parse] meets [-h] or
    [-help], code 2 when it meets a flag that is undefined or malformed. *)
Definition configuration (w : World) : Z + config * option error :=
  if (os_Args w <? 2)%nat then inl 2
  else
    match flag_Parse w with
    | FlagsHelp => inl 0
    | FlagsRejected => inl 2
    | FlagsParsed => inr (config_Parse (flags w))
    end.

(** The body of the loop over the repositories: the packages collected
    so far, or the panic of the extraction, and in both cases what has
    been printed up to there. *)
Definition pull (w : World) (base : string)
    (st : list vanityImport * list event) (repo : string)
  : outcome (list vanityImport) * list event :=
  let '(imports, log) := st in
  let log := log ++ [PrintPulling repo] in
  match getVanityPackages (repo_env w repo) repo base with
  | Panics msg => (Panics msg, log)
  | Returns (Err e) => (Returns imports, log ++ [PrintError e])
  | Returns (Ok packages) =>
      (Returns (imports ++ packages),
       log ++ map (fun pkg => PrintFound (Import pkg) (RepoURL pkg)) packages
           ++ [PrintCount (len packages)])
  end.

Fixpoint pull_all (w : World) (base : string) (repoURLs : list string)
    (st : list vanityImport * list event)
  : outcome (list vanityImport) * list event :=
  match repoURLs with
  | [] => (Returns st.1, st.2)
  | repo :: rest =>
      match pull w base st repo with
      | (Panics msg, log) => (Panics msg, log)
      | (Returns imports, log) => pull_all w base rest (imports, log)
      end
  end.

(** The body of the loop over the matched packages.  [tmpl.Execute] calls
    [ImportPrefix]; the template package turns a panic of that call into
    the error that [Execute] returns. *)
Definition emit (w : World) (cfg : config) (log : list event)
    (imprt : vanityImport) : list event :=
  let htmlPath := htmlPath imprt (prefix cfg) (out cfg) in
  let log := log ++ [MkdirAll (filepath.Dir htmlPath)] in
  match os_Create (fs w) htmlPath with
  | Some e => log ++ [PrintCreateError htmlPath e]
  | None =>
      let log := log ++ [Created htmlPath] in
      match ImportPrefix imprt with
      | Panics msg =>
          log ++ [PrintWriteError htmlPath ("error calling ImportPrefix: " +:+ msg)]
      | Returns importPrefix =>
          match file_Write (fs w) htmlPath with
          | Some e => log ++ [PrintWriteError htmlPath e]
          | None => log ++ [Rendered htmlPath importPrefix (RepoURL imprt)]
          end
      end
  end.

Definition newline : string := String (ascii_of_N 10) EmptyString.

Definition run (w : World) : status * list event :=
  match configuration w with
  | inl code => (Exited code, [])
  | inr (_, Some err) => (Returned (Some err), [])
  | inr (cfg, None) =>
      let log :=
        [PrintConfig (prefix cfg) (searchList cfg) (out cfg)
                     (url.nonempty (githubToken cfg)) (writeCNAME cfg)] in
      let '(repoURLs, printed) := getPotentialRepos (github w) (searchList cfg) in
      let log := log ++ printed in
      match pull_all w (prefix cfg) repoURLs ([], log) with
      | (Panics msg, log) => (Panicked msg, log)
      | (Returns imports, log) =>
          let log := fold_left (emit w cfg) imports log in
          if writeCNAME cfg then
            match prefixURL cfg with
            | None => (Panicked "runtime error: invalid memory address or nil pointer dereference", log)
            | Some u =>
                let path := filepath.Join [out cfg; "CNAME"] in
                match WriteFile (fs w) path (url.Host u +:+ newline) with
                | Some err => (Returned (Some ("writing CNAME file: " +:+ err)), log)
                | None => (Returned None, log ++ [Wrote path (url.Host u +:+ newline)])
                end
            end
          else (Returned None, log)
      end
  end.

(** [main]: the exit code of the process. *)
Definition main (w : World) : Z :=
  match (run w).1 with
  | Returned None => 0
  | Returned (Some _) => 1
  | Exited code => code
  | Panicked _ => 2
  end.


(** *** Reading a run *)

(** The extraction of one repository in a world, what the extractions of
    a list of repositories return, and the errors they fail with. *)
Definition extraction (w : World) (base repo : string)
  : outcome (result (list vanityImport)) :=
  getVanityPackages (repo_env w repo) repo base.

Definition extracted (w : World) (base : string) (repoURLs : list string)
  : list vanityImport :=
  flat_map (fun repo =>
              match extraction w base repo with
              | Returns (Ok packages) => packages
              | _ => []
              end) repoURLs.

Definition failures (w : World) (base : string) (repoURLs : list string)
  : list error :=
  omap (fun repo =>
          match extraction w base repo with
          | Returns (Err e) => Some e
          | _ => None
          end) repoURLs.

(** The repositories a log announces, the extraction errors it reports and
    the output files whose creation it records, each in order. *)
Definition pulled_event (ev : event) : option string :=
  match ev with PrintPulling repo => Some repo | _ => None end.

Definition reported_event (ev : event) : option error :=
  match ev with PrintError e => Some e | _ => None end.

Definition attempted_event (ev : event) : option string :=
  match ev with
  | Created path | PrintCreateError path _ => Some path
  | _ => None
  end.

Definition rendered_event (ev : event) : option (string * string * string) :=
  match ev with
  | Rendered path importPrefix repoURL => Some (path, importPrefix, repoURL)
  | _ => None
  end.

Definition pulled (log : list event) : list string := omap pulled_event log.
Definition reported (log : list event) : list error := omap reported_event log.
Definition attempted (log : list event) : list string := omap attempted_event log.
Definition rendered (log : list event) : list (string * string * string) :=
  omap rendered_event log.



(** The events of the enumeration. *)
Definition enum_event (ev : event) : bool :=
  match ev with
  | PrintListError _ _ | PrintExplicit _ _ | PrintFork _ _ | PrintNotGo _ _ => true
  | _ => false
  end.


(** A world with three repositories; the second one cannot be cloned and
    the alias file is [cname]. *)
Definition broken_env : RepoEnv :=
  mkRepoEnv (Ok "/tmp/govanity3") (fun path => Ok path)
    (Some "exit status 128") None None [] None None.

Definition example_world (cname : option error) : World :=
  mkWorld 2 FlagsParsed
    (mkConfig "pack.ag" None "o/one, o/two, o/three" [] "site" EmptyString true)
    example_github
    (fun repo =>
       if String.eqb repo "https://github.com/o/one" then example_env
       else if String.eqb repo "https://github.com/o/two" then broken_env
       else root_env)
    (mkFileSystem (fun _ => None) (fun _ => None) (fun _ _ => cname)).

Definition example_config : config :=
  (config_Parse (flags (example_world None))).1.

Definition example_repos : list string :=
  [ "https://github.com/o/one"; "https://github.com/o/two";
    "https://github.com/o/three" ].

(** *** Further readings of the program *)

(** The file that [ioutil.WriteFile] writes, as a log records it. *)
Definition wrote_event (ev : event) : option (string * string) :=
  match ev with
  | Wrote path content => Some (path, content)
  | _ => None
  end.

Definition wrote (log : list event) : list (string * string) :=
  omap wrote_event log.

(** The bytes of a host name: letters, digits and [-._~]. *)
Definition hostname_byte (c : ascii) : bool := is_alnum c || one_of "-._~" c.

(** [s[0]] of a line of the listing, and the lines a prefix selects. *)
Definition first_field (line : string) : string :=
  hd EmptyString (strings.Split line ":").

Definition matching (base : string) (lines : list string) : list string :=
  List.filter (fun line => strings.HasPrefix line base) lines.

(** The entries that [config.Parse] appends for a search setting. *)
Definition search_entries (search : string) : list string :=
  List.filter url.nonempty (map strings.TrimSpace (strings.Split search ",")).

(** A GitHub on which every call fails. *)
Definition failing_github : GitHub :=
  mkGitHub (fun _ => Err "403 rate limit exceeded")
           (fun _ _ => Err "403 rate limit exceeded").

(** A repository whose listing has a line without a colon. *)
Definition crashing_env : RepoEnv :=
  mkRepoEnv (Ok "/tmp/govanity5") (fun path => Ok path) None None None
    [ "pack.ag/tftp" ] None None.

(** A world with three repositories: the first one has two packages, the
    second one cannot be cloned, and the listing of the third one has a
    line without a colon.  The alias file can be written. *)
Definition mixed_world : World :=
  mkWorld 2 FlagsParsed
    (mkConfig "pack.ag" None "o/one, o/two, o/three" [] "site" EmptyString true)
    example_github
    (fun repo =>
       if String.eqb repo "https://github.com/o/one" then example_env
       else if String.eqb repo "https://github.com/o/two" then broken_env
       else crashing_env)
    (mkFileSystem (fun _ => None) (fun _ => None) (fun _ _ => None)).

(** A repository with a directory whose name is a backslash, and a
    listing that names a directory outside the temporary one. *)
Definition backslash_env : RepoEnv :=
  mkRepoEnv (Ok "/tmp/govanity6") (fun path => Ok path) None None None
    [ "pack.ag/x/y:/tmp/govanity6/\/y" ] None None.

Definition outside_env : RepoEnv :=
  mkRepoEnv (Ok "/tmp/govanity7") (fun path => Ok path) None None None
    [ "pack.ag/x:/srv/x" ] None None.

(** *** The written form of an import path *)

(** A byte that a path holds unescaped: a letter, a digit or one of
    [-_.~$&+,/:;=@]. *)
Definition path_byte (c : ascii) : bool :=
  negb (url.shouldEscape c url.encodePath).

Definition unescaped (p : string) : bool := strings.all_bytes path_byte p.

(** Whether the first segment of a path is without a colon. *)
Definition first_segment_plain (p : string) : bool :=
  negb (strings.ContainsByte (strings.Cut p "/").1.1 ":").

(** A path that is empty or starts with a slash. *)
Definition rooted_or_empty (p : string) : bool :=
  negb (url.nonempty p) || strings.HasPrefix p "/".

(** A scheme in lower case: a letter, then letters, digits and [+-.]. *)
Definition scheme_byte (c : ascii) : bool :=
  is_lower c || is_digit c || one_of "+-." c.

Definition is_scheme (s : string) : bool :=
  match s with
  | EmptyString => false
  | String c s' => is_lower c && strings.all_bytes scheme_byte s'
  end.

(** A host as [parseHost] takes it without a change: not empty, of
    letters, digits, [-._~] and colons, and what starts at its last colon
    is a port. *)
Definition host_byte (c : ascii) : bool := hostname_byte c || Ascii.eqb c ":".

Definition is_host (h : string) : bool :=
  url.nonempty h && strings.all_bytes host_byte h
  && match strings.LastIndexByte h ":" with
     | Some i => url.validOptionalPort (strings.from i h)
     | None => true
     end.

(** An import path written as an optional scheme, an optional host and a
    path. *)
Definition scheme_text (scheme : option string) : string :=
  match scheme with
  | Some s => s +:+ ":"
  | None => EmptyString
  end.

Definition authority_text (host : option string) : string :=
  match host with
  | Some h => "//" +:+ h
  | None => EmptyString
  end.

Definition import_text (scheme host : option string) (path : string) : string :=
  scheme_text scheme +:+ authority_text host +:+ path.

(** The import paths of that form whose parts [url.Parse] takes as they
    are: after a host the path is empty or starts with a slash; without a
    host it does not start with two slashes, and after a scheme it starts
    with one. *)
Definition import_form (scheme host : option string) (path : string) : bool :=
  match scheme with
  | Some s => is_scheme s
  | None => true
  end
  && match host with
     | Some h => is_host h && rooted_or_empty path
     | None =>
         negb (strings.HasPrefix path "//")
         && match scheme with
            | Some _ => strings.HasPrefix path "/"
            | None => true
            end
     end
  && unescaped path && first_segment_plain path.

Definition import_url (scheme host : option string) (path : string) : url.URL :=
  url.mkURL (default EmptyString scheme) EmptyString None
            (default EmptyString host) path EmptyString
            match scheme, host with
            | Some _, None => true
            | _, _ => false
            end
            false EmptyString EmptyString EmptyString.

(** What [URL.String] writes before and after the path of a URL that is
    not opaque. *)
Definition URL_head (u : url.URL) : string :=
  let buf0 :=
    if url.nonempty (url.Scheme u) then url.Scheme u +:+ ":" else EmptyString in
  if url.nonempty (url.Scheme u) || url.nonempty (url.Host u)
     || bool_decide (url.User u <> None)
  then
    if url.OmitHost u && negb (url.nonempty (url.Host u))
       && bool_decide (url.User u = None)
    then buf0
    else
      buf0 +:+ "//"
      +:+ (match url.User u with
           | Some ui => url.Userinfo_String ui +:+ "@"
           | None => EmptyString
           end)
      +:+ (if url.nonempty (url.Host u) then url.escape (url.Host u) url.encodeHost
           else EmptyString)
  else buf0.

Definition URL_tail (u : url.URL) : string :=
  (if url.ForceQuery u || url.nonempty (url.RawQuery u)
   then "?" +:+ url.RawQuery u else EmptyString)
  +:+ (if url.nonempty (url.Fragment u) then "#" +:+ url.EscapedFragment u
       else EmptyString).

(** The URLs whose path can be cut without a change to what is written
    around it: not opaque, the path without a raw form and of unescaped
    bytes, an authority that is written whatever the path is, and after a
    host a path that is empty or starts with a slash. *)
Definition path_trimmable (u : url.URL) : bool :=
  negb (url.nonempty (url.Opaque u)) && negb (url.nonempty (url.RawPath u))
  && (negb (url.nonempty (url.Scheme u)) || url.nonempty (url.Host u)
      || bool_decide (url.User u <> None) || url.OmitHost u)
  && unescaped (url.Path u) && first_segment_plain (url.Path u)
  && (negb (url.nonempty (url.Host u)) || rooted_or_empty (url.Path u)).

(** *** The elements of an output path *)

(** The path elements that [filepath.Clean] keeps of a directory followed
    by a rest, when none of them is [..]: the ones that are neither empty
    nor [.]. *)
Definition kept_elements (dir rest : string) : list string :=
  List.filter filepath.normal_elem
              (strings.Split dir "/" ++ strings.Split rest "/").

(** The kept elements with one slash between them, after a slash when the
    first byte of the directory, or of the rest when the directory is
    empty, is one; nothing when both are empty, and [.] when no element
    is kept and there is no slash in front. *)
Definition joined_elements (dir rest : string) : string :=
  if negb (url.nonempty (dir +:+ rest)) then EmptyString
  else if strings.HasPrefix (dir +:+ rest) "/"
  then "/" +:+ strings.Join (kept_elements dir rest) "/"
  else match kept_elements dir rest with
       | [] => "."
       | kept => strings.Join kept "/"
       end.

(** * Properties *)

(** ** Strings *)

Section StringFacts.
Import strings.

Lemma append_nil_l (s : string) : EmptyString +:+ s = s.
Proof. reflexivity. Qed.

Lemma append_cons (c : ascii) (s t : string) :
  String c s +:+ t = String c (s +:+ t).
Proof. reflexivity. Qed.

Lemma append_empty_r (s : string) : s +:+ EmptyString = s.
Proof.
  induction s as [|c s IH]; [reflexivity |].
  now rewrite append_cons, IH.
Qed.

Lemma append_assoc (a b c : string) : (a +:+ b) +:+ c = a +:+ b +:+ c.
Proof.
  induction a as [|x a IH]; [reflexivity |].
  now rewrite !append_cons, IH.
Qed.

Lemma HasPrefix_app (p r : string) : HasPrefix (p +:+ r) p = true.
Proof.
  induction p as [|c p IH]; [reflexivity |].
  rewrite append_cons. simpl. now rewrite Ascii.eqb_refl.
Qed.

Lemma from_app (p r : string) : from (String.length p) (p +:+ r) = r.
Proof.
  induction p as [|c p IH]; [now destruct r |].
  rewrite append_cons. exact IH.
Qed.

Lemma TrimPrefix_app (p r : string) : TrimPrefix (p +:+ r) p = r.
Proof. unfold TrimPrefix. now rewrite HasPrefix_app, from_app. Qed.

Lemma HasPrefix_split (s p : string) :
  HasPrefix s p = true -> s = p +:+ from (String.length p) s.
Proof.
  revert s; induction p as [|c p IH]; intros [|x s]; simpl; try easy.
  destruct (Ascii.eqb_spec x c) as [->|]; [|easy].
  intros H. now rewrite append_cons, <- (IH s H).
Qed.

Lemma HasPrefix_true_iff (s p : string) :
  HasPrefix s p = true <-> exists r, s = p +:+ r.
Proof.
  split.
  - intros H. eexists. now apply HasPrefix_split.
  - intros [r ->]. apply HasPrefix_app.
Qed.

(** *** [Split] and [Join] *)

Lemma Split_not_nil (s : string) (sep : ascii) : Split s sep <> [].
Proof.
  destruct s as [|c s]; simpl; [easy |].
  destruct (Ascii.eqb c sep); [easy |].
  now destruct (Split s sep).
Qed.

Lemma Split_length_pos (s : string) (sep : ascii) : (1 <= length (Split s sep))%nat.
Proof.
  pose proof (Split_not_nil s sep) as H.
  destruct (Split s sep); [easy | simpl; lia].
Qed.

Lemma Join_cons (e : string) (rest : list string) (sep : string) :
  rest <> [] -> Join (e :: rest) sep = e +:+ sep +:+ Join rest sep.
Proof. now destruct rest. Qed.

Lemma Join_Split (s : string) (sep : ascii) :
  Join (Split s sep) (String sep EmptyString) = s.
Proof.
  induction s as [|c s IH]; simpl; [reflexivity |].
  destruct (Ascii.eqb_spec c sep) as [->|Hne].
  - rewrite Join_cons by apply Split_not_nil.
    now rewrite append_nil_l, append_cons, append_nil_l, IH.
  - pose proof (Split_not_nil s sep) as Hnil.
    destruct (Split s sep) as [|hd tl]; [easy |].
    destruct tl as [|e tl]; simpl in *; [now rewrite IH |].
    now rewrite append_cons, IH.
Qed.

(** *** Strings over a class of bytes *)

Lemma all_bytes_app (P : ascii -> bool) (a b : string) :
  all_bytes P (a +:+ b) = all_bytes P a && all_bytes P b.
Proof.
  induction a as [|c a IH]; [reflexivity |].
  rewrite append_cons. simpl. now rewrite IH, andb_assoc.
Qed.

Lemma all_bytes_Split (P : ascii -> bool) (s : string) (sep : ascii) :
  all_bytes P s = true -> Forall (fun e => all_bytes P e = true) (Split s sep).
Proof.
  induction s as [|c s IH]; simpl; intros H.
  - now repeat constructor.
  - apply andb_true_iff in H as [Hc Hs]. specialize (IH Hs).
    destruct (Ascii.eqb c sep); [now constructor |].
    destruct (Split s sep) as [|hd tl].
    + repeat constructor. simpl. now rewrite Hc.
    + inversion IH; subst. constructor; [simpl; now rewrite Hc | assumption].
Qed.

Lemma all_bytes_Join (P : ascii -> bool) (elems : list string) (sep : string) :
  all_bytes P sep = true ->
  Forall (fun e => all_bytes P e = true) elems ->
  all_bytes P (Join elems sep) = true.
Proof.
  intros Hsep H. induction H as [|e rest He Hrest IH]; [reflexivity |].
  destruct rest as [|e' rest]; [exact He |].
  rewrite Join_cons by easy.
  now rewrite !all_bytes_app, He, Hsep, IH.
Qed.

Lemma all_bytes_absent (P : ascii -> bool) (s : string) (c : ascii) :
  P c = false -> all_bytes P s = true -> ContainsByte s c = false.
Proof.
  intros Hc. induction s as [|x s IH]; simpl; [reflexivity |].
  intros H. apply andb_true_iff in H as [Hx Hs].
  rewrite (IH Hs), orb_false_r.
  destruct (Ascii.eqb_spec x c) as [->|]; [congruence | reflexivity].
Qed.

Lemma Cut_absent (s : string) (sep : ascii) :
  ContainsByte s sep = false -> Cut s sep = (s, EmptyString, false).
Proof.
  induction s as [|c s IH]; simpl; [reflexivity |].
  intros H. apply orb_false_iff in H as [Hc Hs].
  now rewrite Hc, (IH Hs).
Qed.

Lemma CountByte_absent (s : string) (c : ascii) :
  ContainsByte s c = false -> CountByte s c = O.
Proof.
  induction s as [|x s IH]; simpl; [reflexivity |].
  intros H. apply orb_false_iff in H as [Hx Hs].
  now rewrite Hx, (IH Hs).
Qed.

Lemma Cut_before_absent (s : string) (sep c : ascii) :
  ContainsByte s c = false -> ContainsByte (Cut s sep).1.1 c = false.
Proof.
  induction s as [|x s IH]; simpl; [reflexivity |].
  intros H. apply orb_false_iff in H as [Hx Hs].
  destruct (Ascii.eqb x sep); [reflexivity |].
  specialize (IH Hs). destruct (Cut s sep) as [[before after] found].
  simpl in *. now rewrite Hx, IH.
Qed.

Lemma length_append (s t : string) :
  String.length (s +:+ t) = (String.length s + String.length t)%nat.
Proof.
  induction s as [|c s IH]; [reflexivity |].
  rewrite append_cons. simpl. now rewrite IH.
Qed.

Lemma append_not_self (s t : string) (c : ascii) : s +:+ String c t <> s.
Proof.
  intros H. apply (f_equal String.length) in H.
  rewrite length_append in H. simpl in H. lia.
Qed.

Lemma Split_app (a b : string) (sep : ascii) :
  Split (a +:+ String sep b) sep = Split a sep ++ Split b sep.
Proof.
  induction a as [|c a IH].
  - rewrite append_nil_l. cbn [Split]. now rewrite Ascii.eqb_refl.
  - rewrite append_cons. cbn [Split]. rewrite IH.
    destruct (Ascii.eqb c sep); [reflexivity |].
    pose proof (Split_not_nil a sep) as Hnil.
    now destruct (Split a sep).
Qed.

Lemma Split_no_sep (e : string) (sep : ascii) :
  ContainsByte e sep = false -> Split e sep = [e].
Proof.
  induction e as [|c e IH]; [reflexivity |].
  cbn [ContainsByte Split]. intros H. apply orb_false_iff in H as [Hc He].
  now rewrite Hc, (IH He).
Qed.

Lemma Split_Join (es : list string) (sep : ascii) :
  Forall (fun e => ContainsByte e sep = false) es -> es <> [] ->
  Split (Join es (String sep EmptyString)) sep = es.
Proof.
  induction 1 as [|e rest He Hrest IH]; [easy |]. intros _.
  destruct rest as [|e' rest]; [now apply Split_no_sep |].
  rewrite Join_cons by easy.
  rewrite append_cons, append_nil_l, Split_app, IH by easy.
  now rewrite Split_no_sep.
Qed.

Lemma Join_app (a b : list string) (sep : string) :
  a <> [] -> b <> [] ->
  Join (a ++ b) sep = Join a sep +:+ sep +:+ Join b sep.
Proof.
  intros Ha Hb. induction a as [|e a IH]; [easy |].
  destruct a as [|e' a].
  - simpl app. now rewrite Join_cons.
  - change ((e :: e' :: a) ++ b) with (e :: (e' :: a) ++ b).
    rewrite Join_cons by easy. rewrite IH by easy.
    rewrite (Join_cons e (e' :: a)) by easy.
    now rewrite !append_assoc.
Qed.

Lemma Join_take_prefix (elems : list string) (sep : string) :
  forall k, exists r, Join elems sep = Join (take k elems) sep +:+ r.
Proof.
  induction elems as [|e rest IH]; intros k.
  - exists EmptyString. now destruct k.
  - destruct k as [|k]; [now eexists |].
    cbn [take]. destruct rest as [|e' rest].
    + exists EmptyString. rewrite take_nil. cbn [Join]. now rewrite append_empty_r.
    + rewrite Join_cons by easy. destruct (IH k) as [r Hr].
      destruct k as [|k].
      * cbn [take Join]. now eexists.
      * cbn [take] in *. rewrite (Join_cons e (e' :: take k rest)) by easy.
        exists r. rewrite Hr. now rewrite !append_assoc.
Qed.

Lemma Split_elems_no_sep (s : string) (sep : ascii) :
  Forall (fun e => ContainsByte e sep = false) (Split s sep).
Proof.
  induction s as [|c s IH]; [now repeat constructor |].
  cbn [Split]. destruct (Ascii.eqb c sep) eqn:Hc; [now constructor |].
  destruct (Split s sep) as [|hd tl]; [now repeat constructor; cbn; rewrite Hc |].
  inversion IH; subst. constructor; [|assumption].
  cbn [ContainsByte]. now rewrite Hc.
Qed.

Lemma Split_length (s : string) (sep : ascii) :
  length (Split s sep) = S (CountByte s sep).
Proof.
  induction s as [|c s IH]; [reflexivity |].
  cbn [Split CountByte]. destruct (Ascii.eqb c sep).
  - cbn [length]. now rewrite IH.
  - pose proof (Split_not_nil s sep).
    destruct (Split s sep); [easy |]. cbn [length] in *. now rewrite IH.
Qed.

Lemma CountByte_pos (s : string) (c : ascii) :
  ContainsByte s c = true -> (1 <= CountByte s c)%nat.
Proof.
  induction s as [|x s IH]; [discriminate |].
  cbn [ContainsByte CountByte]. destruct (Ascii.eqb x c); [lia |].
  cbn [orb]. intros H. specialize (IH H). lia.
Qed.

Lemma LastIndexByte_absent (s : string) (c : ascii) :
  ContainsByte s c = false -> LastIndexByte s c = None.
Proof.
  induction s as [|x s IH]; [reflexivity |].
  cbn [ContainsByte LastIndexByte]. intros H.
  apply orb_false_iff in H as [Hx Hs]. now rewrite (IH Hs), Hx.
Qed.

Lemma HasPrefix_byte_absent (s : string) (c : ascii) :
  ContainsByte s c = false -> HasPrefix s (String c EmptyString) = false.
Proof.
  destruct s as [|x s]; [reflexivity |].
  cbn [ContainsByte HasPrefix]. intros H.
  apply orb_false_iff in H as [Hx _]. now rewrite Hx.
Qed.

Lemma Index_byte (h t : string) (c : ascii) :
  ContainsByte h c = false ->
  Index (h +:+ String c t) (String c EmptyString) = Some (String.length h).
Proof.
  induction h as [|x h IH].
  - intros _. rewrite append_nil_l. cbn [Index HasPrefix].
    now rewrite Ascii.eqb_refl.
  - cbn [ContainsByte]. intros H. apply orb_false_iff in H as [Hx Hh].
    rewrite append_cons. cbn [Index HasPrefix]. rewrite Hx.
    now rewrite (IH Hh).
Qed.

Lemma Index_byte_absent (s : string) (c : ascii) :
  ContainsByte s c = false -> Index s (String c EmptyString) = None.
Proof.
  induction s as [|x s IH]; [reflexivity |].
  cbn [ContainsByte]. intros H. apply orb_false_iff in H as [Hx Hs].
  cbn [Index HasPrefix]. now rewrite Hx, (IH Hs).
Qed.

Lemma upto_app (p r : string) : upto (String.length p) (p +:+ r) = p.
Proof.
  induction p as [|c p IH]; [now destruct r |].
  rewrite append_cons. cbn [String.length upto]. now rewrite IH.
Qed.

End StringFacts.

(** ** URLs of plain paths *)

Section PlainPaths.
Import strings url.

Lemma plain_byte_not (c x : ascii) :
  plain_byte x = false -> plain_byte c = true -> Ascii.eqb c x = false.
Proof.
  intros Hx Hc. destruct (Ascii.eqb_spec c x) as [->|]; congruence.
Qed.

Lemma plain_absent (s : string) (x : ascii) :
  plain_byte x = false -> plain s = true -> ContainsByte s x = false.
Proof. apply all_bytes_absent. Qed.

Lemma plain_byte_not_ctl (c : ascii) : plain_byte c = true -> is_ctl c = false.
Proof.
  destruct c as [[] [] [] [] [] [] [] []]; vm_compute; congruence.
Qed.

Lemma plain_byte_unescaped (c : ascii) :
  plain_byte c = true -> shouldEscape c encodePath = false.
Proof.
  unfold plain_byte. intros H. apply andb_true_iff in H as [H _].
  now apply negb_true_iff in H.
Qed.

Lemma plain_no_ctl (s : string) :
  plain s = true -> stringContainsCTLByte s = false.
Proof.
  induction s as [|c s IH]; simpl; [reflexivity |].
  intros H. apply andb_true_iff in H as [Hc Hs].
  now rewrite (plain_byte_not_ctl c Hc), (IH Hs).
Qed.

Lemma unescape_plain (s : string) :
  plain s = true -> unescape s encodePath = Ok s.
Proof.
  induction s as [|c s IH]; [reflexivity |].
  intros H. apply andb_true_iff in H as [Hc Hs]. fold (plain s) in Hs.
  cbn [unescape].
  rewrite (plain_byte_not c "%" eq_refl Hc).
  rewrite (IH Hs). cbn [is_host_mode is_query_mode].
  now destruct (Ascii.eqb c "+").
Qed.

Lemma escape_plain (s : string) :
  plain s = true -> escape s encodePath = s.
Proof.
  induction s as [|c s IH]; [reflexivity |].
  intros H. apply andb_true_iff in H as [Hc Hs]. fold (plain s) in Hs.
  cbn [escape]. now rewrite (plain_byte_unescaped c Hc), (IH Hs).
Qed.

Lemma getScheme_at_no_colon (i : nat) (rawURL rest : string) :
  ContainsByte rest ":" = false ->
  getScheme_at i rawURL rest = Ok (EmptyString, rawURL).
Proof.
  revert i. induction rest as [|c rest IH]; intros i H; [reflexivity |].
  simpl in H. apply orb_false_iff in H as [Hc Hrest].
  cbn [getScheme_at]. rewrite Hc.
  destruct (is_lower c || is_upper c); [now apply IH |].
  destruct (is_digit c || one_of "+-." c); [|reflexivity].
  destruct i; [reflexivity | now apply IH].
Qed.

Lemma setPath_plain (p : string) :
  plain p = true -> setPath p = Ok (p, EmptyString).
Proof.
  intros H. unfold setPath. rewrite (unescape_plain p H). cbn [bind].
  now rewrite (escape_plain p H), String.eqb_refl.
Qed.

Lemma plain_not_star (p : string) : plain p = true -> String.eqb p "*" = false.
Proof.
  intros H. destruct (String.eqb_spec p "*") as [->|]; [|reflexivity].
  vm_compute in H. discriminate.
Qed.

(** A plain path that does not open an authority parses to the URL that
    has this path and nothing else. *)
Lemma Parse_plain (P : string) :
  plain P = true -> HasPrefix P "//" = false ->
  Parse P = Ok (with_Path zero P).
Proof.
  intros Hplain Hauth. unfold Parse.
  rewrite (Cut_absent P "#") by now apply plain_absent.
  unfold parse.
  rewrite (plain_no_ctl P Hplain), andb_false_r, (plain_not_star P Hplain).
  unfold getScheme.
  rewrite (getScheme_at_no_colon O P P) by now apply plain_absent.
  cbn [bind ToLower nonempty].
  rewrite (CountByte_absent P "?") by now apply plain_absent.
  cbn [Nat.eqb]. rewrite andb_false_r.
  rewrite (Cut_absent P "?") by now apply plain_absent.
  rewrite !andb_false_r.
  rewrite (Cut_before_absent P "/" ":") by now apply plain_absent.
  rewrite andb_false_r, Hauth, andb_false_r. cbn [andb bind].
  rewrite (setPath_plain P Hplain). reflexivity.
Qed.

Lemma URL_String_plain (p : string) :
  plain p = true -> URL_String (with_Path zero p) = p.
Proof.
  intros H. unfold URL_String, EscapedPath. cbn.
  rewrite (plain_not_star p H), (escape_plain p H).
  rewrite andb_false_r.
  rewrite (Cut_before_absent p "/" ":") by now apply plain_absent.
  reflexivity.
Qed.

End PlainPaths.

(** ** Import paths with a scheme and a host *)

Section ImportForms.
Import strings url.

Lemma path_byte_not_ctl (c : ascii) : path_byte c = true -> is_ctl c = false.
Proof.
  destruct c as [[] [] [] [] [] [] [] []]; vm_compute; congruence.
Qed.

Lemma unescaped_absent (s : string) (x : ascii) :
  path_byte x = false -> unescaped s = true -> ContainsByte s x = false.
Proof. apply all_bytes_absent. Qed.

Lemma unescaped_app (a b : string) :
  unescaped (a +:+ b) = unescaped a && unescaped b.
Proof. apply all_bytes_app. Qed.

Lemma unescaped_no_ctl (s : string) :
  unescaped s = true -> stringContainsCTLByte s = false.
Proof.
  induction s as [|c s IH]; [reflexivity |].
  cbn [unescaped all_bytes stringContainsCTLByte]. intros H.
  apply andb_true_iff in H as [Hc Hs].
  now rewrite (path_byte_not_ctl c Hc), (IH Hs).
Qed.

Lemma unescape_unescaped (s : string) :
  unescaped s = true -> unescape s encodePath = Ok s.
Proof.
  induction s as [|c s IH]; [reflexivity |].
  intros H. apply andb_true_iff in H as [Hc Hs]. fold (unescaped s) in Hs.
  cbn [unescape].
  assert (Hpct : Ascii.eqb c "%" = false).
  { destruct (Ascii.eqb_spec c "%") as [->|]; [discriminate Hc | reflexivity]. }
  rewrite Hpct, (IH Hs). cbn [is_host_mode is_query_mode].
  now destruct (Ascii.eqb c "+").
Qed.

Lemma escape_unescaped (s : string) :
  unescaped s = true -> escape s encodePath = s.
Proof.
  induction s as [|c s IH]; [reflexivity |].
  intros H. apply andb_true_iff in H as [Hc Hs]. fold (unescaped s) in Hs.
  cbn [escape]. unfold path_byte in Hc. apply negb_true_iff in Hc.
  now rewrite Hc, (IH Hs).
Qed.

Lemma setPath_unescaped (p : string) :
  unescaped p = true -> setPath p = Ok (p, EmptyString).
Proof.
  intros H. unfold setPath. rewrite (unescape_unescaped p H). cbn [bind].
  now rewrite (escape_unescaped p H), String.eqb_refl.
Qed.

Lemma unescaped_not_star (p : string) :
  unescaped p = true -> String.eqb p "*" = false.
Proof.
  intros H. destruct (String.eqb_spec p "*") as [->|]; [|reflexivity].
  vm_compute in H. discriminate.
Qed.

(** *** The path that is left when segments are cut *)

Lemma unescaped_kept (p : string) (k : nat) :
  unescaped p = true -> unescaped (Join (take k (Split p "/")) "/") = true.
Proof.
  intros H. apply all_bytes_Join; [reflexivity |].
  apply Forall_take. now apply all_bytes_Split.
Qed.

Lemma Cut_first_segment (s : string) (sep : ascii) :
  (Cut s sep).1.1 = hd EmptyString (Split s sep).
Proof.
  induction s as [|c s IH]; [reflexivity |].
  cbn [Cut Split]. destruct (Ascii.eqb c sep); [reflexivity |].
  pose proof (Split_not_nil s sep) as Hnil.
  destruct (Cut s sep) as [[before after] found].
  destruct (Split s sep) as [|e es]; [easy |].
  cbn [fst hd] in *. now rewrite IH.
Qed.

Lemma Split_kept (p : string) (k : nat) :
  Split (Join (take (S k) (Split p "/")) "/") "/" = take (S k) (Split p "/").
Proof.
  apply Split_Join.
  - apply Forall_take, Split_elems_no_sep.
  - pose proof (Split_not_nil p "/"). now destruct (Split p "/").
Qed.

Lemma first_segment_kept (p : string) (k : nat) :
  first_segment_plain p = true ->
  first_segment_plain (Join (take k (Split p "/")) "/") = true.
Proof.
  destruct k as [|k]; [reflexivity |].
  unfold first_segment_plain. rewrite !Cut_first_segment, Split_kept.
  pose proof (Split_not_nil p "/"). now destruct (Split p "/").
Qed.

Lemma rooted_kept (p : string) (k : nat) :
  rooted_or_empty p = true ->
  rooted_or_empty (Join (take k (Split p "/")) "/") = true.
Proof.
  destruct p as [|c p]; [now destruct k as [|[|k]] |].
  unfold rooted_or_empty at 1. cbn [nonempty negb orb HasPrefix].
  destruct (Ascii.eqb_spec c "/") as [->|]; [|discriminate]. intros _.
  cbn [Split]. rewrite Ascii.eqb_refl.
  destruct k as [|k]; [reflexivity |]. cbn [take].
  destruct (take k (Split p "/")) as [|e es] eqn:Hk; [reflexivity |].
  rewrite Join_cons by easy. now rewrite append_nil_l, append_cons.
Qed.

(** *** Hosts *)

Lemma host_byte_path (c : ascii) : host_byte c = true -> path_byte c = true.
Proof.
  destruct c as [[] [] [] [] [] [] [] []]; vm_compute; congruence.
Qed.

Lemma host_byte_in_host (c : ascii) :
  host_byte c = true -> shouldEscape c encodeHost = false.
Proof.
  destruct c as [[] [] [] [] [] [] [] []]; vm_compute; congruence.
Qed.

Lemma host_unescaped (h : string) :
  all_bytes host_byte h = true -> unescaped h = true.
Proof.
  induction h as [|c h IH]; [reflexivity |].
  cbn [unescaped all_bytes]. intros H. apply andb_true_iff in H as [Hc Hh].
  fold (unescaped h). now rewrite (host_byte_path c Hc), (IH Hh).
Qed.

Lemma unescape_host (h : string) :
  all_bytes host_byte h = true -> unescape h encodeHost = Ok h.
Proof.
  induction h as [|c h IH]; [reflexivity |].
  cbn [all_bytes]. intros H. apply andb_true_iff in H as [Hc Hh].
  cbn [unescape].
  assert (Hpct : Ascii.eqb c "%" = false).
  { destruct (Ascii.eqb_spec c "%") as [->|]; [discriminate Hc | reflexivity]. }
  rewrite Hpct, (host_byte_in_host c Hc), (IH Hh), andb_false_r.
  cbn [is_query_mode]. now rewrite andb_false_r.
Qed.

Lemma escape_host (h : string) :
  all_bytes host_byte h = true -> escape h encodeHost = h.
Proof.
  induction h as [|c h IH]; [reflexivity |].
  cbn [all_bytes]. intros H. apply andb_true_iff in H as [Hc Hh].
  cbn [escape]. now rewrite (host_byte_in_host c Hc), (IH Hh).
Qed.

Lemma is_host_parts (h : string) :
  is_host h = true ->
  nonempty h = true /\ all_bytes host_byte h = true
  /\ match LastIndexByte h ":" with
     | Some i => validOptionalPort (from i h)
     | None => true
     end = true.
Proof.
  unfold is_host. intros H. apply andb_true_iff in H as [H Hport].
  now apply andb_true_iff in H as [Hne Hbytes].
Qed.

Lemma parseAuthority_host (h : string) :
  is_host h = true -> parseAuthority h = Ok (None, h).
Proof.
  intros H. apply is_host_parts in H as (_ & Hbytes & Hport).
  unfold parseAuthority, parseHost.
  rewrite (LastIndexByte_absent h "@") by now apply (all_bytes_absent host_byte).
  rewrite (HasPrefix_byte_absent h "[") by now apply (all_bytes_absent host_byte).
  destruct (LastIndexByte h ":") as [i|].
  - rewrite Hport. cbn [negb]. now rewrite (unescape_host h Hbytes).
  - now rewrite (unescape_host h Hbytes).
Qed.

(** *** Schemes *)

Lemma scheme_byte_path (c : ascii) : scheme_byte c = true -> path_byte c = true.
Proof.
  destruct c as [[] [] [] [] [] [] [] []]; vm_compute; congruence.
Qed.

Lemma scheme_byte_lower (c : ascii) : scheme_byte c = true -> lower_byte c = c.
Proof.
  destruct c as [[] [] [] [] [] [] [] []]; vm_compute; congruence.
Qed.

Lemma is_scheme_bytes (s : string) :
  is_scheme s = true -> nonempty s = true /\ all_bytes scheme_byte s = true.
Proof.
  destruct s as [|c s]; [discriminate |]. cbn [is_scheme all_bytes nonempty].
  intros H. apply andb_true_iff in H as [Hc Hs]. split; [reflexivity |].
  unfold scheme_byte at 1. now rewrite Hc, Hs.
Qed.

Lemma scheme_unescaped (s : string) :
  all_bytes scheme_byte s = true -> unescaped s = true.
Proof.
  induction s as [|c s IH]; [reflexivity |].
  cbn [unescaped all_bytes]. intros H. apply andb_true_iff in H as [Hc Hs].
  fold (unescaped s). now rewrite (scheme_byte_path c Hc), (IH Hs).
Qed.

Lemma ToLower_scheme (s : string) :
  all_bytes scheme_byte s = true -> ToLower s = s.
Proof.
  induction s as [|c s IH]; [reflexivity |].
  cbn [all_bytes ToLower]. intros H. apply andb_true_iff in H as [Hc Hs].
  now rewrite (scheme_byte_lower c Hc), (IH Hs).
Qed.

Lemma getScheme_at_colon (i : nat) (rawURL rest : string) :
  getScheme_at (S i) rawURL (String ":" rest) = Ok (upto (S i) rawURL, rest).
Proof. reflexivity. Qed.

Lemma getScheme_at_scheme (s rawURL rest : string) :
  all_bytes scheme_byte s = true ->
  forall i,
    getScheme_at (S i) rawURL (s +:+ ":" +:+ rest)
    = Ok (upto (S i + String.length s) rawURL, rest).
Proof.
  induction s as [|c s IH]; intros H i.
  - rewrite append_nil_l, append_cons, append_nil_l, getScheme_at_colon.
    cbn [String.length]. now rewrite Nat.add_0_r.
  - cbn [all_bytes] in H. apply andb_true_iff in H as [Hc Hs].
    rewrite append_cons. cbn [getScheme_at String.length].
    replace (S i + S (String.length s))%nat with (S (S i) + String.length s)%nat
      by lia.
    destruct (is_lower c || is_upper c) eqn:Hletter; [now apply IH |].
    apply orb_false_iff in Hletter as [Hlow _].
    unfold scheme_byte in Hc. rewrite Hlow in Hc. cbn [orb] in Hc.
    rewrite Hc. now apply IH.
Qed.

Lemma getScheme_scheme (s rest : string) :
  is_scheme s = true -> getScheme (s +:+ ":" +:+ rest) = Ok (s, rest).
Proof.
  destruct s as [|c s]; [discriminate |]. cbn [is_scheme]. intros H.
  apply andb_true_iff in H as [Hc Hs]. unfold getScheme.
  set (raw := String c s +:+ ":" +:+ rest).
  unfold raw at 2. rewrite append_cons. cbn [getScheme_at]. rewrite Hc.
  cbn [orb]. rewrite (getScheme_at_scheme s raw rest Hs).
  replace (1 + String.length s)%nat with (String.length (String c s))
    by reflexivity.
  unfold raw. now rewrite upto_app.
Qed.

(** A first segment without a colon holds no scheme. *)
Lemma getScheme_at_first_segment (rawURL rest : string) :
  first_segment_plain rest = true ->
  forall i, getScheme_at i rawURL rest = Ok (EmptyString, rawURL).
Proof.
  unfold first_segment_plain.
  induction rest as [|c rest IH]; intros H i; [reflexivity |].
  cbn [getScheme_at]. cbn [Cut] in H.
  destruct (Ascii.eqb_spec c "/") as [->|Hsep]; [reflexivity |].
  destruct (Cut rest "/") as [[before after] found]. cbn [fst] in *.
  cbn [ContainsByte] in H. apply negb_true_iff, orb_false_iff in H as [Hc Hrest].
  rewrite Hc.
  assert (Hnext : forall j, getScheme_at j rawURL rest = Ok (EmptyString, rawURL))
    by (apply IH; now rewrite Hrest).
  destruct (is_lower c || is_upper c); [apply Hnext |].
  destruct (is_digit c || one_of "+-." c); [|reflexivity].
  destruct i; [reflexivity | apply Hnext].
Qed.

(** *** What [url.Parse] makes of an import path of the form *)

Lemma import_form_parts (scheme host : option string) (path : string) :
  import_form scheme host path = true ->
  match scheme with Some s => is_scheme s | None => true end = true
  /\ match host with
     | Some h => is_host h && rooted_or_empty path
     | None =>
         negb (HasPrefix path "//")
         && match scheme with
            | Some _ => HasPrefix path "/"
            | None => true
            end
     end = true
  /\ unescaped path = true
  /\ first_segment_plain path = true.
Proof.
  unfold import_form. intros H.
  apply andb_true_iff in H as [H Hfirst]. apply andb_true_iff in H as [H Hpath].
  now apply andb_true_iff in H as [Hs Hh].
Qed.

Lemma import_text_unescaped (scheme host : option string) (path : string) :
  import_form scheme host path = true ->
  unescaped (import_text scheme host path) = true.
Proof.
  intros H. apply import_form_parts in H as (Hs & Hh & Hpath & _).
  unfold import_text. rewrite !unescaped_app, Hpath, andb_true_r.
  apply andb_true_iff. split.
  - destruct scheme as [s|]; [|reflexivity]. cbn [scheme_text].
    apply is_scheme_bytes in Hs as [_ Hs].
    now rewrite unescaped_app, (scheme_unescaped s Hs).
  - destruct host as [h|]; [|reflexivity]. cbn [authority_text].
    apply andb_true_iff in Hh as [Hh _].
    apply is_host_parts in Hh as (_ & Hh & _).
    now rewrite unescaped_app, (host_unescaped h Hh).
Qed.

(** The authority of a host followed by a path, cut at the first slash. *)
Lemma authority_split (h path : string) :
  all_bytes host_byte h = true -> rooted_or_empty path = true ->
  match Index (h +:+ path) "/" with
  | Some i => (upto i (h +:+ path), from i (h +:+ path))
  | None => (h +:+ path, EmptyString)
  end = (h, path).
Proof.
  intros Hh Hpath.
  assert (Hslash : ContainsByte h "/" = false)
    by now apply (all_bytes_absent host_byte).
  destruct path as [|c path].
  - rewrite append_empty_r. now rewrite (Index_byte_absent h "/").
  - unfold rooted_or_empty in Hpath. cbn [nonempty negb orb HasPrefix] in Hpath.
    destruct (Ascii.eqb_spec c "/") as [->|]; [|discriminate].
    rewrite (Index_byte h path "/") by assumption.
    now rewrite upto_app, from_app.
Qed.

Lemma host_not_slash (h t : string) :
  nonempty h = true -> all_bytes host_byte h = true ->
  HasPrefix (h +:+ t) "/" = false.
Proof.
  destruct h as [|c h]; [discriminate |]. intros _ H.
  cbn [all_bytes] in H. apply andb_true_iff in H as [Hc _].
  rewrite append_cons. cbn [HasPrefix].
  destruct (Ascii.eqb_spec c "/") as [->|]; [discriminate Hc | reflexivity].
Qed.

(** The rest of a URL after the scheme. *)
Lemma parse_rest (sch rest : string) (host : option string) (path : string) :
  rest = authority_text host +:+ path ->
  (nonempty sch = true -> HasPrefix rest "/" = true) ->
  match host with
  | Some h => is_host h && rooted_or_empty path
  | None => negb (HasPrefix path "//")
  end = true ->
  unescaped path = true -> first_segment_plain path = true ->
  unescaped rest = true ->
  (let '(rest1, rawQuery, forceQuery) :=
     if HasSuffix rest "?" && Nat.eqb (CountByte rest "?") 1
     then (upto (String.length rest - 1) rest, EmptyString, true)
     else let '(before, after, _) := Cut rest "?" in (before, after, false) in
   if negb (HasPrefix rest1 "/") && nonempty sch then
     Ok (mkURL sch rest1 None EmptyString EmptyString EmptyString
               false forceQuery rawQuery EmptyString EmptyString)
   else if negb (HasPrefix rest1 "/") && false then
     Err "invalid URI for request"
   else if negb (HasPrefix rest1 "/")
           && ContainsByte (Cut rest1 "/").1.1 ":" then
     Err "first path segment in URL cannot contain colon"
   else
     bind
       (if (nonempty sch || negb false && negb (HasPrefix rest1 "///"))
           && HasPrefix rest1 "//"
        then
          let authority0 := from 2 rest1 in
          let '(authority, rest') :=
            match Index authority0 "/" with
            | Some i => (upto i authority0, from i authority0)
            | None => (authority0, EmptyString)
            end in
          bind (parseAuthority authority) (fun '(user, host) =>
          Ok (user, host, rest', false))
        else if nonempty sch && HasPrefix rest1 "/"
        then Ok (None, EmptyString, rest1, true)
        else Ok (None, EmptyString, rest1, false))
       (fun '(user, host, rest', omitHost) =>
        bind (setPath rest') (fun '(path, rawPath) =>
        Ok (mkURL sch EmptyString user host path rawPath
                  omitHost forceQuery rawQuery EmptyString EmptyString))))
  = Ok (mkURL sch EmptyString None (default EmptyString host) path EmptyString
              (nonempty sch && negb (bool_decide (is_Some host)))
              false EmptyString EmptyString EmptyString).
Proof.
  intros Hrest Hrooted Hshape Hpath Hfirst Hbytes.
  rewrite (CountByte_absent rest "?") by now apply unescaped_absent.
  cbn [Nat.eqb]. rewrite andb_false_r.
  rewrite (Cut_absent rest "?") by now apply unescaped_absent.
  rewrite andb_false_r.
  destruct host as [h|]; cbn [authority_text from_option id] in *.
  - apply andb_true_iff in Hshape as [Hh Hroot].
    pose proof (parseAuthority_host h Hh) as Hauth.
    apply is_host_parts in Hh as (Hne & Hh & _).
    assert (Hone : HasPrefix rest "/" = true) by now rewrite Hrest.
    assert (Htwo : HasPrefix rest "//" = true)
      by (rewrite Hrest, append_assoc; apply HasPrefix_app).
    assert (Hthree : HasPrefix rest "///" = false).
    { rewrite Hrest, append_assoc, !append_cons, append_nil_l. cbn [HasPrefix].
      rewrite !Ascii.eqb_refl.
      pose proof (host_not_slash h path Hne Hh) as Hno.
      destruct (h +:+ path) as [|c t]; [reflexivity |]. cbn [HasPrefix] in Hno.
      now destruct (Ascii.eqb c "/"). }
    rewrite Hone, Htwo, Hthree. cbn [negb andb orb]. rewrite orb_true_r.
    replace (from 2 rest) with (h +:+ path)
      by (rewrite Hrest, append_assoc; reflexivity).
    rewrite (authority_split h path Hh Hroot), Hauth. cbn [bind andb].
    rewrite (setPath_unescaped path Hpath). cbn [bind].
    rewrite bool_decide_true by eauto. now rewrite andb_false_r.
  - rewrite append_nil_l in Hrest. subst rest.
    apply negb_true_iff in Hshape.
    unfold first_segment_plain in Hfirst. apply negb_true_iff in Hfirst.
    rewrite Hfirst, Hshape, !andb_false_r.
    rewrite bool_decide_false by (intros [x Hx]; discriminate).
    destruct (nonempty sch) eqn:Hsch.
    + rewrite (Hrooted eq_refl). cbn [negb andb bind].
      now rewrite (setPath_unescaped path Hpath).
    + rewrite andb_false_r. cbn [andb bind].
      now rewrite (setPath_unescaped path Hpath).
Qed.

Lemma Parse_import_form (scheme host : option string) (path : string) :
  import_form scheme host path = true ->
  Parse (import_text scheme host path) = Ok (import_url scheme host path).
Proof.
  intros Hform.
  pose proof (import_text_unescaped scheme host path Hform) as Hraw.
  apply import_form_parts in Hform as (Hs & Hh & Hpath & Hfirst).
  set (rest := authority_text host +:+ path).
  assert (Hrest : unescaped rest = true).
  { unfold import_text in Hraw. fold rest in Hraw.
    rewrite unescaped_app in Hraw. now apply andb_true_iff in Hraw as [_ Hraw]. }
  assert (Hscheme : getScheme (import_text scheme host path)
                    = Ok (default EmptyString scheme, rest)).
  { unfold import_text. fold rest. destruct scheme as [s|]; cbn [scheme_text from_option id].
    - rewrite append_assoc. now apply getScheme_scheme.
    - rewrite append_nil_l. unfold getScheme.
      destruct host as [h|].
      + unfold rest at 2. cbn [authority_text].
        now rewrite append_assoc, !append_cons.
      + unfold rest. cbn [authority_text]. rewrite append_nil_l.
        now apply getScheme_at_first_segment. }
  unfold Parse.
  rewrite (Cut_absent _ "#") by now apply unescaped_absent.
  unfold parse.
  rewrite (unescaped_no_ctl _ Hraw), andb_false_r, (unescaped_not_star _ Hraw).
  rewrite Hscheme. cbn [bind].
  assert (Hlower : ToLower (default EmptyString scheme) = default EmptyString scheme).
  { destruct scheme as [s|]; [|reflexivity]. cbn [from_option id].
    apply is_scheme_bytes in Hs as [_ Hs]. now apply ToLower_scheme. }
  rewrite Hlower.
  assert (Hrooted : nonempty (default EmptyString scheme) = true ->
                    HasPrefix rest "/" = true).
  { intros Hne. unfold rest. destruct host as [h|]; cbn [authority_text].
    - now rewrite append_assoc, !append_cons.
    - rewrite append_nil_l. destruct scheme as [s|]; [|discriminate].
      apply andb_true_iff in Hh as [_ Hh]. exact Hh. }
  assert (Hshape : match host with
                   | Some h => is_host h && rooted_or_empty path
                   | None => negb (HasPrefix path "//")
                   end = true).
  { destruct host as [h|]; [exact Hh |].
    now apply andb_true_iff in Hh as [Hh _]. }
  pose proof (parse_rest (default EmptyString scheme) rest host path eq_refl
                Hrooted Hshape Hpath Hfirst Hrest) as Hparse.
  match goal with
  | |- match ?X with _ => _ end = _ =>
      replace X with
        (Ok (mkURL (default EmptyString scheme) EmptyString None
                   (default EmptyString host) path EmptyString
                   (nonempty (default EmptyString scheme)
                    && negb (bool_decide (is_Some host)))
                   false EmptyString EmptyString EmptyString))
        by (symmetry; exact Hparse)
  end.
  clear Hparse. cbn [nonempty negb]. unfold import_url. do 2 f_equal.
  destruct scheme as [s|], host as [h|]; cbn [from_option id nonempty andb];
    try (rewrite bool_decide_true by eauto);
    try (rewrite bool_decide_false by (intros [x Hx]; discriminate));
    try reflexivity.
  - apply is_scheme_bytes in Hs as [Hne _]. now rewrite Hne.
  - apply is_scheme_bytes in Hs as [Hne _]. now rewrite Hne.
Qed.

(** *** What [URL.String] writes around a path *)

Lemma with_Path_same (u : URL) : with_Path u (Path u) = u.
Proof. now destruct u. Qed.

Lemma String_with_Path (u : URL) (p : string) :
  nonempty (Opaque u) = false -> nonempty (RawPath u) = false ->
  negb (nonempty (Scheme u)) || nonempty (Host u)
  || bool_decide (User u <> None) || OmitHost u = true ->
  unescaped p = true -> first_segment_plain p = true ->
  negb (nonempty (Host u)) || rooted_or_empty p = true ->
  URL_String (with_Path u p) = URL_head u +:+ p +:+ URL_tail u.
Proof.
  intros Hopaque Hraw Hauth Hp Hfirst Hroot.
  unfold URL_String, URL_head, URL_tail, EscapedPath, EscapedFragment.
  destruct u as [sch opq usr hst pth raw omit fq rq frag rfrag].
  cbn [with_Path Scheme Opaque User Host Path RawPath OmitHost ForceQuery
       RawQuery Fragment RawFragment] in *.
  rewrite Hopaque, Hraw. cbn [andb].
  rewrite (unescaped_not_star p Hp), (escape_unescaped p Hp).
  unfold first_segment_plain in Hfirst. apply negb_true_iff in Hfirst.
  rewrite Hfirst, andb_false_r.
  assert (Hslash : nonempty hst = true ->
                   nonempty p && negb (HasPrefix p "/") = false).
  { intros Hne. rewrite Hne in Hroot. cbn [negb orb] in Hroot.
    unfold rooted_or_empty in Hroot.
    destruct (nonempty p), (HasPrefix p "/"); try reflexivity; discriminate. }
  set (query := if fq || nonempty rq then "?" +:+ rq else EmptyString).
  set (fragment := if nonempty frag then "#" +:+ _ else EmptyString).
  assert (Hend : forall buf,
             (if nonempty frag
              then (if fq || nonempty rq then buf +:+ "?" +:+ rq else buf)
                   +:+ "#" +:+
                   (if nonempty rfrag && validEncoded rfrag encodeFragment
                       && match unescape rfrag encodeFragment with
                          | Ok f => String.eqb f frag
                          | Err _ => false
                          end
                    then rfrag else escape frag encodeFragment)
              else (if fq || nonempty rq then buf +:+ "?" +:+ rq else buf))
             = buf +:+ query +:+ fragment).
  { intros buf. unfold query, fragment.
    destruct (nonempty frag), (fq || nonempty rq);
      now rewrite ?append_assoc, ?append_empty_r, ?append_nil_l. }
  rewrite Hend. rewrite <- !append_assoc. do 2 f_equal. rewrite ?append_assoc.
  destruct (nonempty hst) eqn:Hhost.
  - rewrite (Hslash eq_refl). cbn [andb]. rewrite !orb_true_r. cbn [orb].
    rewrite andb_false_r. cbn [andb negb]. now rewrite ?append_assoc.
  - rewrite !andb_false_r. cbn [orb andb negb] in *.
    destruct usr as [ui|].
    + rewrite !bool_decide_true by easy. rewrite !orb_true_r.
      rewrite bool_decide_false by easy. rewrite andb_false_r.
      now rewrite ?append_assoc.
    + rewrite bool_decide_false in * by (intros H; now apply H).
      rewrite !bool_decide_true by reflexivity.
      rewrite !orb_false_r in *. rewrite andb_true_r.
      destruct (nonempty sch) eqn:Hsch; [|reflexivity].
      cbn [negb orb] in Hauth. now rewrite Hauth.
Qed.

Lemma URL_head_import_url (scheme host : option string) (path : string) :
  import_form scheme host path = true ->
  URL_head (import_url scheme host path)
  = scheme_text scheme +:+ authority_text host.
Proof.
  intros H. apply import_form_parts in H as (Hs & Hh & _ & _).
  unfold URL_head, import_url. cbn [Scheme Host User OmitHost].
  rewrite bool_decide_false by (intros H; now apply H).
  rewrite bool_decide_true by reflexivity. rewrite orb_false_r, andb_true_r.
  destruct scheme as [s|], host as [h|];
    cbn [from_option id scheme_text authority_text nonempty orb andb negb].
  - apply is_scheme_bytes in Hs as [Hne _].
    apply andb_true_iff in Hh as [Hh _]. apply is_host_parts in Hh as (Hhne & Hh & _).
    rewrite Hne, Hhne, (escape_host h Hh). cbn [orb].
    now rewrite ?append_assoc, ?append_nil_l.
  - apply is_scheme_bytes in Hs as [Hne _]. rewrite Hne. cbn [orb].
    now rewrite append_empty_r.
  - apply andb_true_iff in Hh as [Hh _]. apply is_host_parts in Hh as (Hhne & Hh & _).
    rewrite Hhne, (escape_host h Hh). now rewrite ?append_nil_l.
  - reflexivity.
Qed.

(** [URL.String] on the URL of an import path of the form, with another
    path in the place of its own. *)
Lemma String_import_url (scheme host : option string) (path p : string) :
  import_form scheme host path = true ->
  unescaped p = true -> first_segment_plain p = true ->
  (rooted_or_empty path = true -> rooted_or_empty p = true) ->
  URL_String (with_Path (import_url scheme host path) p)
  = import_text scheme host p.
Proof.
  intros Hform Hp Hfirst Hroot.
  rewrite String_with_Path; try assumption; try reflexivity.
  - rewrite (URL_head_import_url scheme host path Hform).
    unfold import_text, URL_tail. cbn.
    now rewrite append_empty_r, ?append_assoc.
  - apply import_form_parts in Hform as (Hs & Hh & _ & _).
    unfold import_url. cbn [Scheme Host User OmitHost].
    destruct scheme as [s|], host as [h|]; cbn [from_option id nonempty negb orb];
      try reflexivity.
    + apply andb_true_iff in Hh as [Hh _]. apply is_host_parts in Hh as (Hhne & _).
      rewrite Hhne. now rewrite orb_true_r.
    + now rewrite !orb_true_r.
  - apply import_form_parts in Hform as (_ & Hh & _ & _).
    unfold import_url. cbn [Host].
    destruct host as [h|]; cbn [from_option id nonempty negb orb]; [|reflexivity].
    apply andb_true_iff in Hh as [_ Hh]. rewrite (Hroot Hh).
    now rewrite orb_true_r.
Qed.

End ImportForms.

(** ** The import-prefix calculator *)

Section ImportPrefixFacts.
Import strings url.

Lemma wrap64_fits (z : Z) : fits_int z -> wrap64 z = z.
Proof.
  unfold fits_int, wrap64. intros H.
  rewrite Z.mod_small; lia.
Qed.

Lemma wrap64_range (z : Z) : fits_int (wrap64 z).
Proof.
  unfold fits_int, wrap64.
  pose proof (Z.mod_pos_bound (z + 2 ^ 63) (2 ^ 64) ltac:(lia)). lia.
Qed.

Lemma wrap64_above (z : Z) : 2 ^ 63 <= z < 2 ^ 64 -> wrap64 z < 0.
Proof.
  unfold wrap64. intros H.
  replace (z + 2 ^ 63) with ((z - 2 ^ 63) + 1 * 2 ^ 64) by lia.
  rewrite Z.mod_add by lia. rewrite Z.mod_small; lia.
Qed.

Lemma slice_to_ok {A} (s : list A) (hi : Z) :
  0 <= hi <= len s -> slice_to s hi = Returns (take (Z.to_nat hi) s).
Proof.
  intros [H0 H1]. unfold slice_to.
  apply Z.leb_le in H0, H1. now rewrite H0, H1.
Qed.

Lemma slice_to_returns {A} (s : list A) (hi : Z) :
  returns (slice_to s hi) = true <-> 0 <= hi <= len s.
Proof.
  unfold slice_to.
  destruct (Z.leb_spec 0 hi), (Z.leb_spec hi (len s)); simpl; split;
    intros; try lia; try reflexivity; discriminate.
Qed.

(** The calculator on a parsed import path, in one equation. *)
Lemma ImportPrefix_parsed (i : vanityImport) (u : URL) :
  Parse (Import i) = Ok u ->
  ImportPrefix i =
    let segments := Split (Path u) "/" in
    match slice_to segments (int_sub (len segments) (pathLen i)) with
    | Panics msg => Panics msg
    | Returns kept => Returns (URL_String (with_Path u (Join kept "/")))
    end.
Proof. intros H. unfold ImportPrefix. now rewrite H. Qed.

(** When the calculator returns: exactly at depths between zero and the
    number of segments. *)
Lemma ImportPrefix_returns_iff (i : vanityImport) (u : URL) :
  Parse (Import i) = Ok u ->
  fits_int (pathLen i) -> fits_int (len (Split (Path u) "/")) ->
  returns (ImportPrefix i) = true
  <-> 0 <= pathLen i <= len (Split (Path u) "/").
Proof.
  intros Hparse Hd Hn. rewrite (ImportPrefix_parsed i u Hparse). cbv zeta.
  set (segments := Split (Path u) "/") in *.
  assert (Hpos : 0 <= len segments) by (unfold len; lia).
  transitivity (returns (slice_to segments (int_sub (len segments) (pathLen i))) = true).
  { now destruct (slice_to segments _). }
  rewrite slice_to_returns. unfold int_sub, fits_int in *.
  destruct (Z_lt_le_dec (len segments - pathLen i) (2 ^ 63)) as [Hlt|Hge].
  - rewrite wrap64_fits by (unfold fits_int; lia). lia.
  - pose proof (wrap64_above (len segments - pathLen i) ltac:(lia)). lia.
Qed.

Lemma plain_slash : plain "/" = true.
Proof. reflexivity. Qed.

Lemma plain_kept (P : string) (k : nat) :
  plain P = true -> plain (Join (take k (Split P "/")) "/") = true.
Proof.
  intros H. apply all_bytes_Join; [exact plain_slash |].
  apply Forall_take. now apply all_bytes_Split.
Qed.

(** The calculator on a plain import path whose slice bound is in range. *)
Lemma ImportPrefix_plain_kept (P repo : string) (d : Z) :
  plain P = true -> HasPrefix P "//" = false ->
  0 <= int_sub (len (Split P "/")) d <= len (Split P "/") ->
  ImportPrefix (mkVanityImport P repo d)
  = Returns (URL_String
               (with_Path zero
                  (Join (take (Z.to_nat (int_sub (len (Split P "/")) d))
                              (Split P "/")) "/"))).
Proof.
  intros Hplain Hauth Hbound.
  rewrite (ImportPrefix_parsed (mkVanityImport P repo d) _
             (Parse_plain P Hplain Hauth)).
  cbn [Path with_Path zero pathLen]. cbv zeta.
  now rewrite slice_to_ok by assumption.
Qed.

(** The calculator on an import path that parses, at a depth within the
    segments of its path. *)
Lemma ImportPrefix_kept (P repo : string) (d : Z) (u : URL) :
  Parse P = Ok u ->
  fits_int (len (Split (Path u) "/")) ->
  0 <= d <= len (Split (Path u) "/") ->
  ImportPrefix (mkVanityImport P repo d)
  = Returns (URL_String (with_Path u (drop_last_segments (Path u) d))).
Proof.
  intros Hparse Hn Hd.
  rewrite (ImportPrefix_parsed (mkVanityImport P repo d) u Hparse).
  cbn [pathLen]. cbv zeta.
  assert (Hsub : int_sub (len (Split (Path u) "/")) d
                 = len (Split (Path u) "/") - d)
    by (apply wrap64_fits; unfold fits_int in *; lia).
  rewrite Hsub, slice_to_ok by lia. reflexivity.
Qed.

Lemma drop_no_segment (p : string) : drop_last_segments p 0 = p.
Proof.
  unfold drop_last_segments, len. cbv zeta.
  rewrite Z.sub_0_r, Nat2Z.id, firstn_all. apply (Join_Split p "/").
Qed.

Lemma path_trimmable_parts (u : URL) :
  path_trimmable u = true ->
  nonempty (Opaque u) = false /\ nonempty (RawPath u) = false
  /\ negb (nonempty (Scheme u)) || nonempty (Host u)
     || bool_decide (User u <> None) || OmitHost u = true
  /\ unescaped (Path u) = true /\ first_segment_plain (Path u) = true
  /\ negb (nonempty (Host u)) || rooted_or_empty (Path u) = true.
Proof.
  unfold path_trimmable. intros H.
  apply andb_true_iff in H as [H Hroot]. apply andb_true_iff in H as [H Hfirst].
  apply andb_true_iff in H as [H Hpath]. apply andb_true_iff in H as [H Hauth].
  apply andb_true_iff in H as [Hopaque Hraw].
  apply negb_true_iff in Hopaque, Hraw. repeat split; assumption.
Qed.

End ImportPrefixFacts.

(** C1 (as amended): first, for every import path written as an optional
    scheme in lower case, an optional host ([is_host]: letters, digits,
    [-._~] and colons, what starts at the last colon being a port) and a
    path of bytes that need no escaping ([import_form]), and every depth
    [d] between 0 and the number of slash-separated segments of the path,
    [ImportPrefix] returns the scheme and the host as they are, followed
    by the path without its last [d] segments, the rest joined by
    slashes.  Second, the same holds for
    every import path that [url.Parse] accepts and [URL.String] writes
    back as it is, with whatever user, query and fragment it has, when its
    URL is [path_trimmable]: the text before and the text after the path
    stay, and the path loses its last [d] segments. *)
Theorem ImportPrefix_drops_last_segments (repo : string) (d : Z) :
  (forall (scheme host : option string) (path : string),
     import_form scheme host path = true ->
     fits_int (len (strings.Split path "/")) ->
     0 <= d <= len (strings.Split path "/") ->
     ImportPrefix (mkVanityImport (import_text scheme host path) repo d)
     = Returns (import_text scheme host (drop_last_segments path d)))
  /\ (forall (P : string) (u : url.URL),
       url.Parse P = Ok u ->
       url.URL_String u = P ->
       path_trimmable u = true ->
       fits_int (len (strings.Split (url.Path u) "/")) ->
       0 <= d <= len (strings.Split (url.Path u) "/") ->
       P = URL_head u +:+ url.Path u +:+ URL_tail u
       /\ ImportPrefix (mkVanityImport P repo d)
          = Returns (URL_head u +:+ drop_last_segments (url.Path u) d
                     +:+ URL_tail u)).
Proof.
  split.
  - intros scheme host path Hform Hn Hd.
    rewrite (ImportPrefix_kept _ repo d _ (Parse_import_form _ _ _ Hform))
      by assumption.
    cbn [url.Path import_url]. f_equal.
    pose proof (import_form_parts _ _ _ Hform) as (_ & _ & Hpath & Hfirst).
    unfold drop_last_segments. cbv zeta.
    apply String_import_url; [assumption | | |].
    + now apply unescaped_kept.
    + now apply first_segment_kept.
    + apply rooted_kept.
  - intros P u Hparse Hsame Htrim Hn Hd.
    destruct (path_trimmable_parts u Htrim)
      as (Hopaque & Hraw & Hauth & Hpath & Hfirst & Hroot).
    split.
    + rewrite <- Hsame at 1. rewrite <- (with_Path_same u) at 1.
      now apply String_with_Path.
    + rewrite (ImportPrefix_kept P repo d u Hparse) by assumption. f_equal.
      unfold drop_last_segments. cbv zeta.
      apply String_with_Path; try assumption.
      * now apply unescaped_kept.
      * now apply first_segment_kept.
      * destruct (url.nonempty (url.Host u)); [|reflexivity].
        cbn [negb orb] in *. now apply rooted_kept.
Qed.

Lemma ImportPrefix_drops_last_segments_witness :
  (let path := "/org/repo/sub/pkg" in
   import_form (Some "https") (Some "example.com") path = true
   /\ fits_int (len (strings.Split path "/"))
   /\ 0 <= 2 <= len (strings.Split path "/")
   /\ ImportPrefix (mkVanityImport "https://example.com/org/repo/sub/pkg"
                                   "https://github.com/org/repo" 2)
      = Returns "https://example.com/org/repo")
  /\ (let P := "//git@example.com:8080/org/repo/sub?tab=readme#top" in
      let u := url.mkURL EmptyString EmptyString
                 (Some (url.mkUserinfo "git" EmptyString false))
                 "example.com:8080" "/org/repo/sub" EmptyString false false
                 "tab=readme" "top" EmptyString in
      url.Parse P = Ok u
      /\ url.URL_String u = P
      /\ path_trimmable u = true
      /\ fits_int (len (strings.Split (url.Path u) "/"))
      /\ 0 <= 2 <= len (strings.Split (url.Path u) "/")
      /\ ImportPrefix (mkVanityImport P "https://github.com/org/repo" 2)
         = Returns "//git@example.com:8080/org?tab=readme#top").
Proof.
  cbv zeta.
  destruct (ImportPrefix_drops_last_segments "https://github.com/org/repo" 2)
    as [Hform Hsame].
  assert (Hn1 : fits_int (len (strings.Split "/org/repo/sub/pkg" "/")))
    by (unfold fits_int; vm_compute; split; [discriminate | reflexivity]).
  assert (Hd1 : 0 <= 2 <= len (strings.Split "/org/repo/sub/pkg" "/"))
    by (vm_compute; split; discriminate).
  assert (Hn2 : fits_int (len (strings.Split "/org/repo/sub" "/")))
    by (unfold fits_int; vm_compute; split; [discriminate | reflexivity]).
  assert (Hd2 : 0 <= 2 <= len (strings.Split "/org/repo/sub" "/"))
    by (vm_compute; split; discriminate).
  split.
  - repeat (split; [first [reflexivity | exact Hn1 | exact Hd1] |]).
    exact (Hform (Some "https") (Some "example.com") "/org/repo/sub/pkg"
             eq_refl Hn1 Hd1).
  - repeat (split; [first [reflexivity | exact Hn2 | exact Hd2] |]).
    exact (proj2 (Hsame "//git@example.com:8080/org/repo/sub?tab=readme#top" _
                    eq_refl eq_refl eq_refl Hn2 Hd2)).
Defined.

(** C1 in the words of the specification does not hold on every import
    path that parses, at a depth within its segments: a byte that needs
    escaping is escaped in the segments that are kept, a scheme is written
    in lower case, an empty fragment is dropped, and the two slashes of an
    empty authority are dropped with the last segment of the path. *)
Lemma ImportPrefix_escapes_kept_segments :
  (let P := "example.com/my pkg/sub" in
   url.Parse P = Ok (url.mkURL EmptyString EmptyString None EmptyString P P
                               false false EmptyString EmptyString EmptyString)
   /\ 0 <= 1 <= len (strings.Split P "/")
   /\ drop_last_segments P 1 = "example.com/my pkg"
   /\ ImportPrefix (mkVanityImport P "https://github.com/o/r" 1)
      = Returns "example.com/my%20pkg"
   /\ ImportPrefix (mkVanityImport P "https://github.com/o/r" 1)
      <> Returns (drop_last_segments P 1))
  /\ (ImportPrefix (mkVanityImport "HTTPS://example.com/repo/sub"
                                   "https://github.com/o/r" 1)
      = Returns "https://example.com/repo"
      /\ ImportPrefix (mkVanityImport "HTTPS://example.com/repo/sub"
                                      "https://github.com/o/r" 1)
         <> Returns "HTTPS://example.com/repo")
  /\ (ImportPrefix (mkVanityImport "example.com/repo/sub#"
                                   "https://github.com/o/r" 1)
      = Returns "example.com/repo"
      /\ ImportPrefix (mkVanityImport "example.com/repo/sub#"
                                      "https://github.com/o/r" 1)
         <> Returns "example.com/repo#")
  /\ (url.Parse "file:///pkg"
      = Ok (url.mkURL "file" EmptyString None EmptyString "/pkg" EmptyString
                      false false EmptyString EmptyString EmptyString)
      /\ 0 <= 2 <= len (strings.Split "/pkg" "/")
      /\ ImportPrefix (mkVanityImport "file:///pkg" "https://github.com/o/r" 2)
         = Returns "file:"
      /\ ImportPrefix (mkVanityImport "file:///pkg" "https://github.com/o/r" 2)
         <> Returns "file://").
Proof.
  cbv zeta. repeat split; vm_compute; congruence.
Qed.

(** C2 (as amended): at depth 0 [ImportPrefix] returns what [URL.String]
    writes for the URL that [url.Parse] reads, so that the result is the
    import path itself exactly when [URL.String] writes it back as it is;
    and it does so for every import path written as an optional scheme in
    lower case, an optional host ([is_host]: letters, digits, [-._~] and
    colons, what starts at the last colon being a port) and a path of
    bytes that need no escaping ([import_form]). *)
Theorem ImportPrefix_depth_zero_identity (repo : string) :
  (forall (P : string) (u : url.URL),
     url.Parse P = Ok u ->
     fits_int (len (strings.Split (url.Path u) "/")) ->
     ImportPrefix (mkVanityImport P repo 0) = Returns (url.URL_String u)
     /\ (ImportPrefix (mkVanityImport P repo 0) = Returns P
         <-> url.URL_String u = P))
  /\ (forall (scheme host : option string) (path : string),
       import_form scheme host path = true ->
       fits_int (len (strings.Split path "/")) ->
       ImportPrefix (mkVanityImport (import_text scheme host path) repo 0)
       = Returns (import_text scheme host path)).
Proof.
  assert (Hzero : forall P u,
             url.Parse P = Ok u ->
             fits_int (len (strings.Split (url.Path u) "/")) ->
             ImportPrefix (mkVanityImport P repo 0) = Returns (url.URL_String u)).
  { intros P u Hparse Hn.
    rewrite (ImportPrefix_kept P repo 0 u Hparse Hn) by (unfold len; lia).
    now rewrite drop_no_segment, with_Path_same. }
  split.
  - intros P u Hparse Hn. split; [now apply Hzero |].
    rewrite (Hzero P u Hparse Hn). split; [now intros [= ->] | now intros ->].
  - intros scheme host path Hform Hn.
    pose proof (Parse_import_form scheme host path Hform) as Hparse.
    rewrite (Hzero _ _ Hparse) by exact Hn. f_equal.
    pose proof (import_form_parts _ _ _ Hform) as (_ & _ & Hpath & Hfirst).
    rewrite <- (with_Path_same (import_url scheme host path)).
    cbn [url.Path import_url].
    now apply (String_import_url scheme host path path).
Qed.

Lemma ImportPrefix_depth_zero_identity_witness :
  import_form None None "pack.ag/tftp" = true
  /\ fits_int (len (strings.Split "pack.ag/tftp" "/"))
  /\ ImportPrefix (mkVanityImport "pack.ag/tftp"
                                  "https://github.com/vcabbage/go-tftp" 0)
     = Returns "pack.ag/tftp"
  /\ import_form (Some "https") (Some "pack.ag:8443") "/tftp/netascii" = true
  /\ fits_int (len (strings.Split "/tftp/netascii" "/"))
  /\ ImportPrefix (mkVanityImport "https://pack.ag:8443/tftp/netascii"
                                  "https://github.com/vcabbage/go-tftp" 0)
     = Returns "https://pack.ag:8443/tftp/netascii"
  /\ url.Parse "pack.ag/my%2Dpkg"
     = Ok (url.mkURL EmptyString EmptyString None EmptyString
                     "pack.ag/my-pkg" "pack.ag/my%2Dpkg" false false
                     EmptyString EmptyString EmptyString)
  /\ ImportPrefix (mkVanityImport "pack.ag/my%2Dpkg"
                                  "https://github.com/vcabbage/go-tftp" 0)
     = Returns "pack.ag/my%2Dpkg".
Proof.
  destruct (ImportPrefix_depth_zero_identity "https://github.com/vcabbage/go-tftp")
    as [Hparsed Hform].
  assert (Hn1 : fits_int (len (strings.Split "pack.ag/tftp" "/")))
    by (unfold fits_int; vm_compute; split; [discriminate | reflexivity]).
  assert (Hn2 : fits_int (len (strings.Split "/tftp/netascii" "/")))
    by (unfold fits_int; vm_compute; split; [discriminate | reflexivity]).
  assert (Hn3 : fits_int (len (strings.Split "pack.ag/my-pkg" "/")))
    by (unfold fits_int; vm_compute; split; [discriminate | reflexivity]).
  split; [reflexivity |]. split; [exact Hn1 |].
  split; [exact (Hform None None "pack.ag/tftp" eq_refl Hn1) |].
  split; [reflexivity |]. split; [exact Hn2 |].
  split; [exact (Hform (Some "https") (Some "pack.ag:8443") "/tftp/netascii"
                   eq_refl Hn2) |].
  split; [reflexivity |].
  exact (proj2 (proj2 (Hparsed "pack.ag/my%2Dpkg" _ eq_refl Hn3)) eq_refl).
Defined.

(** C2 in the words of the specification does not hold on every import
    path that parses: at depth 0 a byte that needs escaping is escaped, a
    scheme is written in lower case and an empty fragment is dropped. *)
Lemma ImportPrefix_depth_zero_escapes :
  (ImportPrefix (mkVanityImport "example.com/my pkg" "https://github.com/o/r" 0)
   = Returns "example.com/my%20pkg"
   /\ ImportPrefix (mkVanityImport "example.com/my pkg" "https://github.com/o/r" 0)
      <> Returns "example.com/my pkg")
  /\ (ImportPrefix (mkVanityImport "HTTPS://example.com/repo"
                                   "https://github.com/o/r" 0)
      = Returns "https://example.com/repo"
      /\ ImportPrefix (mkVanityImport "HTTPS://example.com/repo"
                                      "https://github.com/o/r" 0)
         <> Returns "HTTPS://example.com/repo")
  /\ (ImportPrefix (mkVanityImport "example.com/repo#" "https://github.com/o/r" 0)
      = Returns "example.com/repo"
      /\ ImportPrefix (mkVanityImport "example.com/repo#"
                                      "https://github.com/o/r" 0)
         <> Returns "example.com/repo#").
Proof. repeat split; vm_compute; congruence. Qed.

(** C3: for every import path that fails to parse, [ImportPrefix] returns
    the empty string; it neither reports an error nor panics. *)
Theorem ImportPrefix_unparsable_is_empty (i : vanityImport) (e : error) :
  url.Parse (Import i) = Err e -> ImportPrefix i = Returns EmptyString.
Proof. intros H. unfold ImportPrefix. now rewrite H. Qed.

Lemma ImportPrefix_unparsable_is_empty_witness :
  url.Parse "example.com/%zz" = Err "parse: invalid URL escape"
  /\ ImportPrefix (mkVanityImport "example.com/%zz" "https://github.com/o/r" 1)
     = Returns EmptyString.
Proof.
  split; [reflexivity |].
  exact (ImportPrefix_unparsable_is_empty
           (mkVanityImport "example.com/%zz" "https://github.com/o/r" 1)
           "parse: invalid URL escape" eq_refl).
Defined.

(** C4 fails on the code: a package with the import comment [pack.ag], two
    directories below the root of its repository, is extracted with depth
    2; its import path parses and has one segment, the bound of the slice
    is -1, and [ImportPrefix] panics. *)
Theorem ImportPrefix_panics_beyond_segments :
  let v := mkVanityImport "pack.ag" "https://github.com/o/r" 2 in
  getVanityPackages nested_env "https://github.com/o/r" "pack.ag"
  = Returns (Ok [v])
  /\ is_ok (url.Parse (Import v)) = true
  /\ 0 <= pathLen v
  /\ ImportPrefix v = Panics "runtime error: slice bounds out of range".
Proof. cbv zeta. repeat split; vm_compute; congruence. Qed.

(** ** The package extractor *)

Section ExtractorFacts.
Import strings.

Lemma TrimLeft_relative (rel : string) :
  is_relative rel = true -> TrimLeft rel separators = rel.
Proof.
  destruct rel as [|c rel]; [reflexivity |].
  cbn [is_relative TrimLeft]. intros H. apply negb_true_iff in H.
  now rewrite H.
Qed.

(** What the loop body computes for the directory [tmpDir/rel]. *)
Lemma depth_below_root (tmpDir rel : string) :
  is_relative rel = true ->
  Split (filepath.ToSlash
           (TrimLeft (TrimPrefix (tmpDir +:+ "/" +:+ rel) tmpDir) separators)) "/"
  = Split rel "/".
Proof.
  intros Hrel. rewrite TrimPrefix_app. unfold filepath.ToSlash.
  rewrite append_cons, append_nil_l.
  replace (TrimLeft (String "/" rel) separators) with (TrimLeft rel separators)
    by reflexivity.
  now rewrite TrimLeft_relative.
Qed.

Lemma scan_line_Matched (env : RepoEnv) (tmpDir url base line : string)
    (v : vanityImport) :
  scan_line env tmpDir url base line = Matched v ->
  HasPrefix line base = true
  /\ exists importPath s1 dir,
      Split line ":" !! O = Some importPath
      /\ Split line ":" !! 1%nat = Some s1
      /\ EvalSymlinks env s1 = Ok dir
      /\ v = mkVanityImport importPath url
               (if negb (String.eqb dir tmpDir)
                then len (Split (filepath.ToSlash
                                   (TrimLeft (TrimPrefix dir tmpDir) separators)) "/")
                else 0).
Proof.
  unfold scan_line, index_at.
  destruct (HasPrefix line base); [|discriminate]. simpl.
  destruct (Split line ":" !! O) as [importPath|] eqn:H0;
    destruct (Split line ":" !! 1%nat) as [s1|] eqn:H1; try discriminate.
  destruct (EvalSymlinks env s1) as [dir|e] eqn:Hdir; [|discriminate].
  intros [= <-]. split; [reflexivity |].
  exists importPath, s1, dir. repeat split; assumption.
Qed.

Lemma Split_first_field (line : string) :
  Split line ":" !! O = Some (first_field line).
Proof.
  unfold first_field. pose proof (Split_not_nil line ":").
  now destruct (Split line ":").
Qed.

Lemma Split_second_field (line : string) :
  is_Some (Split line ":" !! 1%nat) <-> ContainsByte line ":" = true.
Proof.
  rewrite lookup_lt_is_Some, Split_length. split.
  - intros Hlt. destruct (ContainsByte line ":") eqn:Hc; [reflexivity |].
    rewrite (CountByte_absent _ _ Hc) in Hlt. lia.
  - intros Hc. apply CountByte_pos in Hc. lia.
Qed.

Lemma scan_line_Skipped (env : RepoEnv) (tmpDir url base line : string) :
  scan_line env tmpDir url base line = Skipped <-> HasPrefix line base = false.
Proof.
  unfold scan_line, index_at. rewrite Split_first_field.
  destruct (HasPrefix line base); cbn [negb]; [|easy].
  destruct (Split line ":" !! 1%nat); [|easy].
  now destruct (EvalSymlinks env s).
Qed.

Lemma scan_lines_Ok (env : RepoEnv) (tmpDir url base : string)
    (lines : list string) (acc imports : list vanityImport) :
  scan_lines env tmpDir url base lines acc = Returns (Ok imports) ->
  imports = acc ++ matched_of env tmpDir url base lines.
Proof.
  revert acc. induction lines as [|line rest IH]; intros acc; simpl.
  - intros [= <-]. now rewrite app_nil_r.
  - unfold matched_of. simpl.
    destruct (scan_line env tmpDir url base line) as [|v|e|msg]; try discriminate.
    + apply IH.
    + intros H. apply IH in H. now rewrite <- app_assoc in H.
Qed.

(** A successful extraction returns the matches of the listing, computed
    against the resolved temporary directory. *)
Lemma getVanityPackages_Ok (env : RepoEnv) (url base : string)
    (imports : list vanityImport) :
  getVanityPackages env url base = Returns (Ok imports) ->
  exists tmpDir0 tmpDir,
    TempDir env = Ok tmpDir0
    /\ EvalSymlinks env tmpDir0 = Ok tmpDir
    /\ imports = matched_of env tmpDir url base (scanned env).
Proof.
  unfold getVanityPackages, check.
  destruct (TempDir env) as [tmpDir0|] eqn:Htmp; [|discriminate].
  destruct (EvalSymlinks env tmpDir0) as [tmpDir|] eqn:Hres; [|discriminate].
  destruct (git_clone env); [discriminate |].
  destruct (StdoutPipe env); [discriminate |].
  destruct (Start env); [discriminate |].
  destruct (scan_lines env tmpDir url base (scanned env) []) as [[found|]|] eqn:Hscan;
    try discriminate.
  destruct (scanner_Err env); [discriminate |].
  destruct (Wait env); [discriminate |].
  intros [= <-]. exists tmpDir0, tmpDir. repeat split; [assumption |].
  now apply scan_lines_Ok in Hscan.
Qed.

Lemma matched_of_elem (env : RepoEnv) (tmpDir url base : string)
    (lines : list string) (v : vanityImport) :
  v ∈ matched_of env tmpDir url base lines ->
  exists line, line ∈ lines /\ scan_line env tmpDir url base line = Matched v.
Proof.
  unfold matched_of. rewrite list_elem_of_omap. intros (line & Hin & H).
  exists line. split; [assumption |].
  destruct (scan_line env tmpDir url base line); congruence.
Qed.

(** A prefix without a colon that starts a line starts its first field. *)
Lemma HasPrefix_first_field (base line : string) :
  ContainsByte base ":" = false -> HasPrefix line base = true ->
  exists hd tl, Split line ":" = hd :: tl /\ HasPrefix hd base = true.
Proof.
  revert line. induction base as [|b base IH]; intros line Hcolon Hpre.
  - pose proof (Split_not_nil line ":") as Hnil.
    destruct (Split line ":") as [|hd tl]; [easy |]. now exists hd, tl.
  - simpl in Hcolon. apply orb_false_iff in Hcolon as [Hb Hbase].
    destruct line as [|c line]; [discriminate |]. simpl in Hpre.
    destruct (Ascii.eqb_spec c b) as [->|]; [|discriminate].
    destruct (IH line Hbase Hpre) as (hd & tl & Hsplit & Hhd).
    exists (String b hd), tl. simpl. rewrite Hb, Hsplit.
    split; [reflexivity |]. now rewrite Ascii.eqb_refl.
Qed.

(** A prefix without a colon that starts the line of a package starts its
    import comment. *)
Lemma HasPrefix_of_line (base comment dir : string) :
  ContainsByte base ":" = false ->
  HasPrefix (comment +:+ ":" +:+ dir) base = true ->
  HasPrefix comment base = true.
Proof.
  revert comment. induction base as [|b base IH]; intros comment Hcolon Hpre;
    [reflexivity |].
  simpl in Hcolon. apply orb_false_iff in Hcolon as [Hb Hbase].
  destruct comment as [|c comment].
  - rewrite append_nil_l, append_cons in Hpre. cbn [HasPrefix] in Hpre.
    rewrite Ascii.eqb_sym, Hb in Hpre. discriminate.
  - rewrite append_cons in Hpre. cbn [HasPrefix] in *.
    destruct (Ascii.eqb c b); [|discriminate]. now apply IH.
Qed.

(** A successful scan pairs the lines that start with the prefix with the
    packages it adds, in order. *)
Lemma scan_lines_paired (env : RepoEnv) (tmpDir url base : string)
    (lines : list string) :
  forall acc imports,
    scan_lines env tmpDir url base lines acc = Returns (Ok imports) ->
    exists found,
      imports = acc ++ found
      /\ Forall2 (fun line v => scan_line env tmpDir url base line = Matched v)
                 (matching base lines) found.
Proof.
  induction lines as [|line rest IH]; intros acc imports.
  - cbn. intros [= <-]. exists []. rewrite app_nil_r. now split.
  - cbn [scan_lines matching List.filter].
    destruct (scan_line env tmpDir url base line) as [|v|e|msg] eqn:Hline;
      try discriminate.
    + apply scan_line_Skipped in Hline. rewrite Hline. apply IH.
    + destruct (scan_line_Matched _ _ _ _ _ _ Hline) as [Hpre _].
      rewrite Hpre. intros H. apply IH in H as (found & -> & Hfound).
      exists (v :: found). rewrite <- app_assoc. split; [reflexivity |].
      now constructor.
Qed.

End ExtractorFacts.

(** C5 (as amended): a successful extraction returns one package for
    each line of the listing that starts with the prefix, in order.  The
    package of a line has the first field of the line as its import path;
    the second field resolves to a directory [dir], and the depth of the
    package is 0 exactly when [dir] is the resolved temporary directory, it
    is the number of slash-separated segments of [rel] when [dir] is
    [tmpDir/rel] for a [rel] that does not start with a slash or a
    backslash, and it is never negative. *)
Theorem getVanityPackages_depth (env : RepoEnv) (url base : string)
    (imports : list vanityImport) :
  getVanityPackages env url base = Returns (Ok imports) ->
  exists tmpDir0 tmpDir,
    TempDir env = Ok tmpDir0
    /\ EvalSymlinks env tmpDir0 = Ok tmpDir
    /\ Forall2
         (fun line v =>
            Import v = first_field line
            /\ exists field dir,
                strings.Split line ":" !! 1%nat = Some field
                /\ EvalSymlinks env field = Ok dir
                /\ (pathLen v = 0 <-> dir = tmpDir)
                /\ (forall rel,
                      dir = tmpDir +:+ "/" +:+ rel -> is_relative rel = true ->
                      pathLen v = len (strings.Split rel "/"))
                /\ 0 <= pathLen v)
         (matching base (scanned env)) imports.
Proof.
  unfold getVanityPackages, check.
  destruct (TempDir env) as [tmpDir0|] eqn:Htmp; [|discriminate].
  destruct (EvalSymlinks env tmpDir0) as [tmpDir|] eqn:Hres; [|discriminate].
  destruct (git_clone env); [discriminate |].
  destruct (StdoutPipe env); [discriminate |].
  destruct (Start env); [discriminate |].
  destruct (scan_lines env tmpDir url base (scanned env) []) as [[found|]|] eqn:Hscan;
    try discriminate.
  destruct (scanner_Err env); [discriminate |].
  destruct (Wait env); [discriminate |].
  intros [= <-]. exists tmpDir0, tmpDir. split; [reflexivity |].
  split; [exact Hres |].
  apply scan_lines_paired in Hscan as (found' & -> & Hpairs). cbn [app].
  eapply Forall2_impl; [exact Hpairs |].
  intros line v Hline. cbv beta in Hline.
  destruct (scan_line_Matched _ _ _ _ _ _ Hline)
    as (_ & importPath & field & dir & Hfirst & Hfield & Hdir & ->).
  rewrite Split_first_field in Hfirst. injection Hfirst as <-.
  split; [reflexivity |]. exists field, dir.
  split; [exact Hfield |]. split; [exact Hdir |]. cbn [pathLen].
  destruct (String.eqb dir tmpDir) eqn:E; cbn [negb].
  - apply String.eqb_eq in E. split; [easy |]. split; [|lia].
    intros rel Hrel _. rewrite E in Hrel. symmetry in Hrel.
    now apply append_not_self in Hrel.
  - apply String.eqb_neq in E.
    pose proof (Split_length_pos
                  (filepath.ToSlash
                     (strings.TrimLeft (strings.TrimPrefix dir tmpDir) separators)) "/").
    unfold len. split; [split; [lia | easy] |]. split; [|lia].
    intros rel -> Hrel. now rewrite depth_below_root.
Qed.

Lemma getVanityPackages_depth_witness :
  let url := "https://github.com/vcabbage/go-tftp" in
  let imports := [ mkVanityImport "pack.ag/tftp" url 0;
                   mkVanityImport "pack.ag/tftp/netascii" url 1 ] in
  getVanityPackages example_env url "pack.ag" = Returns (Ok imports)
  /\ matching "pack.ag" (scanned example_env)
     = [ "pack.ag/tftp:/tmp/govanity1";
         "pack.ag/tftp/netascii:/tmp/govanity1/netascii" ]
  /\ exists tmpDir0 tmpDir,
      TempDir example_env = Ok tmpDir0
      /\ EvalSymlinks example_env tmpDir0 = Ok tmpDir
      /\ Forall2
           (fun line v =>
              Import v = first_field line
              /\ exists field dir,
                  strings.Split line ":" !! 1%nat = Some field
                  /\ EvalSymlinks example_env field = Ok dir
                  /\ (pathLen v = 0 <-> dir = tmpDir)
                  /\ (forall rel,
                        dir = tmpDir +:+ "/" +:+ rel -> is_relative rel = true ->
                        pathLen v = len (strings.Split rel "/"))
                  /\ 0 <= pathLen v)
           (matching "pack.ag" (scanned example_env)) imports.
Proof.
  cbv zeta.
  assert (Hget : getVanityPackages example_env "https://github.com/vcabbage/go-tftp"
                   "pack.ag"
                 = Returns (Ok [ mkVanityImport "pack.ag/tftp"
                                   "https://github.com/vcabbage/go-tftp" 0;
                                 mkVanityImport "pack.ag/tftp/netascii"
                                   "https://github.com/vcabbage/go-tftp" 1 ]))
    by (vm_compute; reflexivity).
  split; [exact Hget |]. split; [vm_compute; reflexivity |].
  exact (getVanityPackages_depth example_env _ _ _ Hget).
Defined.

(** C5 in the words of the specification does not hold for every
    directory.  Below the temporary directory [/tmp/govanity6], the package
    in the directory [y] of the directory whose name is a backslash has
    the relative path [\/y], of two segments, and is recorded with depth
    1: the backslash is cut off with the slashes.  And a directory that is
    not below the temporary directory is recorded with the number of
    segments of its absolute path. *)
Lemma getVanityPackages_depth_not_segments :
  let url := "https://github.com/o/r" in
  (let v := mkVanityImport "pack.ag/x/y" url 1 in
   let rel := "\/y" in
   getVanityPackages backslash_env url "pack.ag" = Returns (Ok [v])
   /\ "/tmp/govanity6/\/y" = "/tmp/govanity6" +:+ "/" +:+ rel
   /\ len (strings.Split (filepath.ToSlash rel) "/") = 2
   /\ pathLen v <> len (strings.Split (filepath.ToSlash rel) "/"))
  /\ (let v := mkVanityImport "pack.ag/x" url 2 in
      getVanityPackages outside_env url "pack.ag" = Returns (Ok [v])
      /\ (forall rel, "/srv/x" <> "/tmp/govanity7" +:+ "/" +:+ rel)
      /\ pathLen v = len (strings.Split "srv/x" "/")).
Proof.
  cbv zeta. repeat split; try (vm_compute; reflexivity).
  - vm_compute. discriminate.
  - intros rel H. vm_compute in H. discriminate.
Qed.

(** C6 (as amended): for every prefix without a colon, every package that
    [getVanityPackages] returns has an import path that starts with the
    prefix, and the line of a package whose import comment does not start
    with the prefix is skipped. *)
Theorem getVanityPackages_only_prefixed (env : RepoEnv) (url base : string) :
  strings.ContainsByte base ":" = false ->
  (forall imports v,
     getVanityPackages env url base = Returns (Ok imports) ->
     v ∈ imports -> strings.HasPrefix (Import v) base = true)
  /\ (forall tmpDir comment dir,
       strings.HasPrefix comment base = false ->
       scan_line env tmpDir url base (comment +:+ ":" +:+ dir) = Skipped).
Proof.
  intros Hcolon. split.
  - intros imports v Hget Hin.
    destruct (getVanityPackages_Ok _ _ _ _ Hget) as (tmpDir0 & tmpDir & _ & _ & ->).
    destruct (matched_of_elem _ _ _ _ _ _ Hin) as (line & _ & Hscan).
    destruct (scan_line_Matched _ _ _ _ _ _ Hscan)
      as (Hpre & importPath & field & dir & Hfirst & _ & _ & ->).
    destruct (HasPrefix_first_field base line Hcolon Hpre) as (hd & tl & Hsplit & Hhd).
    rewrite Hsplit in Hfirst. injection Hfirst as <-. exact Hhd.
  - intros tmpDir comment dir Hpre. unfold scan_line.
    destruct (strings.HasPrefix (comment +:+ ":" +:+ dir) base) eqn:Hline;
      [|reflexivity].
    rewrite (HasPrefix_of_line base comment dir Hcolon Hline) in Hpre.
    discriminate.
Qed.

Lemma getVanityPackages_only_prefixed_witness :
  strings.ContainsByte "pack.ag" ":" = false
  /\ (forall imports v,
       getVanityPackages example_env "https://github.com/vcabbage/go-tftp" "pack.ag"
       = Returns (Ok imports) ->
       v ∈ imports -> strings.HasPrefix (Import v) "pack.ag" = true)
  /\ (forall tmpDir comment dir,
       strings.HasPrefix comment "pack.ag" = false ->
       scan_line example_env tmpDir "https://github.com/vcabbage/go-tftp" "pack.ag"
         (comment +:+ ":" +:+ dir) = Skipped).
Proof.
  split; [reflexivity |].
  apply (getVanityPackages_only_prefixed example_env
           "https://github.com/vcabbage/go-tftp" "pack.ag").
  reflexivity.
Defined.

(** C6 in the words of the specification does not hold for a prefix with
    a colon: the prefix [pack.ag:] passes the validation of the
    configuration, the line of the package [pack.ag] starts with it, and
    the returned package has the import path [pack.ag], which does not
    start with the prefix. *)
Lemma getVanityPackages_colon_prefix :
  let url := "https://github.com/vcabbage/go-tftp" in
  (config_Parse (mkConfig "pack.ag:" None "vcabbage/go-tftp" [] "out"
                          EmptyString false)).2 = None
  /\ getVanityPackages root_env url "pack.ag:"
     = Returns (Ok [mkVanityImport "pack.ag" url 0])
  /\ strings.HasPrefix "pack.ag" "pack.ag:" = false.
Proof. cbv zeta. repeat split; vm_compute; reflexivity. Qed.

(** ** The output path of a page *)

Section CleanFacts.
Import strings.

Lemma normal_elem_nonempty (e : string) :
  filepath.normal_elem e = true -> url.nonempty e = true.
Proof. destruct e; [discriminate | reflexivity]. Qed.

Lemma normal_elem_no_sep (e : string) :
  filepath.normal_elem e = true -> ContainsByte e "/" = false.
Proof.
  unfold filepath.normal_elem. intros H. apply andb_true_iff in H as [_ H].
  now apply negb_true_iff in H.
Qed.

Lemma clean_step_empty (rooted : bool) (st : list string * nat) :
  filepath.clean_step rooted st EmptyString = st.
Proof. now destruct st. Qed.

Lemma clean_step_normal (rooted : bool) (out : list string) (dotdot : nat)
    (e : string) :
  filepath.normal_elem e = true -> filepath.clean_step rooted (out, dotdot) e = (e :: out, dotdot).
Proof.
  unfold filepath.normal_elem, filepath.clean_step. intros H.
  apply andb_true_iff in H as [H _]. apply andb_true_iff in H as [H Hdd].
  apply andb_true_iff in H as [Hne Hd].
  apply negb_true_iff in Hd, Hdd. rewrite Hd, Hdd.
  destruct e; [discriminate | reflexivity].
Qed.

(** The loop of [filepath.Clean] over empty and normal elements keeps the normal
    ones. *)
Lemma clean_fold_normal (rooted : bool) (es : list string) :
  Forall (fun e => e = EmptyString \/ filepath.normal_elem e = true) es ->
  forall out dotdot,
    fold_left (filepath.clean_step rooted) es (out, dotdot)
    = (rev (List.filter url.nonempty es) ++ out, dotdot).
Proof.
  induction 1 as [|e es He Hes IH]; intros out dotdot; [reflexivity |].
  cbn [fold_left List.filter]. destruct He as [->|He].
  - rewrite clean_step_empty. cbn [url.nonempty]. apply IH.
  - rewrite (clean_step_normal rooted out dotdot e He), IH.
    rewrite (normal_elem_nonempty e He). cbn [rev].
    now rewrite <- app_assoc.
Qed.

Lemma Clean_rooted (es : list string) :
  Forall (fun e => e = EmptyString \/ filepath.normal_elem e = true) es -> es <> [] ->
  filepath.Clean ("/" +:+ Join es "/") = "/" +:+ Join (List.filter url.nonempty es) "/".
Proof.
  intros Hes Hnil. rewrite append_cons, append_nil_l.
  cbn [filepath.Clean]. unfold filepath.Separator. rewrite Ascii.eqb_refl.
  replace (String "/" (Join es "/")) with (EmptyString +:+ String "/" (Join es "/"))
    by reflexivity.
  rewrite Split_app, Split_Join; [|  |assumption].
  - cbn [Split app fold_left]. rewrite clean_step_empty.
    rewrite (clean_fold_normal true es Hes).
    now rewrite app_nil_r, rev_involutive.
  - eapply Forall_impl; [exact Hes |].
    intros e [->|He]; [reflexivity | now apply normal_elem_no_sep].
Qed.

Lemma Clean_unrooted (e : string) (es : list string) :
  filepath.normal_elem e = true ->
  Forall (fun e => e = EmptyString \/ filepath.normal_elem e = true) es ->
  filepath.Clean (Join (e :: es) "/") = Join (List.filter url.nonempty (e :: es)) "/".
Proof.
  intros He Hes.
  assert (Hall : Forall (fun e => e = EmptyString \/ filepath.normal_elem e = true) (e :: es))
    by (constructor; [now right | assumption]).
  assert (Hsplit : Split (Join (e :: es) "/") "/" = e :: es).
  { apply Split_Join; [|easy].
    eapply Forall_impl; [exact Hall |].
    intros x [->|Hx]; [reflexivity | now apply normal_elem_no_sep]. }
  destruct e as [|c e']; [discriminate |].
  assert (Hc : Ascii.eqb c "/" = false).
  { apply normal_elem_no_sep in He. cbn [ContainsByte] in He.
    now apply orb_false_iff in He as [He _]. }
  assert (Hjoin : exists t, Join (String c e' :: es) "/" = String c t).
  { destruct es; [now exists e' |]. rewrite Join_cons by easy.
    rewrite append_cons. now eexists. }
  destruct Hjoin as [t Ht]. rewrite Ht in *. cbn [filepath.Clean].
  unfold filepath.Separator. rewrite Hc, Hsplit.
  rewrite (clean_fold_normal false _ Hall).
  rewrite app_nil_r, rev_involutive.
  cbn [List.filter url.nonempty].
  destruct (rev (String c e' :: List.filter url.nonempty es)) eqn:Hrev;
    [|reflexivity].
  apply (f_equal (@length string)) in Hrev. rewrite length_rev in Hrev.
  discriminate.
Qed.

Lemma filter_nonempty_normal (es : list string) :
  Forall (fun e => filepath.normal_elem e = true) es -> List.filter url.nonempty es = es.
Proof.
  induction 1 as [|e es He Hes IH]; [reflexivity |].
  cbn [List.filter]. now rewrite (normal_elem_nonempty e He), IH.
Qed.

(** [filepath.Join] of a clean directory and a slash followed by normal
    elements: the directory, then the elements, one slash between them. *)
Lemma filepath_Join_normal (rooted : bool) (ds rs : list string) :
  ds <> [] -> rs <> [] ->
  Forall (fun e => filepath.normal_elem e = true) ds ->
  Forall (fun e => filepath.normal_elem e = true) rs ->
  let D := (if rooted then "/" else EmptyString) +:+ strings.Join ds "/" in
  filepath.Join [D; "/" +:+ strings.Join rs "/"]
  = D +:+ "/" +:+ strings.Join rs "/".
Proof.
  intros Hds Hrs Hd Hr. cbv zeta.
  set (es := ds ++ EmptyString :: rs).
  assert (Hes : Forall (fun e => e = EmptyString \/ filepath.normal_elem e = true) es).
  { apply Forall_app. split; [eapply Forall_impl; [exact Hd | now right] |].
    constructor; [now left |]. eapply Forall_impl; [exact Hr | now right]. }
  assert (Hfilter : List.filter url.nonempty es = ds ++ rs).
  { unfold es. rewrite List.filter_app. cbn [List.filter url.nonempty].
    now rewrite !filter_nonempty_normal. }
  assert (Hjoin : strings.Join es "/"
                  = strings.Join ds "/" +:+ "/" +:+ "/" +:+ strings.Join rs "/").
  { unfold es. rewrite Join_app by easy. rewrite Join_cons by easy.
    now rewrite append_nil_l. }
  assert (Hhead : exists c t, strings.Join ds "/" = String c t).
  { destruct ds as [|d ds]; [easy |].
    assert (Hd1 : filepath.normal_elem d = true) by now inversion Hd.
    destruct d as [|c d']; [discriminate |]. destruct ds; [now exists c, d' |].
    rewrite Join_cons by easy. rewrite append_cons. now eexists _, _. }
  destruct Hhead as (c & t & Hhead).
  assert (Hflat : forall D,
             strings.Join [D; "/" +:+ strings.Join rs "/"] "/"
             = D +:+ "/" +:+ "/" +:+ strings.Join rs "/") by reflexivity.
  destruct rooted.
  - rewrite append_cons, append_nil_l. cbn [filepath.Join].
    rewrite Hflat, append_cons, <- Hjoin.
    replace (String "/" (strings.Join es "/")) with ("/" +:+ strings.Join es "/")
      by reflexivity.
    rewrite Clean_rooted, Hfilter by (try assumption; now destruct ds).
    rewrite Join_app by easy. now rewrite append_cons, !append_nil_l.
  - rewrite append_nil_l. rewrite Hhead at 1. cbn [filepath.Join].
    rewrite <- Hhead, Hflat, <- Hjoin.
    destruct ds as [|d ds]; [easy |].
    unfold es in *. change ((d :: ds) ++ EmptyString :: rs)
      with (d :: (ds ++ EmptyString :: rs)) in *.
    rewrite Clean_unrooted; [| now inversion Hd | now inversion Hes].
    rewrite Hfilter. now rewrite Join_app by easy.
Qed.

(** An element other than [..] is kept by the loop of [filepath.Clean]
    when it is neither empty nor [.], and dropped otherwise. *)
Lemma clean_step_kept (rooted : bool) (out : list string) (dotdot : nat)
    (e : string) :
  e <> ".." -> ContainsByte e "/" = false ->
  filepath.clean_step rooted (out, dotdot) e
  = (if filepath.normal_elem e then e :: out else out, dotdot).
Proof.
  intros Hup Hsep. unfold filepath.clean_step, filepath.normal_elem.
  unfold filepath.Separator. rewrite Hsep. cbn [negb]. rewrite andb_true_r.
  destruct (String.eqb_spec e "..") as [->|_]; [easy |].
  destruct (String.eqb_spec e ".") as [->|_]; [reflexivity |].
  destruct e as [|c e]; reflexivity.
Qed.

Lemma clean_fold_kept (rooted : bool) (es : list string) :
  Forall (fun e => e <> ".." /\ ContainsByte e "/" = false) es ->
  forall out dotdot,
    fold_left (filepath.clean_step rooted) es (out, dotdot)
    = (rev (List.filter filepath.normal_elem es) ++ out, dotdot).
Proof.
  induction 1 as [|e es [Hup Hsep] Hes IH]; intros out dotdot; [reflexivity |].
  cbn [fold_left List.filter]. rewrite (clean_step_kept rooted out dotdot e Hup Hsep).
  destruct (filepath.normal_elem e); rewrite IH; [|reflexivity].
  cbn [rev]. now rewrite <- app_assoc.
Qed.

(** [filepath.Clean] of a path without [..] elements. *)
Lemma Clean_kept (c : ascii) (t : string) :
  Forall (fun e => e <> "..") (Split (String c t) "/") ->
  filepath.Clean (String c t)
  = if Ascii.eqb c "/"
    then "/" +:+ Join (List.filter filepath.normal_elem (Split (String c t) "/")) "/"
    else match List.filter filepath.normal_elem (Split (String c t) "/") with
         | [] => "."
         | kept => Join kept "/"
         end.
Proof.
  intros Hup.
  assert (Hes : Forall (fun e => e <> ".." /\ ContainsByte e "/" = false)
                       (Split (String c t) "/")).
  { apply List.Forall_forall. intros e Hin. split.
    - rewrite List.Forall_forall in Hup. now apply Hup.
    - pose proof (Split_elems_no_sep (String c t) "/") as Hno.
      rewrite List.Forall_forall in Hno. now apply Hno. }
  set (es := Split (String c t) "/") in *.
  cbn [filepath.Clean]. unfold filepath.Separator. fold es.
  rewrite (clean_fold_kept _ es Hes), app_nil_r, rev_involutive.
  destruct (Ascii.eqb c "/"); [reflexivity |].
  destruct (List.filter filepath.normal_elem es) as [|e kept] eqn:Hkept;
    [reflexivity |].
  destruct (rev (e :: kept)) eqn:Hrev; [|reflexivity].
  apply (f_equal (@length string)) in Hrev. rewrite length_rev in Hrev.
  discriminate.
Qed.

(** [filepath.Join] of a directory and a rest without [..] elements. *)
Lemma filepath_Join_kept (dir rest : string) :
  Forall (fun e => e <> "..") (Split dir "/" ++ Split rest "/") ->
  filepath.Join [dir; rest] = joined_elements dir rest.
Proof.
  intros Hup. unfold joined_elements, kept_elements.
  destruct dir as [|c dir].
  - rewrite append_nil_l. cbn [Split app] in *.
    destruct rest as [|c rest]; [reflexivity |].
    change (filepath.Join [EmptyString; String c rest])
      with (filepath.Clean (String c rest)).
    rewrite Clean_kept by now inversion Hup.
    cbn [url.nonempty negb HasPrefix List.filter filepath.normal_elem andb].
    destruct (Ascii.eqb c "/"); [reflexivity |].
    now destruct (List.filter filepath.normal_elem (Split (String c rest) "/")).
  - change (filepath.Join [String c dir; rest])
      with (filepath.Clean (String c dir +:+ String "/" rest)).
    rewrite <- (Split_app (String c dir) rest "/") in *.
    rewrite !append_cons in *. rewrite Clean_kept by assumption.
    cbn [url.nonempty negb HasPrefix].
    destruct (Ascii.eqb c "/"); [reflexivity |].
    now destruct (List.filter filepath.normal_elem
                    (Split (String c (dir +:+ String "/" rest)) "/")).
Qed.

End CleanFacts.

(** C7 (as amended): for a package whose import path is the prefix [B]
    followed by [rest], and an output directory [D], when no path element
    of [D] or of [rest] is [..], the output path is made of the elements
    of [D] and of [rest] that are neither empty nor [.], in order, with
    one slash between them (and one in front when [D], or [rest] when [D]
    is empty, starts with a slash), followed by [.html].  So the
    separators stay as they are when [D] is made of normal elements and
    [rest] is a slash followed by normal elements: the path is then [D],
    [rest] and [.html] one after the other. *)
Theorem htmlPath_strips_prefix (B rest D repo : string) (d : Z) :
  (Forall (fun e => e <> "..") (strings.Split D "/" ++ strings.Split rest "/") ->
   htmlPath (mkVanityImport (B +:+ rest) repo d) B D
   = joined_elements D rest +:+ ".html")
  /\ (forall (rooted : bool) (ds rs : list string),
       ds <> [] -> rs <> [] ->
       Forall (fun e => filepath.normal_elem e = true) ds ->
       Forall (fun e => filepath.normal_elem e = true) rs ->
       D = (if rooted then "/" else EmptyString) +:+ strings.Join ds "/" ->
       rest = "/" +:+ strings.Join rs "/" ->
       htmlPath (mkVanityImport (B +:+ rest) repo d) B D
       = D +:+ rest +:+ ".html").
Proof.
  unfold htmlPath. cbn [Import]. rewrite TrimPrefix_app. split.
  - intros Hup. now rewrite (filepath_Join_kept D rest Hup).
  - intros rooted ds rs Hds Hrs Hd Hr -> ->.
    rewrite (filepath_Join_normal rooted ds rs Hds Hrs Hd Hr).
    now rewrite !append_assoc.
Qed.

Lemma htmlPath_strips_prefix_witness :
  (Forall (fun e => e <> "..")
          (strings.Split "out" "/" ++ strings.Split "repo//sub/" "/")
   /\ htmlPath (mkVanityImport "example.com/repo//sub/" "https://github.com/o/repo" 1)
               "example.com/" "out"
      = "out/repo/sub.html")
  /\ htmlPath (mkVanityImport "example.com/repo/sub" "https://github.com/o/repo" 1)
              "example.com" "/srv/www"
     = "/srv/www/repo/sub.html".
Proof.
  assert (Hup : Forall (fun e => e <> "..")
                       (strings.Split "out" "/" ++ strings.Split "repo//sub/" "/"))
    by (repeat constructor; discriminate).
  split.
  - split; [exact Hup |].
    exact (proj1 (htmlPath_strips_prefix "example.com/" "repo//sub/" "out"
                    "https://github.com/o/repo" 1) Hup).
  - apply (proj2 (htmlPath_strips_prefix "example.com" "/repo/sub" "/srv/www"
                    "https://github.com/o/repo" 1) true ["srv"; "www"] ["repo"; "sub"]);
      try easy; repeat constructor.
Defined.

(** C7 in the words of the specification does not hold for every import
    path: two slashes in a row become one, and the elements [..] lead out
    of the output directory. *)
Lemma htmlPath_cleans_import_path :
  (htmlPath (mkVanityImport "example.com/repo//sub" "https://github.com/o/repo" 1)
            "example.com" "out"
   = "out/repo/sub.html"
   /\ "out" +:+ "/repo//sub" +:+ ".html" = "out/repo//sub.html")
  /\ htmlPath (mkVanityImport "example.com/../../etc/motd" "https://github.com/o/repo" 3)
              "example.com" "out"
     = "../etc/motd.html".
Proof. repeat split; vm_compute; reflexivity. Qed.

(** ** The repository enumerator *)

Section EnumeratorFacts.
Import strings.

Lemma sort_entries (search : list string) :
  forall repoURLs searchRepos usernames,
    fold_left sort_entry search (repoURLs, searchRepos, usernames)
    = (repoURLs ++ map explicit_url (List.filter is_explicit search),
       list_to_set (List.filter is_explicit search) ∪ searchRepos,
       usernames ++ List.filter is_owner search).
Proof.
  induction search as [|v search IH]; intros repoURLs searchRepos usernames.
  - cbn. rewrite !app_nil_r. f_equal. f_equal. now rewrite (left_id_L ∅ (∪)).
  - cbn [fold_left List.filter]. unfold sort_entry at 2, is_owner.
    fold (is_explicit v). destruct (is_explicit v); cbn [negb map].
    + rewrite IH. rewrite <- app_assoc. f_equal. f_equal.
      rewrite list_to_set_cons.
      rewrite (comm_L (∪) {[v]} (list_to_set _)). now rewrite (assoc_L (∪)).
    + rewrite IH. now rewrite <- app_assoc.
Qed.

Lemma consider_repo_urls (gh : GitHub) (searchRepos : gset string)
    (username : string) (repoURLs : list string) (log : list event)
    (repo : Repository) :
  (consider_repo gh searchRepos username (repoURLs, log) repo).1
  = repoURLs ++ (if scan_includes gh searchRepos username repo
                 then [SVNURL repo] else []).
Proof.
  unfold consider_repo, scan_includes, has_go.
  destruct (bool_decide (username +:+ "/" +:+ Name repo ∈ searchRepos));
    cbn [negb andb fst]; [now rewrite app_nil_r |].
  destruct (Fork repo); cbn [negb andb fst]; [now rewrite app_nil_r |].
  destruct (String.eqb (Language repo) "Go"); cbn [orb fst]; [reflexivity |].
  destruct (Repositories_ListLanguages gh username (Name repo)) as [languages|e];
    cbn [fst]; [|now rewrite app_nil_r].
  destruct (languages !! "Go") as [n|] eqn:Hgo; cbn [fst].
  - rewrite bool_decide_eq_true_2; [reflexivity | now exists n].
  - rewrite bool_decide_eq_false_2; [now rewrite app_nil_r |].
    intros [n Hn]. discriminate.
Qed.

Lemma consider_repos_urls (gh : GitHub) (searchRepos : gset string)
    (username : string) (repos : list Repository) :
  forall st,
    (fold_left (consider_repo gh searchRepos username) repos st).1
    = st.1 ++ map SVNURL (List.filter (scan_includes gh searchRepos username) repos).
Proof.
  induction repos as [|repo repos IH]; intros [repoURLs log].
  - cbn. now rewrite app_nil_r.
  - cbn [fold_left List.filter]. rewrite IH.
    destruct (consider_repo gh searchRepos username (repoURLs, log) repo)
      as [repoURLs' log'] eqn:Hstep.
    pose proof (consider_repo_urls gh searchRepos username repoURLs log repo) as H.
    rewrite Hstep in H. cbn [fst] in *. rewrite H.
    destruct (scan_includes gh searchRepos username repo); cbn [map].
    + now rewrite <- app_assoc.
    + now rewrite app_nil_r.
Qed.

Lemma scan_user_urls (gh : GitHub) (searchRepos : gset string)
    (st : list string * list event) (username : string) :
  (scan_user gh searchRepos st username).1
  = st.1 ++ scanned_urls gh searchRepos username.
Proof.
  unfold scan_user, scanned_urls.
  destruct (Repositories_List gh username) as [repos|e]; cbn [fst].
  - apply consider_repos_urls.
  - now rewrite app_nil_r.
Qed.

Lemma scan_users_urls (gh : GitHub) (searchRepos : gset string)
    (usernames : list string) :
  forall st,
    (fold_left (scan_user gh searchRepos) usernames st).1
    = st.1 ++ flat_map (scanned_urls gh searchRepos) usernames.
Proof.
  induction usernames as [|username usernames IH]; intros st.
  - cbn. now rewrite app_nil_r.
  - cbn [fold_left flat_map]. rewrite IH, scan_user_urls.
    now rewrite <- app_assoc.
Qed.

(** The URLs that the enumeration returns. *)
Lemma getPotentialRepos_urls (gh : GitHub) (search : list string) :
  (getPotentialRepos gh search).1
  = map explicit_url (List.filter is_explicit search)
    ++ flat_map (scanned_urls gh (list_to_set (List.filter is_explicit search)))
         (List.filter is_owner search).
Proof.
  unfold getPotentialRepos. rewrite sort_entries.
  rewrite scan_users_urls. cbn [fst app].
  now rewrite (right_id_L ∅ (∪)).
Qed.

Lemma ContainsByte_app (a b : string) (c : ascii) :
  ContainsByte (a +:+ b) c = ContainsByte a c || ContainsByte b c.
Proof.
  induction a as [|x a IH]; [reflexivity |].
  rewrite append_cons. cbn [ContainsByte]. now rewrite IH, orb_assoc.
Qed.

Lemma full_name_is_explicit (username repoName : string) :
  is_explicit (username +:+ "/" +:+ repoName) = true.
Proof.
  unfold is_explicit, ContainsRune. rewrite ContainsByte_app.
  rewrite append_cons. cbn [ContainsByte]. rewrite Ascii.eqb_refl.
  now rewrite orb_true_r.
Qed.

End EnumeratorFacts.

(** C8: the enumeration returns the clone URL of every search entry with a
    slash, followed by the URLs that the scans of the owner names include;
    a scan includes no fork and no repository that the search list names as
    [owner/repository]. *)
Theorem getPotentialRepos_policy (gh : GitHub) (search : list string) :
  let repoURLs := (getPotentialRepos gh search).1 in
  let explicit := List.filter is_explicit search in
  repoURLs = map explicit_url explicit
             ++ flat_map (scanned_urls gh (list_to_set explicit))
                  (List.filter is_owner search)
  /\ (forall v, v ∈ search -> strings.ContainsRune v "/" = true ->
       "https://github.com/" +:+ v ∈ repoURLs)
  /\ (forall username repo,
       scan_includes gh (list_to_set explicit) username repo = true ->
       Fork repo = false /\ username +:+ "/" +:+ Name repo ∉ search).
Proof.
  cbv zeta. split; [apply getPotentialRepos_urls |]. split.
  - intros v Hin Hslash. rewrite getPotentialRepos_urls.
    apply list_elem_of_In, in_or_app. left.
    apply (in_map explicit_url), filter_In.
    split; [now apply list_elem_of_In | exact Hslash].
  - intros username repo H. unfold scan_includes in H.
    apply andb_true_iff in H as [H _]. apply andb_true_iff in H as [Hlisted Hfork].
    apply negb_true_iff in Hlisted, Hfork. split; [exact Hfork |].
    apply bool_decide_eq_false in Hlisted. intros Hin. apply Hlisted.
    apply elem_of_list_to_set, list_elem_of_In, filter_In.
    split; [now apply list_elem_of_In | apply full_name_is_explicit].
Qed.

Lemma getPotentialRepos_policy_witness :
  (getPotentialRepos example_github example_search).1
  = [ "https://github.com/alice/listed"; "https://github.com/bob/explicit-repo";
      "https://github.com/alice/tool" ]
  /\ "https://github.com/bob/explicit-repo"
     ∈ (getPotentialRepos example_github example_search).1.
Proof.
  destruct (getPotentialRepos_policy example_github example_search)
    as (Hurls & Hexplicit & _).
  split.
  - rewrite Hurls. vm_compute. reflexivity.
  - apply (Hexplicit "bob/explicit-repo"); [|reflexivity].
    apply list_elem_of_In. simpl. auto.
Defined.

(** ** Configuration *)

Lemma config_Parse_empty_prefix (cfg : config) :
  prefix cfg = EmptyString ->
  (config_Parse cfg).2 = Some "must provide vanity URL prefix".
Proof. intros H. unfold config_Parse. now rewrite H. Qed.

Lemma config_Parse_empty_search (cfg : config) :
  search cfg = EmptyString -> (config_Parse cfg).2 <> None.
Proof.
  intros H. unfold config_Parse.
  destruct (url.nonempty (prefix cfg)); [|easy]. cbn [negb].
  destruct (url.Parse ("//" +:+ prefix cfg)); [|easy].
  cbn [set_prefixURL search]. now rewrite H.
Qed.



(** C9 fails on the code: with a prefix and a search list but an empty
    output directory the validation returns no error, and [configuration]
    hands the settings to the run. *)
Theorem config_Parse_accepts_empty_out :
  let cfg := mkConfig "pack.ag" None "vcabbage/go-tftp" [] EmptyString
                      EmptyString false in
  out cfg = EmptyString
  /\ (config_Parse cfg).2 = None
  /\ forall gh env files,
       exists cfg',
         configuration (mkWorld 2 FlagsParsed cfg gh env files) = inr (cfg', None).
Proof.
  cbv zeta. split; [reflexivity |]. split; [vm_compute; reflexivity |].
  intros gh env files. eexists. unfold configuration.
  cbn [os_Args flag_Parse flags Nat.ltb Nat.leb]. vm_compute. reflexivity.
Qed.

(** ** The run *)

Section RunFacts.

Lemma omap_enum_events {A} (f : event -> option A) (log : list event) :
  (forall ev, enum_event ev = true -> f ev = None) ->
  Forall (fun ev => enum_event ev = true) log -> omap f log = [].
Proof.
  intros Hf. induction 1 as [|ev log Hev Hlog IH]; [reflexivity |].
  cbn [omap list_omap]. now rewrite (Hf ev Hev), IH.
Qed.

Lemma consider_repo_log (gh : GitHub) (searchRepos : gset string)
    (username : string) (st : list string * list event) (repo : Repository) :
  Forall (fun ev => enum_event ev = true) st.2 ->
  Forall (fun ev => enum_event ev = true)
         (consider_repo gh searchRepos username st repo).2.
Proof.
  destruct st as [repoURLs log]. cbn [snd]. intros Hlog. unfold consider_repo.
  repeat match goal with
         | |- context [if ?b then _ else _] => destruct b
         | |- context [match ?x with _ => _ end] => destruct x
         end;
    cbn [snd]; try assumption;
    apply Forall_app; (split; [assumption | now repeat constructor]).
Qed.

Lemma fold_left_invariant {S X} (P : S -> Prop) (f : S -> X -> S) (l : list X) :
  (forall s x, P s -> P (f s x)) -> forall s, P s -> P (fold_left f l s).
Proof.
  intros Hstep. induction l as [|x l IH]; intros s Hs; [exact Hs |].
  cbn [fold_left]. apply IH, Hstep, Hs.
Qed.

Lemma scan_user_log (gh : GitHub) (searchRepos : gset string)
    (st : list string * list event) (username : string) :
  Forall (fun ev => enum_event ev = true) st.2 ->
  Forall (fun ev => enum_event ev = true) (scan_user gh searchRepos st username).2.
Proof.
  intros Hlog. unfold scan_user.
  destruct (Repositories_List gh username) as [repos|e].
  - apply (fold_left_invariant
             (fun st => Forall (fun ev => enum_event ev = true) st.2));
      [|exact Hlog].
    intros s repo. apply consider_repo_log.
  - cbn [snd]. apply Forall_app. split; [assumption | now repeat constructor].
Qed.

Lemma getPotentialRepos_log (gh : GitHub) (search : list string) :
  Forall (fun ev => enum_event ev = true) (getPotentialRepos gh search).2.
Proof.
  unfold getPotentialRepos.
  destruct (fold_left sort_entry search ([], ∅, [])) as [[repoURLs searchRepos] usernames].
  apply (fold_left_invariant
           (fun st => Forall (fun ev => enum_event ev = true) st.2)).
  - intros s username. apply scan_user_log.
  - constructor.
Qed.

Lemma extracted_cons (w : World) (base repo : string) (repoURLs : list string) :
  extracted w base (repo :: repoURLs)
  = match extraction w base repo with
    | Returns (Ok packages) => packages
    | _ => []
    end ++ extracted w base repoURLs.
Proof. reflexivity. Qed.

Lemma failures_cons (w : World) (base repo : string) (repoURLs : list string) :
  failures w base (repo :: repoURLs)
  = match extraction w base repo with
    | Returns (Err e) => [e]
    | _ => []
    end ++ failures w base repoURLs.
Proof.
  unfold failures. cbn [omap list_omap].
  now destruct (extraction w base repo) as [[packages|e]|msg].
Qed.

Lemma omap_found {A} (f : event -> option A) (packages : list vanityImport) :
  (forall import repoURL, f (PrintFound import repoURL) = None) ->
  omap f (map (fun pkg => PrintFound (Import pkg) (RepoURL pkg)) packages) = [].
Proof.
  intros Hf. induction packages as [|pkg packages IH]; [reflexivity |].
  cbn [map omap list_omap]. now rewrite Hf, IH.
Qed.

(** The loop over the repositories: every repository is announced, every
    failure is reported, and the packages of the others are collected. *)
Lemma pull_all_collects (w : World) (base : string) (repoURLs : list string) :
  (forall repo, repo ∈ repoURLs -> returns (extraction w base repo) = true) ->
  forall imports log,
  exists log',
    pull_all w base repoURLs (imports, log)
    = (Returns (imports ++ extracted w base repoURLs), log')
    /\ pulled log' = pulled log ++ repoURLs
    /\ reported log' = reported log ++ failures w base repoURLs
    /\ attempted log' = attempted log
    /\ rendered log' = rendered log.
Proof.
  induction repoURLs as [|repo repoURLs IH]; intros Hret imports log.
  - exists log. cbn [pull_all fst snd]. unfold extracted, failures. cbn.
    now rewrite !app_nil_r.
  - assert (Hrepo : returns (extraction w base repo) = true)
      by (apply Hret, list_elem_of_here).
    assert (Hrest : forall r, r ∈ repoURLs -> returns (extraction w base r) = true)
      by (intros r Hr; apply Hret, list_elem_of_further, Hr).
    cbn [pull_all]. unfold pull. fold (extraction w base repo).
    rewrite extracted_cons, failures_cons.
    destruct (extraction w base repo) as [[packages|e]|msg]; [| |discriminate].
    + destruct (IH Hrest (imports ++ packages)
                  ((log ++ [PrintPulling repo])
                     ++ map (fun pkg => PrintFound (Import pkg) (RepoURL pkg)) packages
                     ++ [PrintCount (len packages)]))
        as (log' & Hpull & Hp & Hr & Ha & Hd).
      exists log'. rewrite Hpull, Hp, Hr, Ha, Hd.
      unfold pulled, reported, attempted, rendered.
      rewrite !omap_app, !omap_found by reflexivity. cbn [omap list_omap pulled_event
        reported_event attempted_event rendered_event app].
      rewrite !app_nil_r, <- !app_assoc. now cbn [app].
    + destruct (IH Hrest imports ((log ++ [PrintPulling repo]) ++ [PrintError e]))
        as (log' & Hpull & Hp & Hr & Ha & Hd).
      exists log'. rewrite Hpull, Hp, Hr, Ha, Hd.
      unfold pulled, reported, attempted, rendered.
      rewrite !omap_app. cbn [omap list_omap pulled_event reported_event
        attempted_event rendered_event app].
      rewrite !app_nil_r, <- !app_assoc. now cbn [app].
Qed.



End RunFacts.

Lemma configuration_parsed (w : World) (cfg : config) (err : option error) :
  configuration w = inr (cfg, err) -> config_Parse (flags w) = (cfg, err).
Proof.
  unfold configuration. destruct (os_Args w <? 2)%nat; [discriminate |].
  destruct (flag_Parse w); try discriminate. now intros [= ->].
Qed.


Lemma example_repos_enumerated :
  (getPotentialRepos (github (example_world None)) (searchList example_config)).1
  = example_repos.
Proof. vm_compute. reflexivity. Qed.



(** * Further properties *)

(** ** The import-prefix calculator, continued *)

Section MoreImportPrefixFacts.
Import strings url.

Lemma HasPrefix_trans (s q p : string) :
  HasPrefix s q = true -> HasPrefix q p = true -> HasPrefix s p = true.
Proof.
  rewrite !HasPrefix_true_iff. intros [r ->] [r' ->].
  exists (r' +:+ r). now rewrite append_assoc.
Qed.

(** The value of the calculator on a plain import path. *)
Lemma ImportPrefix_plain_value (P repo : string) (d : Z) :
  plain P = true -> HasPrefix P "//" = false ->
  fits_int (len (Split P "/")) ->
  0 <= d <= len (Split P "/") ->
  ImportPrefix (mkVanityImport P repo d)
  = Returns (Join (take (Z.to_nat (len (Split P "/") - d)) (Split P "/")) "/").
Proof.
  intros Hplain Hauth Hn Hd.
  assert (Hsub : int_sub (len (Split P "/")) d = len (Split P "/") - d)
    by (apply wrap64_fits; unfold fits_int in *; lia).
  rewrite ImportPrefix_plain_kept by (try assumption; rewrite Hsub; lia).
  rewrite Hsub. f_equal. apply URL_String_plain, plain_kept, Hplain.
Qed.

Lemma kept_is_prefix (P : string) (k : nat) :
  HasPrefix P (Join (take k (Split P "/")) "/") = true.
Proof.
  apply HasPrefix_true_iff.
  destruct (Join_take_prefix (Split P "/") "/" k) as [r Hr].
  exists r. now rewrite <- Hr, (Join_Split P "/").
Qed.

End MoreImportPrefixFacts.

(** X1: on an import path that parses, [ImportPrefix] returns the URL with
    the kept segments when the depth is between 0 and the number of
    segments of the path, and panics with a slice-bounds error at every
    other depth, negative ones included. *)
Theorem ImportPrefix_in_and_out_of_range (i : vanityImport) (u : url.URL) :
  url.Parse (Import i) = Ok u ->
  fits_int (pathLen i) ->
  fits_int (len (strings.Split (url.Path u) "/")) ->
  let segments := strings.Split (url.Path u) "/" in
  (0 <= pathLen i <= len segments ->
   ImportPrefix i
   = Returns (url.URL_String
                (url.with_Path u
                   (strings.Join (take (Z.to_nat (len segments - pathLen i)) segments)
                                 "/"))))
  /\ (~ 0 <= pathLen i <= len segments ->
      ImportPrefix i = Panics "runtime error: slice bounds out of range").
Proof.
  intros Hparse Hd Hn. cbv zeta.
  rewrite (ImportPrefix_parsed i u Hparse). cbv zeta.
  set (segments := strings.Split (url.Path u) "/") in *.
  assert (Hpos : 0 <= len segments) by (unfold len; lia).
  unfold fits_int in *. split.
  - intros Hin. unfold int_sub.
    rewrite wrap64_fits by (unfold fits_int; lia).
    now rewrite slice_to_ok by lia.
  - intros Hout. unfold slice_to, int_sub.
    destruct (Z_lt_le_dec (len segments - pathLen i) (2 ^ 63)) as [Hlt|Hge].
    + rewrite wrap64_fits by (unfold fits_int; lia).
      destruct (Z.leb_spec 0 (len segments - pathLen i));
        destruct (Z.leb_spec (len segments - pathLen i) (len segments));
        cbn [andb]; try reflexivity; lia.
    + pose proof (wrap64_above (len segments - pathLen i) ltac:(lia)) as Hneg.
      destruct (Z.leb_spec 0 (wrap64 (len segments - pathLen i)));
        [lia | reflexivity].
Qed.

Lemma ImportPrefix_in_and_out_of_range_witness :
  let i := mkVanityImport "pack.ag/tftp/netascii" "https://github.com/o/r" (-1) in
  let u := url.with_Path url.zero "pack.ag/tftp/netascii" in
  url.Parse (Import i) = Ok u
  /\ fits_int (pathLen i)
  /\ fits_int (len (strings.Split (url.Path u) "/"))
  /\ ~ 0 <= pathLen i <= len (strings.Split (url.Path u) "/")
  /\ ImportPrefix i = Panics "runtime error: slice bounds out of range".
Proof.
  cbv zeta.
  assert (Hd : fits_int (-1)) by (unfold fits_int; lia).
  assert (Hn : fits_int (len (strings.Split "pack.ag/tftp/netascii" "/")))
    by (unfold fits_int; vm_compute; split; [discriminate | reflexivity]).
  assert (Hout : ~ 0 <= -1 <= len (strings.Split "pack.ag/tftp/netascii" "/"))
    by lia.
  repeat (split; [first [reflexivity | exact Hd | exact Hn | exact Hout] |]).
  exact (proj2 (ImportPrefix_in_and_out_of_range
                  (mkVanityImport "pack.ag/tftp/netascii" "https://github.com/o/r" (-1))
                  (url.with_Path url.zero "pack.ag/tftp/netascii")
                  eq_refl Hd Hn) Hout).
Defined.

(** X2: on a plain import path and a depth within its segments, the import
    prefix that [ImportPrefix] returns is a prefix of the import path. *)
Theorem ImportPrefix_is_prefix_of_import (P repo : string) (d : Z) :
  url.plain P = true ->
  strings.HasPrefix P "//" = false ->
  fits_int (len (strings.Split P "/")) ->
  0 <= d <= len (strings.Split P "/") ->
  exists q,
    ImportPrefix (mkVanityImport P repo d) = Returns q
    /\ strings.HasPrefix P q = true.
Proof.
  intros Hplain Hauth Hn Hd. eexists. split.
  - now apply ImportPrefix_plain_value.
  - apply kept_is_prefix.
Qed.

Lemma ImportPrefix_is_prefix_of_import_witness :
  let P := "pack.ag/tftp/netascii" in
  url.plain P = true
  /\ strings.HasPrefix P "//" = false
  /\ fits_int (len (strings.Split P "/"))
  /\ 0 <= 1 <= len (strings.Split P "/")
  /\ exists q,
      ImportPrefix (mkVanityImport P "https://github.com/o/r" 1) = Returns q
      /\ strings.HasPrefix P q = true.
Proof.
  cbv zeta.
  assert (Hn : fits_int (len (strings.Split "pack.ag/tftp/netascii" "/")))
    by (unfold fits_int; vm_compute; split; [discriminate | reflexivity]).
  assert (Hd : 0 <= 1 <= len (strings.Split "pack.ag/tftp/netascii" "/"))
    by (vm_compute; split; discriminate).
  repeat (split; [first [reflexivity | exact Hn | exact Hd] |]).
  exact (ImportPrefix_is_prefix_of_import "pack.ag/tftp/netascii"
           "https://github.com/o/r" 1 eq_refl eq_refl Hn Hd).
Defined.

(** X3: on a plain import path, calculating the prefix at depth [d1] (less
    than the number of segments) and then the prefix of the result at depth
    [d2] gives what the calculation at depth [d1 + d2] gives. *)
Theorem ImportPrefix_composes (P repo : string) (d1 d2 : Z) :
  url.plain P = true ->
  strings.HasPrefix P "//" = false ->
  fits_int (len (strings.Split P "/")) ->
  0 <= d1 < len (strings.Split P "/") ->
  0 <= d2 ->
  d1 + d2 <= len (strings.Split P "/") ->
  exists q,
    ImportPrefix (mkVanityImport P repo d1) = Returns q
    /\ ImportPrefix (mkVanityImport q repo d2)
       = ImportPrefix (mkVanityImport P repo (d1 + d2)).
Proof.
  intros Hplain Hauth Hn Hd1 Hd2 Hsum.
  pose proof (ImportPrefix_plain_value P repo d1 Hplain Hauth Hn ltac:(lia)) as H1.
  pose proof (ImportPrefix_plain_value P repo (d1 + d2) Hplain Hauth Hn ltac:(lia))
    as H12.
  remember (strings.Split P "/") as segments eqn:Hseg.
  remember (Z.to_nat (len segments - d1)) as k eqn:Hk.
  remember (strings.Join (take k segments) "/") as q eqn:Hq.
  assert (Hrange : (1 <= k <= length segments)%nat) by (unfold len in *; lia).
  assert (Hsplit : strings.Split q "/" = take k segments).
  { rewrite Hq. apply (Split_Join (take k segments) "/").
    - rewrite Hseg. apply Forall_take, Split_elems_no_sep.
    - intros Hnil. apply (f_equal (@length string)) in Hnil.
      rewrite length_take in Hnil. cbn in Hnil. lia. }
  assert (Hlen : len (strings.Split q "/") = len segments - d1).
  { rewrite Hsplit. unfold len in *. rewrite length_take. lia. }
  assert (Hprefix : strings.HasPrefix P q = true)
    by (rewrite Hq, Hseg; apply kept_is_prefix).
  exists q. split; [exact H1 |].
  rewrite H12, ImportPrefix_plain_value.
  - rewrite Hlen, Hsplit, take_take. do 3 f_equal. unfold len in *. lia.
  - rewrite Hq, Hseg. apply plain_kept, Hplain.
  - destruct (strings.HasPrefix q "//") eqn:Hslash; [|reflexivity].
    rewrite <- Hauth. symmetry. now apply (HasPrefix_trans P q "//").
  - rewrite Hlen. unfold fits_int, len in *. lia.
  - rewrite Hlen. lia.
Qed.

Lemma ImportPrefix_composes_witness :
  let P := "example.com/org/repo/sub/pkg" in
  url.plain P = true
  /\ strings.HasPrefix P "//" = false
  /\ fits_int (len (strings.Split P "/"))
  /\ 0 <= 1 < len (strings.Split P "/")
  /\ 0 <= 1
  /\ 1 + 1 <= len (strings.Split P "/")
  /\ exists q,
      ImportPrefix (mkVanityImport P "https://github.com/org/repo" 1) = Returns q
      /\ ImportPrefix (mkVanityImport q "https://github.com/org/repo" 1)
         = ImportPrefix (mkVanityImport P "https://github.com/org/repo" (1 + 1)).
Proof.
  cbv zeta.
  assert (Hn : fits_int (len (strings.Split "example.com/org/repo/sub/pkg" "/")))
    by (unfold fits_int; vm_compute; split; [discriminate | reflexivity]).
  assert (Hd1 : 0 <= 1 < len (strings.Split "example.com/org/repo/sub/pkg" "/"))
    by (vm_compute; split; [discriminate | reflexivity]).
  assert (Hd2 : 0 <= 1) by lia.
  assert (Hsum : 1 + 1 <= len (strings.Split "example.com/org/repo/sub/pkg" "/"))
    by (vm_compute; discriminate).
  repeat (split; [first [reflexivity | exact Hn | exact Hd1 | exact Hd2 | exact Hsum] |]).
  exact (ImportPrefix_composes "example.com/org/repo/sub/pkg"
           "https://github.com/org/repo" 1 1 eq_refl eq_refl Hn Hd1 Hd2 Hsum).
Defined.

(** ** The package extractor, continued *)

Section MoreExtractorFacts.
Import strings.

Lemma scan_line_Crashed (env : RepoEnv) (tmpDir url base line : string) :
  (exists msg, scan_line env tmpDir url base line = Crashed msg)
  <-> HasPrefix line base = true /\ ContainsByte line ":" = false.
Proof.
  unfold scan_line, index_at. rewrite Split_first_field.
  pose proof (Split_second_field line) as Hsecond.
  destruct (HasPrefix line base); cbn [negb].
  - destruct (Split line ":" !! 1%nat) as [field|].
    + assert (Hc : ContainsByte line ":" = true) by (apply Hsecond; eauto).
      rewrite Hc. split; [|easy].
      intros [msg H]. now destruct (EvalSymlinks env field).
    + split; [|eauto]. intros _. split; [reflexivity |].
      destruct (ContainsByte line ":"); [|reflexivity].
      destruct (proj2 Hsecond eq_refl) as [x Hx]. discriminate.
  - split; [intros [msg H]; discriminate | easy].
Qed.

Lemma scan_lines_returns (env : RepoEnv) (tmpDir url base : string)
    (lines : list string) :
  (forall line, line ∈ lines -> ContainsByte line ":" = true) ->
  forall acc, returns (scan_lines env tmpDir url base lines acc) = true.
Proof.
  induction lines as [|line rest IH]; intros Hcolon acc; [reflexivity |].
  cbn [scan_lines].
  destruct (scan_line env tmpDir url base line) as [|v|e|msg] eqn:Hline.
  - apply IH. intros l Hl. apply Hcolon, list_elem_of_further, Hl.
  - apply IH. intros l Hl. apply Hcolon, list_elem_of_further, Hl.
  - reflexivity.
  - assert (Hcrash : exists m, scan_line env tmpDir url base line = Crashed m)
      by eauto.
    apply scan_line_Crashed in Hcrash as [_ Hc].
    rewrite (Hcolon line (list_elem_of_here _ _)) in Hc. discriminate.
Qed.

Lemma scan_lines_imports (env : RepoEnv) (tmpDir url base : string)
    (lines : list string) :
  forall acc imports,
    scan_lines env tmpDir url base lines acc = Returns (Ok imports) ->
    map Import imports = map Import acc ++ map first_field (matching base lines).
Proof.
  induction lines as [|line rest IH]; intros acc imports.
  - cbn. intros [= <-]. now rewrite app_nil_r.
  - cbn [scan_lines matching List.filter].
    destruct (scan_line env tmpDir url base line) as [|v|e|msg] eqn:Hline;
      try discriminate.
    + apply scan_line_Skipped in Hline. rewrite Hline. apply IH.
    + destruct (scan_line_Matched _ _ _ _ _ _ Hline)
        as (Hpre & importPath & field & dir & Hfirst & _ & _ & ->).
      rewrite Hpre. intros H. apply IH in H. rewrite H.
      rewrite Split_first_field in Hfirst. injection Hfirst as <-.
      rewrite map_app. cbn [map Import]. now rewrite <- app_assoc.
Qed.

End MoreExtractorFacts.

(** X4: every package that [getVanityPackages] returns carries the URL of
    the repository that was asked for, and its import path holds no
    colon. *)
Theorem getVanityPackages_records (env : RepoEnv) (url base : string)
    (imports : list vanityImport) (v : vanityImport) :
  getVanityPackages env url base = Returns (Ok imports) ->
  v ∈ imports ->
  RepoURL v = url /\ strings.ContainsByte (Import v) ":" = false.
Proof.
  intros Hget Hin.
  destruct (getVanityPackages_Ok _ _ _ _ Hget) as (tmpDir0 & tmpDir & _ & _ & ->).
  destruct (matched_of_elem _ _ _ _ _ _ Hin) as (line & _ & Hscan).
  destruct (scan_line_Matched _ _ _ _ _ _ Hscan)
    as (_ & importPath & field & dir & Hfirst & _ & _ & ->).
  split; [reflexivity |]. cbn [Import].
  pose proof (Split_elems_no_sep line ":") as Hall.
  rewrite List.Forall_forall in Hall. apply Hall.
  apply list_elem_of_In, list_elem_of_lookup. now exists O.
Qed.

Lemma getVanityPackages_records_witness :
  let url := "https://github.com/vcabbage/go-tftp" in
  let imports := [ mkVanityImport "pack.ag/tftp" url 0;
                   mkVanityImport "pack.ag/tftp/netascii" url 1 ] in
  let v := mkVanityImport "pack.ag/tftp/netascii" url 1 in
  getVanityPackages example_env url "pack.ag" = Returns (Ok imports)
  /\ v ∈ imports
  /\ RepoURL v = url
  /\ strings.ContainsByte (Import v) ":" = false.
Proof.
  cbv zeta.
  assert (Hget : getVanityPackages example_env "https://github.com/vcabbage/go-tftp"
                   "pack.ag"
                 = Returns (Ok [ mkVanityImport "pack.ag/tftp"
                                   "https://github.com/vcabbage/go-tftp" 0;
                                 mkVanityImport "pack.ag/tftp/netascii"
                                   "https://github.com/vcabbage/go-tftp" 1 ]))
    by (vm_compute; reflexivity).
  assert (Hin : mkVanityImport "pack.ag/tftp/netascii"
                  "https://github.com/vcabbage/go-tftp" 1
                ∈ [ mkVanityImport "pack.ag/tftp"
                      "https://github.com/vcabbage/go-tftp" 0;
                    mkVanityImport "pack.ag/tftp/netascii"
                      "https://github.com/vcabbage/go-tftp" 1 ])
    by (apply list_elem_of_In; simpl; auto).
  split; [exact Hget |]. split; [exact Hin |].
  exact (getVanityPackages_records example_env _ _ _ _ Hget Hin).
Defined.

(** X5: the loop body panics, with an index out of range, exactly on a line
    that starts with the prefix and holds no colon; so [getVanityPackages]
    returns, with packages or with an error, whenever every line of the
    listing holds a colon. *)
Theorem getVanityPackages_panics_only_without_colon (env : RepoEnv)
    (url base : string) :
  (forall tmpDir line,
     (exists msg, scan_line env tmpDir url base line = Crashed msg)
     <-> strings.HasPrefix line base = true
         /\ strings.ContainsByte line ":" = false)
  /\ ((forall line, line ∈ scanned env -> strings.ContainsByte line ":" = true) ->
      returns (getVanityPackages env url base) = true).
Proof.
  split; [intros tmpDir line; apply scan_line_Crashed |].
  intros Hcolon. unfold getVanityPackages, check.
  destruct (TempDir env) as [tmpDir0|]; [|reflexivity].
  destruct (EvalSymlinks env tmpDir0) as [tmpDir|]; [|reflexivity].
  destruct (git_clone env); [reflexivity |].
  destruct (StdoutPipe env); [reflexivity |].
  destruct (Start env); [reflexivity |].
  pose proof (scan_lines_returns env tmpDir url base (scanned env) Hcolon []) as H.
  destruct (scan_lines env tmpDir url base (scanned env) []) as [[found|e]|msg];
    [| reflexivity | discriminate].
  destruct (scanner_Err env); [reflexivity |].
  now destruct (Wait env).
Qed.

Lemma getVanityPackages_panics_only_without_colon_witness :
  (forall line, line ∈ scanned example_env -> strings.ContainsByte line ":" = true)
  /\ returns (getVanityPackages example_env "https://github.com/o/r" "pack.ag") = true
  /\ (exists msg,
        scan_line crashing_env "/tmp/govanity5" "https://github.com/o/r" "pack.ag"
          "pack.ag/tftp" = Crashed msg).
Proof.
  assert (Hcolon : forall line,
             line ∈ scanned example_env -> strings.ContainsByte line ":" = true).
  { intros line Hin. cbn [scanned example_env] in Hin.
    repeat (apply elem_of_cons in Hin as [->|Hin]; [reflexivity |]).
    inversion Hin. }
  destruct (getVanityPackages_panics_only_without_colon example_env
              "https://github.com/o/r" "pack.ag") as [_ Hret].
  destruct (getVanityPackages_panics_only_without_colon crashing_env
              "https://github.com/o/r" "pack.ag") as [Hcrash _].
  split; [exact Hcolon |]. split; [exact (Hret Hcolon) |].
  apply (Hcrash "/tmp/govanity5" "pack.ag/tftp"). split; reflexivity.
Defined.

(** X6: when [getVanityPackages] succeeds, the import paths of the packages
    it returns are the first fields of the lines that start with the prefix,
    one package for each such line and in the order of the listing. *)
Theorem getVanityPackages_one_per_matching_line (env : RepoEnv)
    (url base : string) (imports : list vanityImport) :
  getVanityPackages env url base = Returns (Ok imports) ->
  map Import imports = map first_field (matching base (scanned env)).
Proof.
  unfold getVanityPackages, check.
  destruct (TempDir env) as [tmpDir0|]; [|discriminate].
  destruct (EvalSymlinks env tmpDir0) as [tmpDir|]; [|discriminate].
  destruct (git_clone env); [discriminate |].
  destruct (StdoutPipe env); [discriminate |].
  destruct (Start env); [discriminate |].
  destruct (scan_lines env tmpDir url base (scanned env) []) as [[found|]|] eqn:Hscan;
    try discriminate.
  destruct (scanner_Err env); [discriminate |].
  destruct (Wait env); [discriminate |].
  intros [= <-]. now apply scan_lines_imports in Hscan.
Qed.

Lemma getVanityPackages_one_per_matching_line_witness :
  let url := "https://github.com/vcabbage/go-tftp" in
  let imports := [ mkVanityImport "pack.ag/tftp" url 0;
                   mkVanityImport "pack.ag/tftp/netascii" url 1 ] in
  getVanityPackages example_env url "pack.ag" = Returns (Ok imports)
  /\ map Import imports = map first_field (matching "pack.ag" (scanned example_env)).
Proof.
  cbv zeta.
  assert (Hget : getVanityPackages example_env "https://github.com/vcabbage/go-tftp"
                   "pack.ag"
                 = Returns (Ok [ mkVanityImport "pack.ag/tftp"
                                   "https://github.com/vcabbage/go-tftp" 0;
                                 mkVanityImport "pack.ag/tftp/netascii"
                                   "https://github.com/vcabbage/go-tftp" 1 ]))
    by (vm_compute; reflexivity).
  split; [exact Hget |].
  exact (getVanityPackages_one_per_matching_line example_env _ _ _ Hget).
Defined.

(** ** The output path of a page, continued *)

Section MoreCleanFacts.
Import strings.

Lemma TrimPrefix_self (B : string) : TrimPrefix B B = EmptyString.
Proof.
  rewrite <- (append_empty_r B) at 1. apply TrimPrefix_app.
Qed.

Lemma Join_normal_head (ds : list string) :
  ds <> [] -> Forall (fun e => filepath.normal_elem e = true) ds ->
  exists c t, Join ds "/" = String c t /\ Ascii.eqb c "/" = false.
Proof.
  intros Hnil Hd. destruct ds as [|d ds]; [easy |].
  assert (Hd1 : filepath.normal_elem d = true) by now inversion Hd.
  destruct d as [|c d']; [discriminate |].
  assert (Hc : Ascii.eqb c "/" = false).
  { apply normal_elem_no_sep in Hd1. cbn [ContainsByte] in Hd1.
    now apply orb_false_iff in Hd1 as [Hd1 _]. }
  destruct ds; [now exists c, d' |].
  rewrite Join_cons by easy. rewrite append_cons. now eexists _, _.
Qed.

(** [Clean] of a directory of normal elements followed by a slash. *)
Lemma Clean_trailing_slash (rooted : bool) (ds : list string) :
  ds <> [] -> Forall (fun e => filepath.normal_elem e = true) ds ->
  let D := (if rooted then "/" else EmptyString) +:+ Join ds "/" in
  filepath.Clean (D +:+ "/") = D.
Proof.
  intros Hnil Hd. cbv zeta.
  set (es := ds ++ [EmptyString]).
  assert (Hes : Forall (fun e => e = EmptyString \/ filepath.normal_elem e = true) es).
  { apply Forall_app. split; [eapply Forall_impl; [exact Hd | now right] |].
    constructor; [now left | constructor]. }
  assert (Hfilter : List.filter url.nonempty es = ds).
  { unfold es. rewrite List.filter_app. cbn [List.filter url.nonempty].
    now rewrite filter_nonempty_normal, app_nil_r. }
  assert (Hjoin : Join es "/" = Join ds "/" +:+ "/").
  { unfold es. rewrite Join_app by easy. cbn [Join].
    now rewrite append_empty_r. }
  destruct rooted.
  - rewrite append_assoc, <- Hjoin, Clean_rooted, Hfilter; try assumption; [reflexivity |].
    unfold es. now destruct ds.
  - rewrite !append_nil_l, <- Hjoin.
    destruct ds as [|d ds]; [easy |].
    unfold es in *. change ((d :: ds) ++ [EmptyString])
      with (d :: (ds ++ [EmptyString])) in *.
    rewrite Clean_unrooted; [| now inversion Hd | now inversion Hes].
    now rewrite Hfilter.
Qed.

End MoreCleanFacts.

(** X7: for a package whose import path is the prefix itself, the output
    path is the output directory with [.html] appended, a file beside the
    directory and not in it. *)
Theorem htmlPath_of_prefix_itself (B repo : string) (d : Z) (rooted : bool)
    (ds : list string) :
  ds <> [] ->
  Forall (fun e => filepath.normal_elem e = true) ds ->
  let D := (if rooted then "/" else EmptyString) +:+ strings.Join ds "/" in
  htmlPath (mkVanityImport B repo d) B D = D +:+ ".html".
Proof.
  intros Hnil Hd. cbv zeta. unfold htmlPath. cbn [Import].
  rewrite TrimPrefix_self.
  destruct (Join_normal_head ds Hnil Hd) as (c & t & Hhead & _).
  assert (HD : exists c' t', (if rooted then "/" else EmptyString)
                             +:+ strings.Join ds "/" = String c' t').
  { destruct rooted; [rewrite append_cons; now eexists _, _ |].
    rewrite append_nil_l, Hhead. now eexists _, _. }
  destruct HD as (c' & t' & HD).
  rewrite HD at 1. cbn [filepath.Join]. rewrite <- HD.
  replace (strings.Join
             [(if rooted then "/" else EmptyString) +:+ strings.Join ds "/";
              EmptyString] "/")
    with (((if rooted then "/" else EmptyString) +:+ strings.Join ds "/") +:+ "/")
    by (cbn [strings.Join]; now rewrite append_empty_r).
  now rewrite (Clean_trailing_slash rooted ds Hnil Hd).
Qed.

Lemma htmlPath_of_prefix_itself_witness :
  htmlPath (mkVanityImport "pack.ag" "https://github.com/o/r" 0) "pack.ag"
           "/home/u/site"
  = "/home/u/site.html".
Proof.
  apply (htmlPath_of_prefix_itself "pack.ag" "https://github.com/o/r" 0 true
           ["home"; "u"; "site"]); [easy |].
  repeat constructor.
Defined.

(** X8: with an empty output directory, the output path of a package whose
    import path is the prefix followed by a slash and normal elements is
    the absolute path of these elements under the root of the file
    system. *)
Theorem htmlPath_with_empty_out (B repo : string) (d : Z) (rs : list string) :
  rs <> [] ->
  Forall (fun e => filepath.normal_elem e = true) rs ->
  htmlPath (mkVanityImport (B +:+ "/" +:+ strings.Join rs "/") repo d) B EmptyString
  = "/" +:+ strings.Join rs "/" +:+ ".html".
Proof.
  intros Hnil Hr. unfold htmlPath. cbn [Import].
  rewrite TrimPrefix_app.
  replace (filepath.Join [EmptyString; "/" +:+ strings.Join rs "/"])
    with (filepath.Clean ("/" +:+ strings.Join rs "/")) by reflexivity.
  rewrite Clean_rooted; [| | assumption].
  - now rewrite filter_nonempty_normal, append_assoc.
  - eapply Forall_impl; [exact Hr | now right].
Qed.

Lemma htmlPath_with_empty_out_witness :
  htmlPath (mkVanityImport "pack.ag/tftp/netascii" "https://github.com/o/r" 1)
           "pack.ag" EmptyString
  = "/tftp/netascii.html".
Proof.
  apply (htmlPath_with_empty_out "pack.ag" "https://github.com/o/r" 1
           ["tftp"; "netascii"]); [easy |].
  repeat constructor.
Defined.

(** ** Configuration, continued *)

Section MoreConfigFacts.
Import strings url.

Lemma searchList_fold (entries : list string) :
  forall cfg,
    fold_left
      (fun cfg search =>
         let search := TrimSpace search in
         if nonempty search then append_searchList cfg search else cfg)
      entries cfg
    = mkConfig (prefix cfg) (prefixURL cfg) (search cfg)
               (searchList cfg ++ List.filter nonempty (map TrimSpace entries))
               (out cfg) (githubToken cfg) (writeCNAME cfg).
Proof.
  induction entries as [|entry entries IH]; intros cfg.
  - cbn. rewrite app_nil_r. now destruct cfg.
  - cbn [fold_left map List.filter]. rewrite IH. cbv zeta.
    destruct (nonempty (TrimSpace entry)); [|reflexivity].
    cbn [append_searchList prefix prefixURL search searchList out githubToken
         writeCNAME]. now rewrite <- app_assoc.
Qed.

(** The validation in one equation. *)
Lemma config_Parse_cases (cfg : config) :
  config_Parse cfg
  = if negb (nonempty (prefix cfg))
    then (cfg, Some "must provide vanity URL prefix")
    else match Parse ("//" +:+ prefix cfg) with
         | Err e => (cfg, Some ("invalid URL (" +:+ e +:+ ")"))
         | Ok u =>
             if negb (nonempty (search cfg))
             then (set_prefixURL cfg u,
                   Some "search list must contain at least one entry")
             else (mkConfig (prefix cfg) (Some u) (search cfg)
                            (searchList cfg ++ search_entries (search cfg))
                            (out cfg) (githubToken cfg) (writeCNAME cfg),
                   None)
         end.
Proof.
  unfold config_Parse.
  destruct (negb (nonempty (prefix cfg))); [reflexivity |].
  destruct (Parse ("//" +:+ prefix cfg)) as [u|e]; [|reflexivity].
  cbn [set_prefixURL search].
  destruct (negb (nonempty (search cfg))); [reflexivity |].
  now rewrite searchList_fold.
Qed.

Lemma config_Parse_keeps_writeCNAME (cfg cfg' : config) :
  config_Parse cfg = (cfg', None) -> writeCNAME cfg' = writeCNAME cfg.
Proof.
  rewrite config_Parse_cases.
  destruct (negb (nonempty (prefix cfg))); [discriminate |].
  destruct (Parse ("//" +:+ prefix cfg)) as [u|e]; [|discriminate].
  destruct (negb (nonempty (search cfg))); [discriminate |].
  now intros [= <-].
Qed.

Lemma hostname_byte_plain (c : ascii) : hostname_byte c = true -> plain_byte c = true.
Proof.
  destruct c as [[] [] [] [] [] [] [] []]; vm_compute; congruence.
Qed.

Lemma hostname_byte_in_host (c : ascii) :
  hostname_byte c = true -> shouldEscape c encodeHost = false.
Proof.
  destruct c as [[] [] [] [] [] [] [] []]; vm_compute; congruence.
Qed.

Lemma hostname_plain (h : string) :
  all_bytes hostname_byte h = true -> plain h = true.
Proof.
  induction h as [|c h IH]; [reflexivity |].
  cbn [all_bytes]. intros H. apply andb_true_iff in H as [Hc Hh].
  unfold plain. cbn [all_bytes]. fold (plain h).
  now rewrite (hostname_byte_plain c Hc), (IH Hh).
Qed.

Lemma hostname_absent (h : string) (x : ascii) :
  hostname_byte x = false -> all_bytes hostname_byte h = true ->
  ContainsByte h x = false.
Proof. apply all_bytes_absent. Qed.

Lemma unescape_hostname (h : string) :
  all_bytes hostname_byte h = true -> unescape h encodeHost = Ok h.
Proof.
  induction h as [|c h IH]; [reflexivity |].
  cbn [all_bytes]. intros H. apply andb_true_iff in H as [Hc Hh].
  cbn [unescape].
  assert (Hpct : Ascii.eqb c "%" = false).
  { destruct (Ascii.eqb_spec c "%") as [->|]; [discriminate Hc | reflexivity]. }
  rewrite Hpct, (hostname_byte_in_host c Hc), (IH Hh), andb_false_r.
  cbn [is_query_mode]. now rewrite andb_false_r.
Qed.

Lemma parseAuthority_hostname (h : string) :
  all_bytes hostname_byte h = true -> parseAuthority h = Ok (None, h).
Proof.
  intros Hh. unfold parseAuthority, parseHost.
  rewrite (LastIndexByte_absent h "@") by now apply hostname_absent.
  rewrite (HasPrefix_byte_absent h "[") by now apply hostname_absent.
  rewrite (LastIndexByte_absent h ":") by now apply hostname_absent.
  now rewrite (unescape_hostname h Hh).
Qed.

(** The URL of a prefix made of a host name and a plain path. *)
Lemma Parse_host_and_path (h rest : string) :
  nonempty h = true ->
  all_bytes hostname_byte h = true ->
  plain rest = true ->
  rest = EmptyString \/ HasPrefix rest "/" = true ->
  Parse ("//" +:+ h +:+ rest)
  = Ok (mkURL EmptyString EmptyString None h rest EmptyString
              false false EmptyString EmptyString EmptyString).
Proof.
  intros Hne Hh Hrest Hshape.
  assert (Hraw : plain ("//" +:+ h +:+ rest) = true).
  { unfold plain. rewrite !all_bytes_app. fold (plain h) (plain rest).
    now rewrite (hostname_plain h Hh), Hrest. }
  set (raw := "//" +:+ h +:+ rest) in *.
  assert (Hslash : HasPrefix raw "/" = true) by reflexivity.
  assert (Hauth : HasPrefix raw "//" = true) by apply HasPrefix_app.
  assert (Hthree : HasPrefix raw "///" = false).
  { destruct h as [|c h]; [discriminate |]. unfold raw.
    rewrite !append_cons, append_nil_l. cbn [HasPrefix]. rewrite !Ascii.eqb_refl.
    cbn [all_bytes] in Hh. apply andb_true_iff in Hh as [Hc _].
    destruct (Ascii.eqb_spec c "/") as [->|]; [discriminate Hc | reflexivity]. }
  assert (Hsplit : (match Index (from 2 raw) "/" with
                    | Some i => (upto i (from 2 raw), from i (from 2 raw))
                    | None => (from 2 raw, EmptyString)
                    end) = (h, rest)).
  { replace (from 2 raw) with (h +:+ rest) by reflexivity.
    destruct Hshape as [->|Hshape].
    - rewrite append_empty_r.
      now rewrite (Index_byte_absent h "/") by now apply hostname_absent.
    - destruct rest as [|c rest]; [discriminate |]. cbn [HasPrefix] in Hshape.
      destruct (Ascii.eqb_spec c "/") as [->|]; [|discriminate].
      rewrite (Index_byte h rest "/") by now apply hostname_absent.
      now rewrite upto_app, from_app. }
  unfold Parse.
  rewrite (Cut_absent raw "#") by now apply plain_absent.
  unfold parse.
  rewrite (plain_no_ctl raw Hraw), andb_false_r, (plain_not_star raw Hraw).
  unfold getScheme.
  rewrite (getScheme_at_no_colon O raw raw) by now apply plain_absent.
  cbn [bind ToLower nonempty].
  rewrite (CountByte_absent raw "?") by now apply plain_absent.
  cbn [Nat.eqb]. rewrite andb_false_r.
  rewrite (Cut_absent raw "?") by now apply plain_absent.
  rewrite Hslash, Hauth, Hthree. cbn [negb andb orb].
  rewrite Hsplit, (parseAuthority_hostname h Hh). cbn [bind].
  now rewrite (setPath_plain rest Hrest).
Qed.

End MoreConfigFacts.

(** X9: when [config.Parse] returns no error, the prefix parses as the URL
    that is stored, the search list has grown by the comma-separated fields
    of the search setting, trimmed of white space, the empty ones left out
    and the order kept, and no other setting has changed. *)
Theorem config_Parse_success (cfg cfg' : config) :
  config_Parse cfg = (cfg', None) ->
  exists u,
    url.Parse ("//" +:+ prefix cfg) = Ok u
    /\ cfg' = mkConfig (prefix cfg) (Some u) (search cfg)
                       (searchList cfg ++ search_entries (search cfg))
                       (out cfg) (githubToken cfg) (writeCNAME cfg)
    /\ Forall (fun entry => url.nonempty entry = true)
              (search_entries (search cfg)).
Proof.
  rewrite config_Parse_cases.
  destruct (negb (url.nonempty (prefix cfg))); [discriminate |].
  destruct (url.Parse ("//" +:+ prefix cfg)) as [u|e]; [|discriminate].
  destruct (negb (url.nonempty (search cfg))); [discriminate |].
  intros [= <-]. exists u. repeat split.
  apply List.Forall_forall. intros entry Hin.
  now apply filter_In in Hin as [_ Hin].
Qed.

Lemma config_Parse_success_witness :
  let cfg := mkConfig "pack.ag" None " vcabbage/go-tftp ,, packag" [] "site"
                      EmptyString true in
  exists cfg',
    config_Parse cfg = (cfg', None)
    /\ searchList cfg' = ["vcabbage/go-tftp"; "packag"]
    /\ exists u,
        url.Parse ("//" +:+ prefix cfg) = Ok u
        /\ cfg' = mkConfig (prefix cfg) (Some u) (search cfg)
                           (searchList cfg ++ search_entries (search cfg))
                           (out cfg) (githubToken cfg) (writeCNAME cfg)
        /\ Forall (fun entry => url.nonempty entry = true)
                  (search_entries (search cfg)).
Proof.
  cbv zeta. eexists. split; [vm_compute; reflexivity |].
  split; [reflexivity |].
  apply config_Parse_success. vm_compute. reflexivity.
Defined.

(** X10: a search setting that is not empty but whose every field trims to
    nothing, commas and blanks only, passes the validation; the search list
    stays as it was, and the enumeration of an empty search list returns no
    repository. *)
Theorem config_Parse_blank_search (cfg : config) :
  url.nonempty (prefix cfg) = true ->
  is_ok (url.Parse ("//" +:+ prefix cfg)) = true ->
  url.nonempty (search cfg) = true ->
  search_entries (search cfg) = [] ->
  exists cfg',
    config_Parse cfg = (cfg', None)
    /\ searchList cfg' = searchList cfg
    /\ (searchList cfg = [] ->
        forall gh, getPotentialRepos gh (searchList cfg') = ([], [])).
Proof.
  intros Hprefix Hurl Hsearch Hblank. rewrite config_Parse_cases.
  rewrite Hprefix, Hsearch, Hblank. cbn [negb].
  destruct (url.Parse ("//" +:+ prefix cfg)) as [u|e]; [|discriminate].
  eexists. split; [reflexivity |]. cbn [searchList]. rewrite app_nil_r.
  split; [reflexivity |]. now intros -> gh.
Qed.

Lemma config_Parse_blank_search_witness :
  let cfg := mkConfig "pack.ag" None " , ," [] "site" EmptyString false in
  url.nonempty (prefix cfg) = true
  /\ is_ok (url.Parse ("//" +:+ prefix cfg)) = true
  /\ url.nonempty (search cfg) = true
  /\ search_entries (search cfg) = []
  /\ exists cfg',
      config_Parse cfg = (cfg', None)
      /\ searchList cfg' = searchList cfg
      /\ (searchList cfg = [] ->
          forall gh, getPotentialRepos gh (searchList cfg') = ([], [])).
Proof.
  cbv zeta.
  assert (Hblank : search_entries " , ," = []) by (vm_compute; reflexivity).
  repeat (split; [first [reflexivity | exact Hblank] |]).
  exact (config_Parse_blank_search
           (mkConfig "pack.ag" None " , ," [] "site" EmptyString false)
           eq_refl eq_refl eq_refl Hblank).
Defined.

(** X11: for a prefix made of a host name (letters, digits and [-._~]) and
    either nothing or a slash and a plain path, and a search setting that
    is not empty, the validation succeeds and stores the URL whose host is
    the host name and whose path is the rest of the prefix. *)
Theorem config_Parse_host_of_prefix (cfg : config) (host rest : string) :
  prefix cfg = host +:+ rest ->
  url.nonempty host = true ->
  strings.all_bytes hostname_byte host = true ->
  url.plain rest = true ->
  rest = EmptyString \/ strings.HasPrefix rest "/" = true ->
  url.nonempty (search cfg) = true ->
  exists cfg' u,
    config_Parse cfg = (cfg', None)
    /\ prefixURL cfg' = Some u
    /\ url.Host u = host
    /\ url.Path u = rest
    /\ url.Scheme u = EmptyString.
Proof.
  intros Hprefix Hne Hhost Hrest Hshape Hsearch. rewrite config_Parse_cases.
  assert (Hnonempty : url.nonempty (prefix cfg) = true).
  { rewrite Hprefix. destruct host; [discriminate | reflexivity]. }
  rewrite Hnonempty, Hsearch, Hprefix. cbn [negb].
  rewrite (Parse_host_and_path host rest Hne Hhost Hrest Hshape).
  eexists _, _. repeat split.
Qed.

Lemma config_Parse_host_of_prefix_witness :
  let cfg := mkConfig "pack.ag/cmd" None "packag" [] "site" EmptyString true in
  prefix cfg = "pack.ag" +:+ "/cmd"
  /\ url.nonempty "pack.ag" = true
  /\ strings.all_bytes hostname_byte "pack.ag" = true
  /\ url.plain "/cmd" = true
  /\ ("/cmd" = EmptyString \/ strings.HasPrefix "/cmd" "/" = true)
  /\ url.nonempty (search cfg) = true
  /\ exists cfg' u,
      config_Parse cfg = (cfg', None)
      /\ prefixURL cfg' = Some u
      /\ url.Host u = "pack.ag"
      /\ url.Path u = "/cmd"
      /\ url.Scheme u = EmptyString.
Proof.
  cbv zeta.
  assert (Hshape : "/cmd" = EmptyString \/ strings.HasPrefix "/cmd" "/" = true)
    by (right; reflexivity).
  repeat (split; [first [reflexivity | exact Hshape] |]).
  exact (config_Parse_host_of_prefix
           (mkConfig "pack.ag/cmd" None "packag" [] "site" EmptyString true)
           "pack.ag" "/cmd" eq_refl eq_refl eq_refl eq_refl Hshape eq_refl).
Defined.

(** ** The repository enumerator, continued *)

Section MoreEnumeratorFacts.

Lemma filter_all {A} (f : A -> bool) (l : list A) :
  Forall (fun x => f x = true) l -> List.filter f l = l.
Proof.
  induction 1 as [|x l Hx Hl IH]; [reflexivity |].
  cbn [List.filter]. now rewrite Hx, IH.
Qed.

Lemma filter_none {A} (f : A -> bool) (l : list A) :
  Forall (fun x => f x = false) l -> List.filter f l = [].
Proof.
  induction 1 as [|x l Hx Hl IH]; [reflexivity |].
  cbn [List.filter]. now rewrite Hx, IH.
Qed.

Lemma scan_failing_users (gh : GitHub) (searchRepos : gset string)
    (usernames : list string) :
  Forall (fun username => is_ok (Repositories_List gh username) = false) usernames ->
  forall st,
    fold_left (scan_user gh searchRepos) usernames st
    = (st.1,
       st.2 ++ flat_map (fun username =>
                           match Repositories_List gh username with
                           | Err e => [PrintListError username e]
                           | Ok _ => []
                           end) usernames).
Proof.
  induction 1 as [|username usernames Hfail Hrest IH]; intros [repoURLs log].
  - cbn. now rewrite app_nil_r.
  - cbn [fold_left flat_map]. unfold scan_user at 2.
    destruct (Repositories_List gh username) as [repos|e]; [discriminate |].
    rewrite IH. cbn [fst snd]. now rewrite <- app_assoc.
Qed.

End MoreEnumeratorFacts.

(** X12: for a search list in which every entry names a repository, the
    enumeration returns the clone URL of each entry, in order, prints
    nothing and does not depend on what GitHub answers. *)
Theorem getPotentialRepos_explicit_only (gh : GitHub) (search : list string) :
  Forall (fun v => strings.ContainsRune v "/" = true) search ->
  getPotentialRepos gh search
  = (map (fun v => "https://github.com/" +:+ v) search, []).
Proof.
  intros Hall. unfold getPotentialRepos. rewrite sort_entries.
  rewrite (filter_all is_explicit search Hall).
  rewrite (filter_none is_owner search).
  - reflexivity.
  - eapply Forall_impl; [exact Hall |]. intros v Hv. unfold is_owner, is_explicit.
    now rewrite Hv.
Qed.

Lemma getPotentialRepos_explicit_only_witness :
  Forall (fun v => strings.ContainsRune v "/" = true)
         ["vcabbage/go-tftp"; "packag/tool"]
  /\ getPotentialRepos failing_github ["vcabbage/go-tftp"; "packag/tool"]
     = (["https://github.com/vcabbage/go-tftp"; "https://github.com/packag/tool"], []).
Proof.
  assert (Hall : Forall (fun v => strings.ContainsRune v "/" = true)
                        ["vcabbage/go-tftp"; "packag/tool"])
    by (repeat constructor).
  split; [exact Hall |].
  exact (getPotentialRepos_explicit_only failing_github
           ["vcabbage/go-tftp"; "packag/tool"] Hall).
Defined.

(** X13: when the listing of every owner in the search list fails, the
    enumeration still returns the clone URLs of the entries that name a
    repository, and prints one error line for each owner, in order. *)
Theorem getPotentialRepos_failing_owners (gh : GitHub) (search : list string) :
  Forall (fun v => is_owner v = true -> is_ok (Repositories_List gh v) = false)
         search ->
  getPotentialRepos gh search
  = (map explicit_url (List.filter is_explicit search),
     flat_map (fun username =>
                 match Repositories_List gh username with
                 | Err e => [PrintListError username e]
                 | Ok _ => []
                 end) (List.filter is_owner search)).
Proof.
  intros Hfail. unfold getPotentialRepos. rewrite sort_entries.
  rewrite scan_failing_users; [reflexivity |].
  cbn [app]. apply List.Forall_forall. intros username Hin.
  apply filter_In in Hin as [Hin Howner].
  rewrite List.Forall_forall in Hfail. now apply Hfail.
Qed.

Lemma getPotentialRepos_failing_owners_witness :
  Forall (fun v => is_owner v = true
                   -> is_ok (Repositories_List failing_github v) = false)
         ["alice"; "bob/explicit-repo"; "carol"]
  /\ getPotentialRepos failing_github ["alice"; "bob/explicit-repo"; "carol"]
     = (["https://github.com/bob/explicit-repo"],
        [ PrintListError "alice" "403 rate limit exceeded";
          PrintListError "carol" "403 rate limit exceeded" ]).
Proof.
  assert (Hfail : Forall (fun v => is_owner v = true
                                   -> is_ok (Repositories_List failing_github v) = false)
                         ["alice"; "bob/explicit-repo"; "carol"])
    by (repeat constructor).
  split; [exact Hfail |].
  exact (getPotentialRepos_failing_owners failing_github
           ["alice"; "bob/explicit-repo"; "carol"] Hfail).
Defined.

(** ** The run, continued *)

Section MoreRunFacts.

Lemma pull_all_wrote (w : World) (base : string) (repoURLs : list string) :
  forall imports log result log',
    pull_all w base repoURLs (imports, log) = (result, log') ->
    wrote log' = wrote log.
Proof.
  induction repoURLs as [|repo repoURLs IH]; intros imports log result log'.
  - cbn [pull_all fst snd]. now intros [= _ <-].
  - cbn [pull_all]. unfold pull.
    destruct (getVanityPackages (repo_env w repo) repo base) as [[packages|e]|msg].
    + intros H. apply IH in H. rewrite H. unfold wrote.
      rewrite !omap_app, omap_found by reflexivity.
      cbn [omap list_omap wrote_event]. now rewrite !app_nil_r.
    + intros H. apply IH in H. rewrite H. unfold wrote.
      rewrite !omap_app. cbn [omap list_omap wrote_event]. now rewrite !app_nil_r.
    + intros [= _ <-]. unfold wrote. rewrite omap_app.
      cbn [omap list_omap wrote_event]. now rewrite app_nil_r.
Qed.

Lemma emit_wrote (w : World) (cfg : config) (log : list event)
    (imprt : vanityImport) :
  wrote (emit w cfg log imprt) = wrote log.
Proof.
  unfold emit, wrote. cbv zeta.
  destruct (os_Create (fs w) _);
    [| destruct (ImportPrefix imprt); [destruct (file_Write (fs w) _) |]];
    rewrite !omap_app; cbn [omap list_omap wrote_event]; now rewrite !app_nil_r.
Qed.

Lemma emit_all_wrote (w : World) (cfg : config) (imports : list vanityImport) :
  forall log, wrote (fold_left (emit w cfg) imports log) = wrote log.
Proof.
  induction imports as [|imprt imports IH]; intros log; [reflexivity |].
  cbn [fold_left]. now rewrite IH, emit_wrote.
Qed.

(** A log of the configuration line and of the enumeration records neither
    a repository, nor an error of an extraction, nor a file. *)
Lemma enumeration_log_quiet (cfg : config) (printed : list event) :
  Forall (fun ev => enum_event ev = true) printed ->
  let log := [PrintConfig (prefix cfg) (searchList cfg) (out cfg)
                          (url.nonempty (githubToken cfg)) (writeCNAME cfg)]
             ++ printed in
  pulled log = [] /\ reported log = [] /\ attempted log = []
  /\ rendered log = [] /\ wrote log = [].
Proof.
  intros Hprinted. cbv zeta.
  unfold pulled, reported, attempted, rendered, wrote. rewrite !omap_app.
  rewrite !(omap_enum_events _ printed) by (try assumption; now intros []).
  now cbn.
Qed.

(** The loop over the repositories stops at the first one whose
    extraction panics: the repositories up to that one have been
    announced, the failures before it reported, and nothing else has
    happened. *)
Lemma pull_all_stops (w : World) (base repo : string) (repoURLs : list string) :
  repo ∈ repoURLs ->
  returns (extraction w base repo) = false ->
  forall imports log,
  exists before r after msg log',
    repoURLs = before ++ r :: after
    /\ Forall (fun r' => returns (extraction w base r') = true) before
    /\ extraction w base r = Panics msg
    /\ pull_all w base repoURLs (imports, log) = (Panics msg, log')
    /\ pulled log' = pulled log ++ before ++ [r]
    /\ reported log' = reported log ++ failures w base before
    /\ attempted log' = attempted log
    /\ rendered log' = rendered log.
Proof.
  intros Hin Hpanic. induction repoURLs as [|r0 repoURLs IH]; [inversion Hin |].
  intros imports log. cbn [pull_all]. unfold pull. fold (extraction w base r0).
  destruct (extraction w base r0) as [[packages|e]|msg] eqn:Hr0.
  - apply elem_of_cons in Hin as [->|Hin]; [rewrite Hr0 in Hpanic; discriminate |].
    destruct (IH Hin (imports ++ packages)
                ((log ++ [PrintPulling r0])
                   ++ map (fun pkg => PrintFound (Import pkg) (RepoURL pkg)) packages
                   ++ [PrintCount (len packages)]))
      as (before & r & after & msg & log' & -> & Hbefore & Hr & Hpull
          & Hp & Hrep & Ha & Hd).
    exists (r0 :: before), r, after, msg, log'.
    split; [reflexivity |].
    split; [constructor; [now rewrite Hr0 | assumption] |].
    split; [exact Hr |]. split; [exact Hpull |].
    rewrite Hp, Hrep, Ha, Hd, failures_cons, Hr0.
    unfold pulled, reported, attempted, rendered.
    rewrite !omap_app, !omap_found by reflexivity.
    cbn [omap list_omap pulled_event reported_event attempted_event
         rendered_event app].
    rewrite !app_nil_r, <- !app_assoc. now cbn [app].
  - apply elem_of_cons in Hin as [->|Hin]; [rewrite Hr0 in Hpanic; discriminate |].
    destruct (IH Hin imports ((log ++ [PrintPulling r0]) ++ [PrintError e]))
      as (before & r & after & msg & log' & -> & Hbefore & Hr & Hpull
          & Hp & Hrep & Ha & Hd).
    exists (r0 :: before), r, after, msg, log'.
    split; [reflexivity |].
    split; [constructor; [now rewrite Hr0 | assumption] |].
    split; [exact Hr |]. split; [exact Hpull |].
    rewrite Hp, Hrep, Ha, Hd, failures_cons, Hr0.
    unfold pulled, reported, attempted, rendered.
    rewrite !omap_app.
    cbn [omap list_omap pulled_event reported_event attempted_event
         rendered_event app].
    rewrite !app_nil_r, <- !app_assoc. now cbn [app].
  - exists [], r0, repoURLs, msg, (log ++ [PrintPulling r0]).
    split; [reflexivity |]. split; [constructor |].
    split; [exact Hr0 |]. split; [reflexivity |].
    unfold pulled, reported, attempted, rendered, failures.
    rewrite !omap_app.
    cbn [omap list_omap pulled_event reported_event attempted_event
         rendered_event app].
    now rewrite !app_nil_r.
Qed.

End MoreRunFacts.

(** X14: a run without arguments exits with code 2, and a run whose
    command line [flag.Parse] does not accept exits inside [flag.Parse],
    with code 0 after a request for help and with code 2 after a flag that
    is undefined or malformed; in a run whose command line is accepted, an
    empty prefix or an empty search setting makes [run] return an error,
    so that the process exits with code 1.  In each case nothing is
    printed by [run], enumerated, pulled or written. *)
Theorem run_rejects_missing_settings (w : World) :
  ((os_Args w < 2)%nat -> run w = (Exited 2, []) /\ main w = 2)
  /\ ((2 <= os_Args w)%nat -> flag_Parse w = FlagsHelp ->
      run w = (Exited 0, []) /\ main w = 0)
  /\ ((2 <= os_Args w)%nat -> flag_Parse w = FlagsRejected ->
      run w = (Exited 2, []) /\ main w = 2)
  /\ ((2 <= os_Args w)%nat -> flag_Parse w = FlagsParsed ->
      prefix (flags w) = EmptyString \/ search (flags w) = EmptyString ->
      exists err, run w = (Returned (Some err), []) /\ main w = 1).
Proof.
  split; [|split; [|split]].
  - intros Hargs. apply Nat.ltb_lt in Hargs.
    unfold main, run, configuration. now rewrite Hargs.
  - intros Hargs Hflags. apply Nat.ltb_ge in Hargs.
    unfold main, run, configuration. now rewrite Hargs, Hflags.
  - intros Hargs Hflags. apply Nat.ltb_ge in Hargs.
    unfold main, run, configuration. now rewrite Hargs, Hflags.
  - intros Hargs Hflags Hmissing. apply Nat.ltb_ge in Hargs.
    assert (Herr : exists cfg err, config_Parse (flags w) = (cfg, Some err)).
    { rewrite config_Parse_cases. destruct Hmissing as [Hp|Hs].
      - rewrite Hp. now eexists _, _.
      - destruct (negb (url.nonempty (prefix (flags w)))); [now eexists _, _ |].
        destruct (url.Parse ("//" +:+ prefix (flags w))); [|now eexists _, _].
        rewrite Hs. now eexists _, _. }
    destruct Herr as (cfg & err & Herr). exists err.
    unfold main, run, configuration. now rewrite Hargs, Hflags, Herr.
Qed.

Lemma run_rejects_missing_settings_witness :
  let settings := mkConfig "pack.ag" None EmptyString [] "site" EmptyString false in
  let files := mkFileSystem (fun _ => None) (fun _ => None) (fun _ _ => None) in
  let w := mkWorld 3 FlagsParsed settings failing_github (fun _ => example_env)
                   files in
  let w' := mkWorld 3 FlagsRejected example_config failing_github
                    (fun _ => example_env) files in
  ((2 <= os_Args w)%nat
   /\ flag_Parse w = FlagsParsed
   /\ (prefix (flags w) = EmptyString \/ search (flags w) = EmptyString)
   /\ exists err, run w = (Returned (Some err), []) /\ main w = 1)
  /\ ((2 <= os_Args w')%nat
      /\ flag_Parse w' = FlagsRejected
      /\ run w' = (Exited 2, []) /\ main w' = 2).
Proof.
  cbv zeta.
  set (files := mkFileSystem (fun _ => None) (fun _ => None) (fun _ _ => None)).
  set (w := mkWorld 3 FlagsParsed
                    (mkConfig "pack.ag" None EmptyString [] "site" EmptyString false)
                    failing_github (fun _ => example_env) files).
  set (w' := mkWorld 3 FlagsRejected example_config failing_github
                     (fun _ => example_env) files).
  assert (Hargs : (2 <= os_Args w)%nat) by (cbn; lia).
  assert (Hargs' : (2 <= os_Args w')%nat) by (cbn; lia).
  assert (Hmissing : prefix (flags w) = EmptyString \/ search (flags w) = EmptyString)
    by (right; reflexivity).
  split.
  - split; [exact Hargs |]. split; [reflexivity |]. split; [exact Hmissing |].
    exact (proj2 (proj2 (proj2 (run_rejects_missing_settings w)))
             Hargs eq_refl Hmissing).
  - split; [exact Hargs' |]. split; [reflexivity |].
    exact (proj1 (proj2 (proj2 (run_rejects_missing_settings w'))) Hargs' eq_refl).
Defined.

(** X15: when the alias file is not asked for, no run writes it, whatever
    the arguments, GitHub, the repositories and the file system are. *)
Theorem run_writes_no_alias_file_unasked (w : World) :
  writeCNAME (flags w) = false -> wrote (run w).2 = [].
Proof.
  intros Hflag. unfold run.
  destruct (configuration w) as [code|[cfg [err|]]] eqn:Hconf;
    [reflexivity | reflexivity |].
  assert (Hcname : writeCNAME cfg = false).
  { rewrite (config_Parse_keeps_writeCNAME _ _ (configuration_parsed _ _ _ Hconf)).
    exact Hflag. }
  pose proof (getPotentialRepos_log (github w) (searchList cfg)) as Hprinted.
  destruct (getPotentialRepos (github w) (searchList cfg)) as [repoURLs printed].
  cbn [snd] in Hprinted.
  destruct (enumeration_log_quiet cfg printed Hprinted) as (_ & _ & _ & _ & Hw0).
  destruct (pull_all w (prefix cfg) repoURLs _) as [[imports|msg] log] eqn:Hpull;
    apply pull_all_wrote in Hpull; [|cbn [snd]; now rewrite Hpull].
  rewrite Hcname. cbn [snd]. now rewrite emit_all_wrote, Hpull.
Qed.

Lemma run_writes_no_alias_file_unasked_witness :
  let w := mkWorld 2 FlagsParsed (mkConfig "pack.ag" None "o/one" [] "site" EmptyString false)
                   failing_github (fun _ => example_env)
                   (mkFileSystem (fun _ => None) (fun _ => None) (fun _ _ => None)) in
  writeCNAME (flags w) = false /\ wrote (run w).2 = [].
Proof.
  cbv zeta. split; [reflexivity |].
  now apply run_writes_no_alias_file_unasked.
Defined.

(** X16: after a valid configuration, the only error that [run] returns is
    the one of writing the alias file: the file was asked for, writing it
    failed, and the error returned wraps that failure. *)
Theorem run_error_is_alias_file (w : World) (cfg : config) (err : error) :
  configuration w = inr (cfg, None) ->
  (run w).1 = Returned (Some err) ->
  writeCNAME cfg = true
  /\ exists u e,
      prefixURL cfg = Some u
      /\ WriteFile (fs w) (filepath.Join [out cfg; "CNAME"])
                   (url.Host u +:+ newline) = Some e
      /\ err = "writing CNAME file: " +:+ e.
Proof.
  intros Hconf. unfold run. rewrite Hconf.
  destruct (getPotentialRepos (github w) (searchList cfg)) as [repoURLs printed].
  destruct (pull_all w (prefix cfg) repoURLs _) as [[imports|msg] log];
    [|discriminate].
  destruct (writeCNAME cfg); [|discriminate].
  destruct (prefixURL cfg) as [u|]; [|discriminate].
  destruct (WriteFile (fs w) _ _) as [e|] eqn:Hwrite; [|discriminate].
  cbn [fst]. intros [= <-]. split; [reflexivity |]. now exists u, e.
Qed.

Lemma run_error_is_alias_file_witness :
  let w := example_world (Some "permission denied") in
  configuration w = inr (example_config, None)
  /\ (run w).1 = Returned (Some "writing CNAME file: permission denied")
  /\ writeCNAME example_config = true
  /\ exists u e,
      prefixURL example_config = Some u
      /\ WriteFile (fs w) (filepath.Join [out example_config; "CNAME"])
                   (url.Host u +:+ newline) = Some e
      /\ "writing CNAME file: permission denied" = "writing CNAME file: " +:+ e.
Proof.
  cbv zeta.
  assert (Hconf : configuration (example_world (Some "permission denied"))
                  = inr (example_config, None)) by (vm_compute; reflexivity).
  assert (Hrun : (run (example_world (Some "permission denied"))).1
                 = Returned (Some "writing CNAME file: permission denied"))
    by (vm_compute; reflexivity).
  split; [exact Hconf |]. split; [exact Hrun |].
  exact (run_error_is_alias_file _ _ _ Hconf Hrun).
Defined.

(** X17: when the extraction of one repository panics, the run stops at
    the first repository whose extraction panics, with that panic, so that
    the process exits with code 2.  What has been printed by then is kept:
    the repositories up to that one have been announced, in order, and the
    failures of the extractions before it reported; no output file has
    been created, rendered or written, not even for the repositories that
    were extracted before. *)
Theorem run_panic_leaves_no_page (w : World) (cfg : config) (repo : string) :
  configuration w = inr (cfg, None) ->
  repo ∈ (getPotentialRepos (github w) (searchList cfg)).1 ->
  returns (extraction w (prefix cfg) repo) = false ->
  exists before r after msg,
    (getPotentialRepos (github w) (searchList cfg)).1 = before ++ r :: after
    /\ Forall (fun r' => returns (extraction w (prefix cfg) r') = true) before
    /\ extraction w (prefix cfg) r = Panics msg
    /\ (run w).1 = Panicked msg
    /\ main w = 2
    /\ pulled (run w).2 = before ++ [r]
    /\ reported (run w).2 = failures w (prefix cfg) before
    /\ attempted (run w).2 = []
    /\ rendered (run w).2 = []
    /\ wrote (run w).2 = [].
Proof.
  intros Hconf Hin Hpanic. unfold main, run. rewrite Hconf.
  pose proof (getPotentialRepos_log (github w) (searchList cfg)) as Hprinted.
  destruct (getPotentialRepos (github w) (searchList cfg)) as [repoURLs printed].
  cbn [fst snd] in *.
  destruct (enumeration_log_quiet cfg printed Hprinted) as (Hp0 & Hr0 & Ha0 & Hd0 & Hw0).
  destruct (pull_all_stops w (prefix cfg) repo repoURLs Hin Hpanic []
              ([PrintConfig (prefix cfg) (searchList cfg) (out cfg)
                            (url.nonempty (githubToken cfg)) (writeCNAME cfg)]
                 ++ printed))
    as (before & r & after & msg & log' & Hsplit & Hbefore & Hr & Hpull
        & Hp & Hrep & Ha & Hd).
  pose proof (pull_all_wrote _ _ _ _ _ _ _ Hpull) as Hw.
  exists before, r, after, msg. rewrite Hpull. cbn [fst snd].
  rewrite Hp, Hrep, Ha, Hd, Hw, Hp0, Hr0, Ha0, Hd0, Hw0.
  repeat split; try assumption; reflexivity.
Qed.

Lemma run_panic_leaves_no_page_witness :
  let cfg := (config_Parse (flags mixed_world)).1 in
  configuration mixed_world = inr (cfg, None)
  /\ "https://github.com/o/three"
     ∈ (getPotentialRepos (github mixed_world) (searchList cfg)).1
  /\ returns (extraction mixed_world (prefix cfg) "https://github.com/o/three")
     = false
  /\ exists before r after msg,
      (getPotentialRepos (github mixed_world) (searchList cfg)).1
      = before ++ r :: after
      /\ Forall (fun r' => returns (extraction mixed_world (prefix cfg) r') = true)
                before
      /\ extraction mixed_world (prefix cfg) r = Panics msg
      /\ (run mixed_world).1 = Panicked msg
      /\ main mixed_world = 2
      /\ pulled (run mixed_world).2 = before ++ [r]
      /\ reported (run mixed_world).2 = failures mixed_world (prefix cfg) before
      /\ attempted (run mixed_world).2 = []
      /\ rendered (run mixed_world).2 = []
      /\ wrote (run mixed_world).2 = [].
Proof.
  cbv zeta.
  assert (Hconf : configuration mixed_world
                  = inr ((config_Parse (flags mixed_world)).1, None))
    by (vm_compute; reflexivity).
  assert (Hin : "https://github.com/o/three"
                ∈ (getPotentialRepos (github mixed_world)
                     (searchList (config_Parse (flags mixed_world)).1)).1).
  { replace (getPotentialRepos (github mixed_world)
               (searchList (config_Parse (flags mixed_world)).1)).1
      with example_repos by (vm_compute; reflexivity).
    unfold example_repos. do 2 apply list_elem_of_further. apply list_elem_of_here. }
  assert (Hpanic : returns (extraction mixed_world
                              (prefix (config_Parse (flags mixed_world)).1)
                              "https://github.com/o/three") = false)
    by (vm_compute; reflexivity).
  split; [exact Hconf |]. split; [exact Hin |]. split; [exact Hpanic |].
  exact (run_panic_leaves_no_page mixed_world _ _ Hconf Hin Hpanic).
Defined.

(** X18: in a run whose configuration is valid and asks for the alias file,
    in which every extraction returns and the file can be written, the one
    file that [run] writes with [ioutil.WriteFile] is [CNAME] in the output
    directory, and it holds the host of the prefix and a newline. *)
Theorem run_writes_alias_file (w : World) (cfg : config) (u : url.URL) :
  configuration w = inr (cfg, None) ->
  (forall repo,
     repo ∈ (getPotentialRepos (github w) (searchList cfg)).1 ->
     returns (extraction w (prefix cfg) repo) = true) ->
  writeCNAME cfg = true ->
  prefixURL cfg = Some u ->
  WriteFile (fs w) (filepath.Join [out cfg; "CNAME"]) (url.Host u +:+ newline)
  = None ->
  wrote (run w).2
  = [(filepath.Join [out cfg; "CNAME"], url.Host u +:+ newline)].
Proof.
  intros Hconf Hret Hflag Hu Hwrite. unfold run. rewrite Hconf.
  pose proof (getPotentialRepos_log (github w) (searchList cfg)) as Hprinted.
  destruct (getPotentialRepos (github w) (searchList cfg)) as [repoURLs printed].
  cbn [fst snd] in *.
  destruct (enumeration_log_quiet cfg printed Hprinted) as (_ & _ & _ & _ & Hw0).
  destruct (pull_all_collects w (prefix cfg) repoURLs Hret []
              ([PrintConfig (prefix cfg) (searchList cfg) (out cfg)
                            (url.nonempty (githubToken cfg)) (writeCNAME cfg)]
                 ++ printed)) as (log1 & Hpull & _).
  rewrite Hpull. apply pull_all_wrote in Hpull.
  rewrite Hflag, Hu, Hwrite. cbn [snd]. unfold wrote in *.
  rewrite omap_app. fold (wrote (fold_left (emit w cfg)
                                   (extracted w (prefix cfg) repoURLs) log1)).
  rewrite emit_all_wrote. unfold wrote. rewrite Hpull, Hw0.
  reflexivity.
Qed.

Lemma run_writes_alias_file_witness :
  exists u,
    configuration (example_world None) = inr (example_config, None)
    /\ (forall repo,
         repo ∈ example_repos ->
         returns (extraction (example_world None) "pack.ag" repo) = true)
    /\ writeCNAME example_config = true
    /\ prefixURL example_config = Some u
    /\ wrote (run (example_world None)).2
       = [("site/CNAME", "pack.ag" +:+ newline)].
Proof.
  assert (Hconf : configuration (example_world None) = inr (example_config, None))
    by (vm_compute; reflexivity).
  assert (Hret : forall repo,
             repo ∈ example_repos ->
             returns (extraction (example_world None) "pack.ag" repo) = true).
  { intros repo Hin. unfold example_repos in Hin.
    repeat (apply elem_of_cons in Hin as [->|Hin]; [vm_compute; reflexivity |]).
    inversion Hin. }
  eexists. split; [exact Hconf |]. split; [exact Hret |].
  split; [reflexivity |]. split; [vm_compute; reflexivity |].
  pose proof (run_writes_alias_file (example_world None) example_config) as H.
  rewrite example_repos_enumerated in H.
  exact (H _ Hconf Hret eq_refl eq_refl eq_refl).
Defined.

(** ** From the listing to the import prefix *)

Section EndToEndFacts.
Import strings.

Lemma scan_lines_Ok_each (env : RepoEnv) (tmpDir url base : string)
    (lines : list string) :
  forall acc imports,
    scan_lines env tmpDir url base lines acc = Returns (Ok imports) ->
    forall line, line ∈ lines ->
      scan_line env tmpDir url base line = Skipped
      \/ exists v, scan_line env tmpDir url base line = Matched v.
Proof.
  induction lines as [|l rest IH]; intros acc imports Hscan line Hin;
    [inversion Hin |].
  cbn [scan_lines] in Hscan.
  destruct (scan_line env tmpDir url base l) as [|v|e|msg] eqn:Hl; try discriminate.
  - apply elem_of_cons in Hin as [->|Hin]; [now left | eauto].
  - apply elem_of_cons in Hin as [->|Hin]; [right; eauto | eauto].
Qed.

Lemma Split_line_fields (P dir : string) :
  ContainsByte P ":" = false -> ContainsByte dir ":" = false ->
  Split (P +:+ ":" +:+ dir) ":" = [P; dir].
Proof.
  intros HP Hdir. rewrite append_cons, append_nil_l, Split_app.
  now rewrite !Split_no_sep.
Qed.

End EndToEndFacts.

(** X19: when [getVanityPackages] succeeds, the clone, the start of the
    listing, the scanner and the end of the listing reported no error, and
    every line that starts with the prefix has a second field that resolves
    to a directory: one failure of any of these discards every package of
    the repository. *)
Theorem getVanityPackages_success_needs_all (env : RepoEnv) (url base : string)
    (imports : list vanityImport) :
  getVanityPackages env url base = Returns (Ok imports) ->
  git_clone env = None /\ StdoutPipe env = None /\ Start env = None
  /\ scanner_Err env = None /\ Wait env = None
  /\ forall line,
       line ∈ scanned env -> strings.HasPrefix line base = true ->
       exists field dir,
         strings.Split line ":" !! 1%nat = Some field
         /\ EvalSymlinks env field = Ok dir.
Proof.
  unfold getVanityPackages, check.
  destruct (TempDir env) as [tmpDir0|]; [|discriminate].
  destruct (EvalSymlinks env tmpDir0) as [tmpDir|]; [|discriminate].
  destruct (git_clone env); [discriminate |].
  destruct (StdoutPipe env); [discriminate |].
  destruct (Start env); [discriminate |].
  destruct (scan_lines env tmpDir url base (scanned env) []) as [[found|]|] eqn:Hscan;
    try discriminate.
  destruct (scanner_Err env); [discriminate |].
  destruct (Wait env); [discriminate |].
  intros _. repeat (split; [reflexivity |]).
  intros line Hin Hpre.
  destruct (scan_lines_Ok_each _ _ _ _ _ _ _ Hscan line Hin) as [Hskip|[v Hv]].
  - apply scan_line_Skipped in Hskip. congruence.
  - destruct (scan_line_Matched _ _ _ _ _ _ Hv)
      as (_ & importPath & field & dir & _ & Hfield & Hdir & _).
    now exists field, dir.
Qed.

Lemma getVanityPackages_success_needs_all_witness :
  let url := "https://github.com/vcabbage/go-tftp" in
  let imports := [ mkVanityImport "pack.ag/tftp" url 0;
                   mkVanityImport "pack.ag/tftp/netascii" url 1 ] in
  getVanityPackages example_env url "pack.ag" = Returns (Ok imports)
  /\ git_clone example_env = None /\ StdoutPipe example_env = None
  /\ Start example_env = None
  /\ scanner_Err example_env = None /\ Wait example_env = None
  /\ forall line,
       line ∈ scanned example_env -> strings.HasPrefix line "pack.ag" = true ->
       exists field dir,
         strings.Split line ":" !! 1%nat = Some field
         /\ EvalSymlinks example_env field = Ok dir.
Proof.
  cbv zeta.
  assert (Hget : getVanityPackages example_env "https://github.com/vcabbage/go-tftp"
                   "pack.ag"
                 = Returns (Ok [ mkVanityImport "pack.ag/tftp"
                                   "https://github.com/vcabbage/go-tftp" 0;
                                 mkVanityImport "pack.ag/tftp/netascii"
                                   "https://github.com/vcabbage/go-tftp" 1 ]))
    by (vm_compute; reflexivity).
  split; [exact Hget |].
  exact (getVanityPackages_success_needs_all example_env _ _ _ Hget).
Defined.

(** X20: for a plain import path made of a root, a slash and a relative
    path, [ImportPrefix] at the depth that is the number of segments of the
    relative path returns the root. *)
Theorem ImportPrefix_strips_relative_path (root rel repo : string) :
  url.plain (root +:+ "/" +:+ rel) = true ->
  strings.HasPrefix (root +:+ "/" +:+ rel) "//" = false ->
  fits_int (len (strings.Split (root +:+ "/" +:+ rel) "/")) ->
  ImportPrefix (mkVanityImport (root +:+ "/" +:+ rel) repo
                               (len (strings.Split rel "/")))
  = Returns root.
Proof.
  intros Hplain Hauth Hn.
  assert (Hsplit : strings.Split (root +:+ "/" +:+ rel) "/"
                   = strings.Split root "/" ++ strings.Split rel "/")
    by (rewrite append_cons, append_nil_l; apply Split_app).
  rewrite ImportPrefix_plain_value; try assumption.
  - rewrite Hsplit. unfold len. rewrite length_app.
    replace (Z.to_nat (Z.of_nat (length (strings.Split root "/")
                                 + length (strings.Split rel "/"))
                       - Z.of_nat (length (strings.Split rel "/"))))
      with (length (strings.Split root "/")) by lia.
    rewrite take_app_length. f_equal. apply (Join_Split root "/").
  - rewrite Hsplit. unfold len. rewrite length_app. lia.
Qed.

Lemma ImportPrefix_strips_relative_path_witness :
  url.plain ("example.com/org/repo" +:+ "/" +:+ "sub/pkg") = true
  /\ strings.HasPrefix ("example.com/org/repo" +:+ "/" +:+ "sub/pkg") "//" = false
  /\ fits_int (len (strings.Split ("example.com/org/repo" +:+ "/" +:+ "sub/pkg") "/"))
  /\ ImportPrefix (mkVanityImport ("example.com/org/repo" +:+ "/" +:+ "sub/pkg")
                                  "https://github.com/org/repo"
                                  (len (strings.Split "sub/pkg" "/")))
     = Returns "example.com/org/repo".
Proof.
  assert (Hn : fits_int (len (strings.Split
                                ("example.com/org/repo" +:+ "/" +:+ "sub/pkg") "/")))
    by (unfold fits_int; vm_compute; split; [discriminate | reflexivity]).
  repeat (split; [first [reflexivity | exact Hn] |]).
  exact (ImportPrefix_strips_relative_path "example.com/org/repo" "sub/pkg"
           "https://github.com/org/repo" eq_refl eq_refl Hn).
Defined.

(** X21: a line of the listing for a package whose directory resolves to
    [tmpDir/rel] and whose import comment is a root followed by [/rel]
    (plain, starting with the prefix, neither field with a colon) gives a
    package whose import prefix is the root: the package of a
    sub-directory is served under the import path of its repository. *)
Theorem scan_line_import_prefix_is_root (env : RepoEnv)
    (tmpDir url base root rel dir : string) :
  strings.HasPrefix (root +:+ "/" +:+ rel) base = true ->
  url.plain (root +:+ "/" +:+ rel) = true ->
  strings.HasPrefix (root +:+ "/" +:+ rel) "//" = false ->
  fits_int (len (strings.Split (root +:+ "/" +:+ rel) "/")) ->
  strings.ContainsByte dir ":" = false ->
  EvalSymlinks env dir = Ok (tmpDir +:+ "/" +:+ rel) ->
  is_relative rel = true ->
  exists v,
    scan_line env tmpDir url base ((root +:+ "/" +:+ rel) +:+ ":" +:+ dir)
    = Matched v
    /\ Import v = root +:+ "/" +:+ rel
    /\ pathLen v = len (strings.Split rel "/")
    /\ ImportPrefix v = Returns root.
Proof.
  intros Hpre Hplain Hauth Hn Hdir Hres Hrel.
  assert (Hcolon : strings.ContainsByte (root +:+ "/" +:+ rel) ":" = false)
    by now apply plain_absent.
  assert (Hline : strings.HasPrefix ((root +:+ "/" +:+ rel) +:+ ":" +:+ dir) base
                  = true).
  { apply HasPrefix_true_iff in Hpre as [r Hr]. apply HasPrefix_true_iff.
    exists (r +:+ ":" +:+ dir). rewrite Hr. now rewrite !append_assoc. }
  unfold scan_line. rewrite Hline. cbn [negb].
  rewrite (Split_line_fields _ dir Hcolon Hdir). cbn [index_at lookup list_lookup].
  rewrite Hres.
  assert (Hne : String.eqb (tmpDir +:+ "/" +:+ rel) tmpDir = false)
    by (apply String.eqb_neq, append_not_self).
  rewrite Hne. cbn [negb]. rewrite (depth_below_root tmpDir rel Hrel).
  eexists. split; [reflexivity |]. cbn [Import pathLen].
  repeat split. now apply ImportPrefix_strips_relative_path.
Qed.

Lemma scan_line_import_prefix_is_root_witness :
  exists v,
    scan_line example_env "/tmp/govanity1" "https://github.com/vcabbage/go-tftp"
      "pack.ag" (("pack.ag/tftp" +:+ "/" +:+ "netascii") +:+ ":"
                 +:+ "/tmp/govanity1/netascii")
    = Matched v
    /\ Import v = "pack.ag/tftp" +:+ "/" +:+ "netascii"
    /\ pathLen v = len (strings.Split "netascii" "/")
    /\ ImportPrefix v = Returns "pack.ag/tftp".
Proof.
  assert (Hn : fits_int (len (strings.Split
                                ("pack.ag/tftp" +:+ "/" +:+ "netascii") "/")))
    by (unfold fits_int; vm_compute; split; [discriminate | reflexivity]).
  exact (scan_line_import_prefix_is_root example_env "/tmp/govanity1"
           "https://github.com/vcabbage/go-tftp" "pack.ag" "pack.ag/tftp"
           "netascii" "/tmp/govanity1/netascii"
           eq_refl eq_refl eq_refl Hn eq_refl eq_refl eq_refl).
Defined.
